(* ===== verification/_CoqProject ===== *)
-Q . S2P
Prelude.v
Text.v
Like.v
Models.v
Schemas.v
Engine.v
Flush.v
Crud.v
Api.v
Responses.v
Contract.v
Sessions.v
Serial.v
Bootstrap.v
Pool.v
Tests.v
