(* ===== verification/Prelude.v ===== *)
(** * A verification development of the product-inventory API

    The program (under [src/app/]) is a FastAPI service over one SQLAlchemy
    table, [products]. Its parts, and how they interact:

    - [models.py]: the ORM class [Product] (columns [id], [name],
      [description], [price], [stock], [created_at], with their NOT NULL
      constraints and insert defaults);
    - [schemas.py]: the Pydantic schemas [ProductCreate], [ProductUpdate]
      and [ProductRead], whose field constraints validate request bodies
      and responses;
    - [crud.py]: [get_product], [get_products], [create_product],
      [update_product] and [delete_product], which run one query or one
      commit each on the request's session;
    - [main.py]: the five endpoints, which validate the query string and
      the body, call [crud], turn "absent" into 404 and serialise the
      result through [ProductRead];
    - [db.py]: the URL ([DATABASE_URL], SQLite by default), [get_db] (one
      session per request, closed in [finally]) and [init_db] (create the
      table, count its rows, and seed it from a script when the count is
      0), which [main.py]'s [on_startup] runs.

    A request goes through: parameter and body validation (422), the
    handler's [crud] calls against the session (the SQL engine may raise:
    500, and the session's uncommitted work is rolled back when it is
    closed), then response validation against [ProductRead].

    ** Files

    - [Prelude] (this file): the [result] error type with its [let*]
      notation in [inv_scope], machine-integer bounds of the SQLite driver
      ([in_int64]), shared list and sorting lemmas, the [inv] hint database
      and the development's tactics.
    - [Text]: the string builtins the code relies on, written out over
      ASCII strings: SQLite's [lower()], Python's [str.strip()] and
      [str.split(sep)], and [";".join] as the inverse of the split.
    - [Like]: SQL [LIKE] matching with the [%] and [_] wildcards and
      SQLAlchemy's [ilike] ([lower(a) LIKE lower(b)]), with the theorem
      that a filter without wildcards is a case-insensitive substring test
      and the counterexample for filters that contain one.
    - [Models]: the [products] row and the ORM instance with optional
      attributes ([models.py]).
    - [Schemas]: JSON fields as absent / null / given, the three schemas'
      validators with Pydantic's field constraints, [model_dump] and
      [model_dump(exclude_unset=True)] ([schemas.py]).
    - [Engine]: the table as a [gmap Z Product] keyed by rowid, the
      driver's 64-bit binding of integers, rowid allocation, flush with
      NOT NULL checks and insert defaults, ordered scan with
      [OFFSET]/[LIMIT].
    - [Flush]: the column-wise [UPDATE] SQLAlchemy emits for a dirty
      instance at [commit], and [db.refresh]; equal to the engine's
      whole-row write within one request ([commit_update_eq]).
    - [Crud]: the five functions of [crud.py] over the engine, in the
      module [Crud] (as [main.py] calls them, [crud.get_product], ...).
    - [Api]: the endpoints of [main.py] (module [Main]) and [handle], one
      function from a request and a store to a response and a store,
      written against the interface [Persistence] (the five functions of
      [crud]) and run at its instance [crud_persistence]; the table
      invariant and its preservation; reachability and the safety
      theorems.
    - [Responses]: the answers each route declares (status codes,
      [response_model], the 404 detail, the 422 detail of FastAPI's
      validation) as the test [response_typed], and the write-then-read
      round trip.
    - [Sessions]: each request as a thread of atomic SQLite statements
      in its own session ([get_db]), interleaved on the shared table
      ([cstep], [creachable], schedules [sched], and runs of [Event]s in
      which requests also arrive).
    - [Serial]: requests on distinct ids touch only their own row, so
      their interleavings are serializable: any interleaving in which they
      all answer gives the responses and the table of [Contract.run].
    - [Pool]: the engine of [db.py] ([connect_args], [create_engine]
      with SQLAlchemy's default [QueuePool], [sessionmaker]) and the
      sessions of [get_db]: a session checks a connection out at the first
      statement of a transaction and returns it at [COMMIT] or [close];
      statements run on arbitrary worker threads, a request may wait for
      the pool and time out. Its runs are runs of [Sessions] with aborts.
    - [Tests]: the fixture [client] (temporary SQLite file, startup) and
      the three tests of [tests/test_products.py] as boolean functions of
      the store it leaves, proved against the persistence contract.
    - [Bootstrap]: [DATABASE_URL], [init_db] with [create_all], the
      count and its [except] branch, and the statement splitting of
      [db.py], over a [Database] that records the table's columns;
      [on_startup] of [main.py].
    - [Contract]: the spec's routing contract (section 4.2) as a step
      relation [spec_step] on the abstract table; the persistence-layer
      contract (section 4.1) as the class [PersistenceContract] of laws
      over [Persistence]; the refinement of [handle] into [spec_step]
      proved from the laws alone, on the domain [in_domain] and over
      whole sequences of requests ([run]); and [crud_contract], the
      proof that [crud] satisfies the laws.

    ** What the theorems show

    - Name filter ([Like]): for a filter without [%] or [_],
      [ilike(f"%{name}%")] holds exactly when the lower-cased name contains
      the lower-cased filter; a filter with [_] is not a substring test.
    - Listing ([Crud]): pages are strictly ordered by id, have at most
      [limit] rows, and hold only stored rows that pass the filter.
    - Writes ([Crud]): [create_product] stores one fresh row under the next
      rowid; [update_product] refines the spec's partial update ([patch])
      when no NOT NULL column is sent as [null], and raises
      [IntegrityError] when one is; a stock outside 64 bits raises
      [OverflowError]; [delete_product] removes exactly the row.
    - Endpoints ([Api]): each handler preserves the table invariant
      [table_ok], hence (rule induction on [reachable]) every table
      reachable from a valid seed satisfies it, and there the read
      endpoints never answer 500; the status codes of each route on every
      branch (422 before 404 on [PUT], 500 for ids outside 64 bits and for
      [null] updates, 204 then 404 on delete, 201 on create, reuse of the
      largest id after its deletion) and the spec's example scenario.
    - Responses ([Responses]): whatever the store returns, every answer of
      [handle] is one its route declares (a type theorem: the right
      status with a body of its [response_model], 404 only on id routes,
      422 only where FastAPI validates and with a non-empty detail at the
      route's fields, or 500); on a valid table a product a response shows
      is what a [GET] of its id reads right after.
    - Refinement ([Contract]): for any store satisfying the persistence
      laws, and so for [crud] on a valid table, every sequence of
      requests inside [in_domain] is answered as a trace of [spec_step];
      [spec_step] fixes everything but the id a [POST] assigns, so this
      pins down the service's behaviour. The requests outside the domain
      are the divergences above.
    - Interleavings ([Sessions]): a thread run alone is [handle]; every
      thread answers within three of its own statements in any schedule;
      under any schedule that runs it infinitely often (weak fairness),
      with requests arriving all the while, every request is answered and
      its answer stays (liveness); interleaved [GET], [PUT] and [DELETE]
      requests on distinct ids are serializable ([Serial]), so their
      interleaved runs refine the spec's contract too;
      the table invariant holds in every interleaving; a [PUT] racing a
      [DELETE] answers 500, two [PUT]s of different fields both take
      effect, and two [DELETE]s of one id both answer 204.
    - Pool ([Pool]): in every pooled run at most [pool_size +
      max_overflow] connections are open and [pool_size] idle; every open
      connection is idle or held by one session inside an open
      transaction, so an answered request holds none; the pooled runs
      refine [Sessions] (statements, arrivals, and requests ending with
      500 before a statement); with the [connect_args] of [db.py] the
      worker that runs a statement does not matter; the pool never
      deadlocks; and a [POST] whose [COMMIT] succeeded can still answer
      500, because its refresh checks a connection out again and can time
      out.
    - Tests ([Tests]): run by the fixture, the pagination test passes
      exactly when the seed left three rows or more, the CRUD test on every valid table with a rowid
      left, the filter test when the matches are capitalised as it
      expects; it fails on a valid table whose first match is in
      capitals, although the response is right.
    - Bootstrap ([Bootstrap]): seeding runs at most once, from one start
      of the service to the next, when the table has the mapped columns; a
      table that lacks one makes the count fail and is seeded again
      whatever it holds; the seed is atomic on Postgres, while on SQLite a
      failing statement leaves a partly seeded table that is never
      completed; every split statement is non-empty,
      stripped and free of [;], and a [;] inside a string literal cuts a
      statement.

    ** Bounds and recursion

    Integers are Z; the bound that matters is the sqlite3 driver's signed
    64-bit binding ([INT64_MIN], [INT64_MAX], [in_int64]): ids, [skip],
    [limit] and [stock] outside it raise [OverflowError]; rowids stop at
    [INT64_MAX] ([RowidExhausted] stands for SQLite's random choice there).
    Prices are IEEE doubles ([PrimFloat]), so NaN and infinities are
    those of Python floats. Every function is structurally recursive (on
    strings, lists or the request sequence), so no fuel is needed, except
    [Sessions.solo], which runs one thread for a number of statements: a
    thread has at most three ([steps_left]), so fuel 3 is enough, and
    [sched_finishes] shows it for every schedule. An infinite schedule is
    a function [nat -> Event]; the liveness theorem is stated over its
    finite prefixes ([seq 0 m]), so no coinduction is needed. Every
    definition is total and evaluates by [vm_compute].

    ** Not modelled

    - Postgres and time: sessions are modelled for SQLite (the default
      URL), where a [SELECT] reads the committed table and a write
      statement holds the lock until its [COMMIT]; Postgres isolation
      levels are not modelled. The pool's [pool_timeout] is not a clock:
      a request waiting on an exhausted pool may time out at any point,
      so the model has every timeout the 30 seconds allow and more. The
      pool is SQLAlchemy's [QueuePool] with its defaults; how a failed
      reset invalidates a connection is modelled by [discard] only.
    - JSON decoding and Pydantic's type coercion: bodies and parameters
      arrive as typed [Field]s; strings are ASCII ([lower()] folds ASCII
      only in SQLite as well).
    - Reading the seed file, [executescript]'s statement splitting and
      the effect of one SQL statement: parameters of the [InitDb] section
      of [Bootstrap] (a seed script that holds [BEGIN]/[COMMIT] is not
      covered by [run_script]).
    - Postgres column types (32-bit [Integer], [String(120)] length
      checks), and [conftest.py], which only sets up the import path. The
      seed scripts ([data/sql/story.sql], [story_postgres.sql]) are not
      among the sources: their statements are parameters of [Bootstrap]
      and [Tests].

    Later work: interleavings that include [POST] (the id it gets depends
    on the order) and listings (which read every row), which are not
    serializable in general and need a weaker contract; a Postgres
    instance of [Persistence] (32-bit [Integer] columns, other isolation
    levels). *)

From stdpp Require Export base gmap strings list sorting.
From Stdlib Require Export ZArith Lia PrimFloat.

Declare Scope inv_scope.
Delimit Scope inv_scope with inv.
Open Scope inv_scope.

(** ** Results: the error monad of the development *)

Inductive result (E A : Type) : Type :=
| Ok (a : A)
| Err (e : E).
Arguments Ok {E A} a.
Arguments Err {E A} e.

Definition result_bind {E A B} (m : result E A) (k : A -> result E B) : result E B :=
  match m with
  | Ok a => k a
  | Err e => Err e
  end.

Notation "'let*' x ':=' m 'in' k" := (result_bind m (fun x => k))
  (at level 10, x name, m at level 100, k at level 200) : inv_scope.

Definition result_map {E A B} (f : A -> B) (m : result E A) : result E B :=
  match m with
  | Ok a => Ok (f a)
  | Err e => Err e
  end.

Definition is_ok {E A} (r : result E A) : bool :=
  match r with Ok _ => true | Err _ => false end.

Lemma result_bind_Ok_inv {E A B} (m : result E A) (k : A -> result E B) b :
  result_bind m k = Ok b -> exists a, m = Ok a /\ k a = Ok b.
Proof. destruct m; simpl; [eauto | discriminate]. Qed.

Lemma result_bind_Err_inv {E A B} (m : result E A) (k : A -> result E B) e :
  result_bind m k = Err e -> m = Err e \/ exists a, m = Ok a /\ k a = Err e.
Proof. destruct m; simpl; [eauto | intros [= ->]; auto]. Qed.

Lemma result_bind_Ok {E A B} (a : A) (k : A -> result E B) :
  result_bind (Ok a) k = k a.
Proof. reflexivity. Qed.

(** ** Machine integers of the SQLite driver

    Python's [sqlite3] binds an [int] parameter as a signed 64-bit integer
    and raises [OverflowError] for anything outside that range. *)

Definition INT64_MIN : Z := (- 2 ^ 63)%Z.
Definition INT64_MAX : Z := (2 ^ 63 - 1)%Z.

Definition in_int64 (z : Z) : bool := ((INT64_MIN <=? z) && (z <=? INT64_MAX))%Z.

Lemma in_int64_spec z : in_int64 z = true <-> (INT64_MIN <= z <= INT64_MAX)%Z.
Proof. unfold in_int64. rewrite andb_true_iff, !Z.leb_le. tauto. Qed.

(** ** Lists and sorting *)

Section sorted.
Context {A : Type} (R : relation A).

Lemma StronglySorted_sublist (l k : list A) :
  sublist k l -> StronglySorted R l -> StronglySorted R k.
Proof.
  induction 1 as [|x l1 l2 Hs IH|x l1 l2 Hs IH]; intros Hl; [done| |].
  - apply StronglySorted_inv in Hl as [Hl Hx].
    constructor; [by apply IH|].
    rewrite Forall_forall in *. intros y Hy.
    by eapply Hx, elem_of_sublist.
  - apply IH. by apply StronglySorted_inv in Hl as [Hl _].
Qed.

Lemma StronglySorted_take n (l : list A) :
  StronglySorted R l -> StronglySorted R (take n l).
Proof. apply StronglySorted_sublist, sublist_take. Qed.

Lemma StronglySorted_drop n (l : list A) :
  StronglySorted R l -> StronglySorted R (drop n l).
Proof. apply StronglySorted_sublist, sublist_drop. Qed.

Lemma StronglySorted_filter (P : A -> Prop) `{!forall x, Decision (P x)} (l : list A) :
  StronglySorted R l -> StronglySorted R (filter P l).
Proof. apply StronglySorted_sublist, sublist_filter. Qed.
End sorted.

(** Sorted by a key with no duplicate keys: strictly sorted. *)
Lemma StronglySorted_strict {A} (f : A -> Z) (l : list A) :
  StronglySorted (fun x y => (f x <= f y)%Z) l -> NoDup (f <$> l) ->
  StronglySorted (fun x y => (f x < f y)%Z) l.
Proof.
  induction l as [|x l IH]; intros Hs Hn; [constructor|].
  apply StronglySorted_inv in Hs as [Hs Hx]. simpl in Hn. apply NoDup_cons in Hn as [Hnx Hn].
  constructor; [by apply IH|].
  rewrite Forall_forall in *. intros y Hy.
  assert (f x <> f y) by (intros Heq; apply Hnx, list_elem_of_fmap; eauto).
  specialize (Hx y Hy). lia.
Qed.

(** Counting after an update by index: replacing [y] by [x] changes the
    count of [P] by what [x] and [y] contribute. *)
Lemma length_filter_insert {A} (P : A -> Prop) `{!forall x, Decision (P x)} (l : list A) i x y :
  l !! i = Some y ->
  (length (filter P (<[i := x]> l)) + length (filter P [y]) =
   length (filter P l) + length (filter P [x]))%nat.
Proof.
  intros Hi. rewrite insert_take_drop by (eapply lookup_lt_Some; eauto).
  replace (filter P l) with (filter P (take i l ++ y :: drop (S i) l))
    by by rewrite take_drop_middle.
  rewrite !filter_app, !(filter_cons _ x), !(filter_cons _ y), !filter_nil, !length_app.
  repeat case_decide; simpl; lia.
Qed.

(** An element that [P] counts is found. *)
Lemma length_filter_pos {A} (P : A -> Prop) `{!forall x, Decision (P x)} (l : list A) :
  (0 < length (filter P l))%nat -> exists i x, l !! i = Some x /\ P x.
Proof.
  intros Hn. destruct (filter P l) as [|x k] eqn:E; simpl in Hn; [lia|].
  assert (x ∈ filter P l) as [Hx Hl]%list_elem_of_filter by (rewrite E; left).
  apply list_elem_of_lookup_1 in Hl as [i Hi]. eauto.
Qed.

(** ** Strings

    stdpp declares [String.append] [simpl never]; these two equations are
    its computation rules. *)

Lemma str_app_nil_l s : (EmptyString ++ s)%string = s.
Proof. reflexivity. Qed.

Lemma str_app_cons c s1 s2 : (String c s1 ++ s2)%string = String c (s1 ++ s2).
Proof. reflexivity. Qed.

Lemma str_app_nil_r s : (s ++ EmptyString)%string = s.
Proof. induction s; [done|]. by rewrite str_app_cons, IHs. Qed.

(** ** Automation *)

Create HintDb inv discriminated.
#[export] Hint Resolve StronglySorted_take StronglySorted_drop StronglySorted_filter : inv.
#[export] Hint Resolve Forall_take Forall_drop : inv.
Create Rewrite HintDb inv_rw.
#[export] Hint Rewrite @result_bind_Ok str_app_nil_l str_app_cons : inv_rw.

(** [invc H]: invert and clean up. *)
Ltac invc H := inversion H; subst; clear H.

(** [simpl_str]: compute string concatenations everywhere. *)
Ltac simpl_str := rewrite ?str_app_nil_l, ?str_app_cons in *.

(** [simpl_result]: split every hypothesis [let* x := m in k = Ok b] into
    its two halves, and close contradictory [Ok]/[Err] equations. *)
Ltac simpl_result :=
  repeat match goal with
  | H : result_bind _ _ = Ok _ |- _ =>
      let a := fresh "a" in let Ha := fresh "Ha" in
      apply result_bind_Ok_inv in H as (a & Ha & H)
  | H : Ok _ = Ok _ |- _ => injection H as H; subst
  | H : Ok _ = Err _ |- _ => discriminate H
  | H : Err _ = Ok _ |- _ => discriminate H
  end.
