(* ===== verification/Text.v ===== *)
(** * Text: the string builtins the program relies on

    Strings are Rocq's [string], a list of 8-bit [ascii] characters: the
    model covers ASCII text (see the root header). This file writes out
    - SQLite's [lower()] ([str_lower]), which folds only [A]-[Z];
    - Python's [str.isspace] on ASCII, [str.strip()] ([py_strip]) and
      [str.split(sep)] for a one-character separator ([py_split]);
    - [sep.join] ([py_join]), the inverse of [py_split];
    with the lemmas the components use: idempotence of [lower], the
    round trip of [split]/[join], and the shape of a stripped string. *)

From S2P Require Import Prelude.
From Stdlib Require Import Ascii String.

Local Open Scope char_scope.

(** ** Case folding *)

(** SQLite's [lower()] without ICU: ASCII upper-case letters become
    lower-case, every other character is left alone. *)
Definition ascii_lower (c : ascii) : ascii :=
  let n := nat_of_ascii c in
  if (65 <=? n)%nat && (n <=? 90)%nat then ascii_of_nat (n + 32) else c.

Fixpoint str_lower (s : string) : string :=
  match s with
  | EmptyString => EmptyString
  | String c s' => String (ascii_lower c) (str_lower s')
  end.

Lemma ascii_lower_idem c : ascii_lower (ascii_lower c) = ascii_lower c.
Proof. destruct c as [[] [] [] [] [] [] [] []]; reflexivity. Qed.

Lemma str_lower_idem s : str_lower (str_lower s) = str_lower s.
Proof. induction s; simpl; [done|]. by rewrite ascii_lower_idem, IHs. Qed.

Lemma str_lower_app s1 s2 : str_lower (s1 ++ s2) = (str_lower s1 ++ str_lower s2)%string.
Proof. induction s1; simpl; [done|]. by rewrite IHs1. Qed.

Lemma str_lower_length s : String.length (str_lower s) = String.length s.
Proof. induction s; simpl; auto. Qed.

(** ** Whitespace and [str.strip()] *)

(** [str.isspace] on one ASCII character: tab, line feed, vertical tab,
    form feed, carriage return, the separators [\x1c]-[\x1f], and space. *)
Definition py_isspace (c : ascii) : bool :=
  let n := nat_of_ascii c in
  (((9 <=? n) && (n <=? 13)) || ((28 <=? n) && (n <=? 32)))%nat.

Fixpoint py_lstrip (s : string) : string :=
  match s with
  | EmptyString => EmptyString
  | String c s' => if py_isspace c then py_lstrip s' else s
  end.

Fixpoint py_rstrip (s : string) : string :=
  match s with
  | EmptyString => EmptyString
  | String c s' =>
      let r := py_rstrip s' in
      if py_isspace c && String.eqb r EmptyString then EmptyString else String c r
  end.

Definition py_strip (s : string) : string := py_rstrip (py_lstrip s).

(** Python truthiness of a string: non-empty. *)
Definition str_truthy (s : string) : bool := negb (String.eqb s EmptyString).

(** The first and last characters of a string. *)
Definition str_head (s : string) : option ascii :=
  match s with EmptyString => None | String c _ => Some c end.

Fixpoint str_last (s : string) : option ascii :=
  match s with
  | EmptyString => None
  | String c EmptyString => Some c
  | String _ s' => str_last s'
  end.

(** ** [str.split(sep)] and [sep.join] *)

(** [s.split(sep)] for a one-character [sep]: the maximal pieces between
    separators, always at least one (["".split(";") == [""]]). *)
Fixpoint py_split (sep : ascii) (s : string) : list string :=
  match s with
  | EmptyString => [EmptyString]
  | String c s' =>
      let parts := py_split sep s' in
      if Ascii.eqb c sep then EmptyString :: parts
      else match parts with
           | p :: ps => String c p :: ps
           | [] => [String c EmptyString]
           end
  end.

Fixpoint py_join (sep : ascii) (l : list string) : string :=
  match l with
  | [] => EmptyString
  | [p] => p
  | p :: ps => (p ++ String sep (py_join sep ps))%string
  end.

(** Whether a character occurs in a string. *)
Fixpoint str_has (c : ascii) (s : string) : bool :=
  match s with
  | EmptyString => false
  | String d s' => Ascii.eqb c d || str_has c s'
  end.

Lemma py_split_cons sep s : exists p ps, py_split sep s = p :: ps.
Proof.
  induction s as [|c s [p [ps IH]]]; simpl; [eauto|].
  rewrite IH. destruct (Ascii.eqb c sep); eauto.
Qed.

Lemma py_join_cons_char sep c p ps :
  py_join sep (String c p :: ps) = String c (py_join sep (p :: ps)).
Proof. by destruct ps. Qed.

(** [sep.join(s.split(sep)) == s]. *)
Lemma py_join_split sep s : py_join sep (py_split sep s) = s.
Proof.
  induction s as [|c s IH]; [done|]. cbn [py_split].
  destruct (py_split_cons sep s) as (p & ps & Hs). rewrite Hs in IH |- *.
  destruct (Ascii.eqb_spec c sep) as [->|_].
  - change (String sep (py_join sep (p :: ps)) = String sep s). by rewrite IH.
  - by rewrite py_join_cons_char, IH.
Qed.

(** No piece of [s.split(sep)] contains [sep]. *)
Lemma py_split_no_sep sep s : Forall (fun p => str_has sep p = false) (py_split sep s).
Proof.
  induction s as [|c s IH]; simpl; [by repeat constructor|].
  destruct (py_split_cons sep s) as (p & ps & Hs). rewrite Hs in IH |- *.
  destruct (Ascii.eqb_spec c sep) as [->|Hne].
  - by constructor.
  - apply Forall_cons in IH as [Hp Hps]. constructor; [|done].
    simpl. rewrite Hp, orb_false_r.
    destruct (Ascii.eqb_spec sep c); congruence.
Qed.

Lemma str_has_lstrip c s : str_has c (py_lstrip s) = true -> str_has c s = true.
Proof.
  induction s as [|d s IH]; simpl; [done|].
  destruct (py_isspace d); [|done]. intros H. rewrite (IH H). apply orb_true_r.
Qed.

Lemma str_has_rstrip c s : str_has c (py_rstrip s) = true -> str_has c s = true.
Proof.
  induction s as [|d s IH]; simpl; [done|].
  destruct (py_isspace d && String.eqb (py_rstrip s) EmptyString); simpl; [done|].
  intros [H|H]%orb_true_iff; apply orb_true_iff; auto.
Qed.

Lemma str_has_strip c s : str_has c (py_strip s) = true -> str_has c s = true.
Proof. intros H. by apply str_has_lstrip, str_has_rstrip. Qed.

(** A string has no white space at either end. *)
Definition no_edge_space (s : string) : Prop :=
  forall c, (str_head s = Some c \/ str_last s = Some c) -> py_isspace c = false.

Lemma str_last_cons c r :
  str_last (String c r) = if String.eqb r EmptyString then Some c else str_last r.
Proof. by destruct r. Qed.

Lemma py_lstrip_head s c : str_head (py_lstrip s) = Some c -> py_isspace c = false.
Proof.
  induction s as [|d s IH]; simpl; [done|].
  destruct (py_isspace d) eqn:Hd; [done|]. by intros [= <-].
Qed.

Lemma py_rstrip_head s c : str_head (py_rstrip s) = Some c -> str_head s = Some c.
Proof.
  destruct s as [|d s]; simpl; [done|].
  by destruct (py_isspace d && String.eqb (py_rstrip s) EmptyString).
Qed.

Lemma py_rstrip_last s c : str_last (py_rstrip s) = Some c -> py_isspace c = false.
Proof.
  induction s as [|d s IH]; [done|]. cbn [py_rstrip].
  destruct (String.eqb_spec (py_rstrip s) EmptyString) as [Hr|Hr].
  - rewrite Hr. destruct (py_isspace d) eqn:Hd; simpl; [done|]. by intros [= <-].
  - rewrite andb_false_r, str_last_cons.
    destruct (String.eqb_spec (py_rstrip s) EmptyString); [done|]. apply IH.
Qed.

(** [s.strip()] has no white space at either end. *)
Lemma py_strip_edges s : no_edge_space (py_strip s).
Proof.
  intros c [Hc|Hc].
  - by apply py_rstrip_head, py_lstrip_head in Hc.
  - by apply py_rstrip_last in Hc.
Qed.
