(* ===== verification/Like.v ===== *)
(** * Like: the name filter of [get_products]

    [crud.get_products] filters with [Product.name.ilike(f"%{name}%")]. On
    SQLite, SQLAlchemy renders [ilike] as [lower(name) LIKE lower(:p)], and
    SQLite's [LIKE] (no [ESCAPE] clause) reads [%] as any run of characters,
    [_] as any one character, and compares other characters with ASCII case
    folding. This file models that matcher ([like_match]), the rendered
    operator ([ilike]) and the pattern the code builds ([name_pattern]).

    The theorems relate it to the reference the spec uses, a
    case-insensitive substring test ([contains]): they agree exactly on
    filters without wildcard characters, and disagree on filters that
    contain one. *)

From S2P Require Import Prelude Text.
From Stdlib Require Import Ascii String.

Local Open Scope char_scope.

(** ** The matcher *)

(** Whether [f] holds of some suffix of [s] (the empty suffix included). *)
Fixpoint any_suffix (f : string -> bool) (s : string) : bool :=
  f s || match s with
         | EmptyString => false
         | String _ s' => any_suffix f s'
         end.

(** SQLite's [patternCompare] for [LIKE] without an escape character. *)
Fixpoint like_match (p s : string) : bool :=
  match p with
  | EmptyString => String.eqb s EmptyString
  | String c p' =>
      if Ascii.eqb c "%" then any_suffix (like_match p') s
      else match s with
           | EmptyString => false
           | String d s' =>
               (Ascii.eqb c "_" || Ascii.eqb (ascii_lower c) (ascii_lower d))
               && like_match p' s'
           end
  end.

(** [column.ilike(pattern)] as SQLAlchemy renders it for SQLite. *)
Definition ilike (column pattern : string) : bool :=
  like_match (str_lower pattern) (str_lower column).

(** [f"%{name}%"] (crud.py, line 30). *)
Definition name_pattern (name : string) : string :=
  String "%" (name ++ String "%" EmptyString).

(** ** The reference: substring containment *)

Fixpoint is_prefix (p s : string) : bool :=
  match p, s with
  | EmptyString, _ => true
  | String c p', String d s' => Ascii.eqb c d && is_prefix p' s'
  | String _ _, EmptyString => false
  end.

Definition contains (needle hay : string) : bool := any_suffix (is_prefix needle) hay.

Definition no_wildcards (p : string) : bool := negb (str_has "%" p || str_has "_" p).

(** ** Lemmas *)

Lemma any_suffix_spec f s :
  any_suffix f s = true <-> exists pre t, s = (pre ++ t)%string /\ f t = true.
Proof.
  induction s as [|c s IH]; simpl; rewrite orb_true_iff.
  - split; [intros [H|H]; [by exists EmptyString, EmptyString|done]|].
    intros (pre & t & Hs & Ht). destruct pre; simpl_str; [subst; auto|discriminate].
  - rewrite IH. split.
    + intros [H|(pre & t & -> & Ht)].
      * by exists EmptyString, (String c s).
      * by exists (String c pre), t.
    + intros ([|d pre] & t & Hs & Ht); simpl_str; [subst; auto|].
      injection Hs as -> ->. eauto.
Qed.

Lemma is_prefix_spec p s : is_prefix p s = true <-> exists post, s = (p ++ post)%string.
Proof.
  revert s; induction p as [|c p IH]; intros [|d s]; simpl; simpl_str.
  1,2: split; [by eexists | done].
  1: split; [done | by intros [? ?]].
  rewrite andb_true_iff, IH. split.
  - intros [->%Ascii.eqb_eq [post ->]]. eauto.
  - intros [post [= -> ->]]. rewrite Ascii.eqb_refl. eauto.
Qed.

Lemma contains_spec needle hay :
  contains needle hay = true <-> exists pre post, hay = (pre ++ needle ++ post)%string.
Proof.
  unfold contains. rewrite any_suffix_spec. split.
  - intros (pre & t & -> & [post ->]%is_prefix_spec). eauto.
  - intros (pre & post & ->). exists pre, (needle ++ post)%string.
    split; [done|]. apply is_prefix_spec. eauto.
Qed.

Lemma any_suffix_ext f g s :
  (forall t, f t = g t) -> any_suffix f s = any_suffix g s.
Proof. intros Hfg. induction s; simpl; rewrite Hfg; [done|]. by rewrite IHs. Qed.

Lemma any_suffix_lower f s :
  any_suffix f (str_lower s) = any_suffix (fun t => f (str_lower t)) s.
Proof. induction s; simpl; [done|]. by rewrite IHs. Qed.

(** The pattern [%] matches every string. *)
Lemma like_match_pct s : like_match (String "%" EmptyString) s = true.
Proof.
  change (any_suffix (like_match EmptyString) s = true).
  apply any_suffix_spec. exists s, EmptyString. by rewrite str_app_nil_r.
Qed.

Lemma ascii_lower_pct c : Ascii.eqb "%" (ascii_lower c) = Ascii.eqb "%" c.
Proof. destruct c as [[] [] [] [] [] [] [] []]; reflexivity. Qed.

Lemma ascii_lower_underscore c : Ascii.eqb "_" (ascii_lower c) = Ascii.eqb "_" c.
Proof. destruct c as [[] [] [] [] [] [] [] []]; reflexivity. Qed.

Lemma str_lower_no_wildcards p : no_wildcards (str_lower p) = no_wildcards p.
Proof.
  unfold no_wildcards. f_equal.
  induction p as [|c p IH]; [done|]. cbn [str_lower str_has].
  rewrite ascii_lower_pct, ascii_lower_underscore.
  destruct (Ascii.eqb "%" c), (Ascii.eqb "_" c), (str_has "%" p), (str_has "_" p),
    (str_has "%" (str_lower p)), (str_has "_" (str_lower p)); simpl in *; congruence.
Qed.

Lemma no_wildcards_cons c p :
  no_wildcards (String c p) = true ->
  Ascii.eqb c "%" = false /\ Ascii.eqb c "_" = false /\ no_wildcards p = true.
Proof.
  unfold no_wildcards; cbn [str_has].
  rewrite (Ascii.eqb_sym "%" c), (Ascii.eqb_sym "_" c).
  destruct (Ascii.eqb c "%"), (Ascii.eqb c "_"), (str_has "%" p), (str_has "_" p); auto.
Qed.

(** A wildcard-free pattern followed by [%] is a case-insensitive prefix
    test. *)
Lemma like_match_prefix p s :
  no_wildcards p = true ->
  like_match (p ++ String "%" EmptyString) s = is_prefix (str_lower p) (str_lower s).
Proof.
  revert s; induction p as [|c p IH]; intros s Hp.
  - apply like_match_pct.
  - apply no_wildcards_cons in Hp as (Hpct & Hund & Hp).
    simpl. rewrite Hpct, Hund. destruct s as [|d s]; simpl; [done|].
    by rewrite IH.
Qed.

Lemma str_lower_name_pattern n : str_lower (name_pattern n) = name_pattern (str_lower n).
Proof. unfold name_pattern. simpl. by rewrite str_lower_app. Qed.

Lemma ilike_name_pattern_contains n hay :
  no_wildcards n = true ->
  ilike hay (name_pattern n) = contains (str_lower n) (str_lower hay).
Proof.
  intros Hn. unfold ilike, contains. rewrite str_lower_name_pattern.
  change (any_suffix (like_match (str_lower n ++ String "%" EmptyString)) (str_lower hay)
          = any_suffix (is_prefix (str_lower n)) (str_lower hay)).
  rewrite !any_suffix_lower. apply any_suffix_ext. intros t.
  rewrite like_match_prefix by by rewrite str_lower_no_wildcards.
  by rewrite !str_lower_idem.
Qed.

(** ** Theorems *)

(** C1. The name filter of [get_products] is the case-insensitive
    substring match the spec describes, for every filter without the SQL
    wildcards [%] and [_]: a name passes [ilike(f"%{n}%")] exactly when its
    lower-cased form contains the lower-cased filter. *)
Theorem ilike_name_pattern_iff (n hay : string) :
  no_wildcards n = true ->
  ilike hay (name_pattern n) = true <->
  exists pre post, str_lower hay = (pre ++ str_lower n ++ post)%string.
Proof. intros Hn. by rewrite ilike_name_pattern_contains, contains_spec. Qed.

Lemma ilike_name_pattern_iff_witness :
  no_wildcards "Paracetamol"%string = true /\
  ilike "Paracetamol 500mg"%string (name_pattern "Paracetamol") = true.
Proof.
  split; [reflexivity|].
  apply (ilike_name_pattern_iff "Paracetamol" "Paracetamol 500mg"); [reflexivity|].
  exists EmptyString, " 500mg"%string. reflexivity.
Defined.

(** A filter that contains [_] is not a substring test: the filter
    ["p_r"] selects ["Paracetamol"], whose name does not contain ["p_r"] in
    any letter case, because [_] is passed to [LIKE] unescaped and matches
    any one character. *)
Theorem ilike_underscore_not_substring :
  ilike "Paracetamol"%string (name_pattern "p_r") = true /\
  ~ exists pre post, str_lower "Paracetamol" = (pre ++ str_lower "p_r" ++ post)%string.
Proof.
  split; [reflexivity|]. rewrite <- contains_spec. by vm_compute.
Qed.

(** The filter ["%"] selects every name. *)
Lemma ilike_percent_all hay : ilike hay (name_pattern "%") = true.
Proof.
  unfold ilike.
  change (any_suffix (like_match (String "%" (String "%" EmptyString))) (str_lower hay) = true).
  apply any_suffix_spec. exists (str_lower hay), EmptyString.
  by rewrite str_app_nil_r.
Qed.
