(* ===== verification/Models.v ===== *)
(** * Models: the [products] table of [models.py]

    [Product] is a row as the database stores it: NOT NULL columns are
    plain values, the nullable [description] is an [option]. [ProductObj]
    is an ORM instance of the class [Product] as Python code holds it:
    every attribute may be [None] (an instance built from keyword arguments
    has no [id] nor [created_at] until it is flushed, and [setattr] may
    store [None] in any attribute). The column list records which columns
    are nullable and which have an insert default ([models.py], lines
    20-25). Prices are Python floats, modelled as IEEE doubles ([float]);
    timestamps are integers (the clock is an input of the model). *)

From S2P Require Import Prelude.

(** A stored row of [products]. *)
Record Product := mkProduct {
  prod_id : Z;
  prod_name : string;
  prod_description : option string;
  prod_price : float;
  prod_stock : Z;
  prod_created_at : Z
}.

(** An ORM instance of [Product]: [None] is Python's [None]. *)
Record ProductObj := mkProductObj {
  obj_id : option Z;
  obj_name : option string;
  obj_description : option string;
  obj_price : option float;
  obj_stock : option Z;
  obj_created_at : option Z
}.

(** The columns, in declaration order. *)
Inductive Column := ColId | ColName | ColDescription | ColPrice | ColStock | ColCreatedAt.

#[export] Instance Column_eq_dec : EqDecision Column.
Proof. solve_decision. Defined.

(** [nullable=...]: only [description] accepts NULL ([id] is the primary
    key, an alias of the rowid). *)
Definition nullable (c : Column) : bool :=
  match c with ColDescription => true | _ => false end.

(** The instance SQLAlchemy hands out for a row it loaded. *)
Definition to_obj (p : Product) : ProductObj :=
  {| obj_id := Some (prod_id p);
     obj_name := Some (prod_name p);
     obj_description := prod_description p;
     obj_price := Some (prod_price p);
     obj_stock := Some (prod_stock p);
     obj_created_at := Some (prod_created_at p) |}.

(** [default=0] on [stock] and [default=datetime.utcnow] on [created_at]:
    on INSERT, SQLAlchemy leaves out the attributes that are [None] and the
    column default supplies the value; [now] is the clock reading. *)
Definition apply_insert_defaults (now : Z) (o : ProductObj) : ProductObj :=
  {| obj_id := obj_id o;
     obj_name := obj_name o;
     obj_description := obj_description o;
     obj_price := obj_price o;
     obj_stock := Some (default 0%Z (obj_stock o));
     obj_created_at := Some (default now (obj_created_at o)) |}.
