(* ===== verification/Schemas.v ===== *)
(** * Schemas: the Pydantic models of [schemas.py]

    A JSON body is a record of [Field]s: each key is absent ([Unset]),
    [null] ([Null]) or carries a value of the field's type ([Given]); a
    value of the wrong JSON type is outside the model (see the root
    header). Validation checks every field and reports every failing one,
    as Pydantic does, with the constraints of [schemas.py]:
    - [ProductCreate] (= [ProductBase]): [name] required, 2 to 120
      characters; [description] optional, at most 255; [price] required,
      [> 0]; [stock] defaults to 0, [>= 0];
    - [ProductUpdate]: every field optional and nullable, with the same
      bounds on a given value; which fields were sent is kept, since
      [model_dump(exclude_unset=True)] dumps exactly those, [null]s
      included;
    - [ProductRead]: the response check of a stored row. *)

From S2P Require Import Prelude Models.
From Stdlib Require Import FloatOps FloatAxioms SpecFloat.

(** ** JSON fields and validation errors *)

Inductive Field (A : Type) : Type :=
| Unset
| Null
| Given (a : A).
Arguments Unset {A}.
Arguments Null {A}.
Arguments Given {A} a.

(** A request body for [/products]: the four keys the schemas declare
    (other keys are ignored by Pydantic). *)
Record ProductIn := mkProductIn {
  in_name : Field string;
  in_description : Field string;
  in_price : Field float;
  in_stock : Field Z
}.

(** Pydantic's error types for these fields. *)
Inductive ErrorType :=
| Missing | StringType | FloatType | IntType
| StringTooShort | StringTooLong | GreaterThan | GreaterThanEqual | LessThanEqual.

(** One entry of a 422 response's [detail]: the field and the error. *)
Record Issue := mkIssue { issue_loc : string; issue_type : ErrorType }.

Abbreviation checked A := (result (list Issue) A).

Definition issue {A} (loc : string) (t : ErrorType) : checked A := Err [mkIssue loc t].

(** ** Field constraints *)

(** [min_length]/[max_length] on a string. *)
Definition check_len (loc : string) (lo : option nat) (hi : nat) (s : string) : checked string :=
  if bool_decide (String.length s < default 0 lo)%nat then issue loc StringTooShort
  else if bool_decide (hi < String.length s)%nat then issue loc StringTooLong
  else Ok s.

(** [gt=0] on a float: false for NaN, true for +infinity. *)
Definition check_gt0 (loc : string) (x : float) : checked float :=
  if PrimFloat.ltb 0 x then Ok x else issue loc GreaterThan.

(** [ge=0] on an int. *)
Definition check_ge0 (loc : string) (n : Z) : checked Z :=
  if (0 <=? n)%Z then Ok n else issue loc GreaterThanEqual.

(** The four constraints of [ProductBase]. *)
Definition name_ok (s : string) : Prop := (2 <= String.length s <= 120)%nat.
Definition description_ok (d : option string) : Prop :=
  match d with None => True | Some s => (String.length s <= 255)%nat end.
Definition price_ok (x : float) : Prop := PrimFloat.ltb 0 x = true.
Definition stock_ok (n : Z) : Prop := (0 <= n)%Z.

#[export] Instance name_ok_dec s : Decision (name_ok s).
Proof. unfold name_ok. apply _. Defined.
#[export] Instance description_ok_dec d : Decision (description_ok d).
Proof. destruct d; simpl; apply _. Defined.
#[export] Instance price_ok_dec x : Decision (price_ok x).
Proof. unfold price_ok. apply _. Defined.
#[export] Instance stock_ok_dec n : Decision (stock_ok n).
Proof. unfold stock_ok. apply _. Defined.

(** ** ProductCreate *)

Record ProductCreate := mkProductCreate {
  c_name : string;
  c_description : option string;
  c_price : float;
  c_stock : Z
}.

Definition errors {A} (r : checked A) : list Issue :=
  match r with Ok _ => [] | Err e => e end.

(** Validate four fields independently and report all failures. *)
Definition collect4 {A B C D R} (f : A -> B -> C -> D -> R)
    (ra : checked A) (rb : checked B) (rc : checked C) (rd : checked D) : checked R :=
  match ra, rb, rc, rd with
  | Ok a, Ok b, Ok c, Ok d => Ok (f a b c d)
  | _, _, _, _ => Err (errors ra ++ errors rb ++ errors rc ++ errors rd)
  end.

Definition collect3 {A B C R} (f : A -> B -> C -> R)
    (ra : checked A) (rb : checked B) (rc : checked C) : checked R :=
  match ra, rb, rc with
  | Ok a, Ok b, Ok c => Ok (f a b c)
  | _, _, _ => Err (errors ra ++ errors rb ++ errors rc)
  end.

(** [name: str = Field(..., min_length=2, max_length=120)] *)
Definition create_name (f : Field string) : checked string :=
  match f with
  | Unset => issue "name" Missing
  | Null => issue "name" StringType
  | Given s => check_len "name" (Some 2%nat) 120 s
  end.

(** [description: Optional[str] = Field(None, max_length=255)] *)
Definition base_description (f : Field string) : checked (option string) :=
  match f with
  | Unset | Null => Ok None
  | Given s => result_map Some (check_len "description" None 255 s)
  end.

(** [price: float = Field(..., gt=0)] *)
Definition create_price (f : Field float) : checked float :=
  match f with
  | Unset => issue "price" Missing
  | Null => issue "price" FloatType
  | Given x => check_gt0 "price" x
  end.

(** [stock: int = Field(0, ge=0)] *)
Definition create_stock (f : Field Z) : checked Z :=
  match f with
  | Unset => Ok 0%Z
  | Null => issue "stock" IntType
  | Given n => check_ge0 "stock" n
  end.

Definition validate_create (b : ProductIn) : checked ProductCreate :=
  collect4 mkProductCreate (create_name (in_name b)) (base_description (in_description b))
    (create_price (in_price b)) (create_stock (in_stock b)).

(** ** ProductUpdate *)

Record ProductUpdate := mkProductUpdate {
  u_name : Field string;
  u_description : Field string;
  u_price : Field float;
  u_stock : Field Z
}.

(** [Optional[T] = Field(None, ...)]: [null] is accepted as it is, a given
    value is checked, and whether the key was sent is remembered. *)
Definition optional_field {A} (check : A -> checked A) (f : Field A) : checked (Field A) :=
  match f with
  | Unset => Ok Unset
  | Null => Ok Null
  | Given a => result_map Given (check a)
  end.

Definition validate_update (b : ProductIn) : checked ProductUpdate :=
  collect4 mkProductUpdate
    (optional_field (check_len "name" (Some 2%nat) 120) (in_name b))
    (optional_field (check_len "description" None 255) (in_description b))
    (optional_field (check_gt0 "price") (in_price b))
    (optional_field (check_ge0 "stock") (in_stock b)).

(** One entry of [model_dump(exclude_unset=True)]: a key with its value. *)
Inductive Setting :=
| SetName (v : option string)
| SetDescription (v : option string)
| SetPrice (v : option float)
| SetStock (v : option Z).

Definition dump_field {A} (mk : option A -> Setting) (f : Field A) : list Setting :=
  match f with
  | Unset => []
  | Null => [mk None]
  | Given a => [mk (Some a)]
  end.

(** [payload.model_dump(exclude_unset=True)], in field order. *)
Definition dump_exclude_unset (u : ProductUpdate) : list Setting :=
  dump_field SetName (u_name u) ++ dump_field SetDescription (u_description u)
  ++ dump_field SetPrice (u_price u) ++ dump_field SetStock (u_stock u).

(** ** ProductRead *)

(** Response validation of a row through [ProductRead] (which inherits the
    constraints of [ProductBase]). *)
Definition read_ok (p : Product) : Prop :=
  name_ok (prod_name p) /\ description_ok (prod_description p)
  /\ price_ok (prod_price p) /\ stock_ok (prod_stock p).

Definition validate_read (p : Product) : bool := bool_decide (read_ok p).

(** ** Lemmas *)

(** A price that passes [gt=0] is not NaN (NaN compares false with
    everything). *)
Lemma price_ok_not_nan x : price_ok x -> PrimFloat.is_nan x = false.
Proof.
  unfold price_ok, PrimFloat.is_nan. rewrite ltb_spec, eqb_spec.
  destruct (Prim2SF x) as [s|s| |s m e]; cbn; try discriminate; intros _;
    destruct s; rewrite ?Z.compare_refl, ?Pos.compare_cont_refl; reflexivity.
Qed.

Lemma collect4_Ok {A B C D R} (f : A -> B -> C -> D -> R) ra rb rc rd r :
  collect4 f ra rb rc rd = Ok r <->
  exists a b c d, ra = Ok a /\ rb = Ok b /\ rc = Ok c /\ rd = Ok d /\ r = f a b c d.
Proof.
  unfold collect4. split.
  - destruct ra, rb, rc, rd; intros H; simplify_eq; eauto 10.
  - intros (a & b & c & d & -> & -> & -> & -> & ->). done.
Qed.

(** Every error of a failing field is reported. *)
Lemma collect4_errors {A B C D R} (f : A -> B -> C -> D -> R) ra rb rc rd i :
  i ∈ errors ra ++ errors rb ++ errors rc ++ errors rd ->
  exists e, collect4 f ra rb rc rd = Err e /\ i ∈ e.
Proof.
  unfold collect4. destruct ra, rb, rc, rd; simpl; intros Hi; eauto; set_solver.
Qed.

Lemma check_len_Ok loc lo hi s s' :
  check_len loc lo hi s = Ok s' <-> s' = s /\ (default 0 lo <= String.length s <= hi)%nat.
Proof.
  unfold check_len, issue.
  repeat case_bool_decide; split; intros Hx; destruct_and?; simplify_eq; auto with lia.
Qed.

Lemma check_gt0_Ok loc x x' : check_gt0 loc x = Ok x' <-> x' = x /\ price_ok x.
Proof. unfold check_gt0, price_ok, issue. destruct (PrimFloat.ltb 0 x); naive_solver. Qed.

Lemma check_ge0_Ok loc n n' : check_ge0 loc n = Ok n' <-> n' = n /\ stock_ok n.
Proof.
  unfold check_ge0, stock_ok. destruct (Z.leb_spec 0 n).
  - split; [intros [= <-]|intros [-> _]]; auto.
  - split; [done|lia].
Qed.

Lemma create_name_Ok f s : create_name f = Ok s <-> f = Given s /\ name_ok s.
Proof.
  destruct f; simpl; unfold issue; [naive_solver|naive_solver|].
  rewrite check_len_Ok. unfold name_ok. naive_solver.
Qed.

Lemma base_description_Ok f d :
  base_description f = Ok d <->
  match f with Given s => d = Some s /\ (String.length s <= 255)%nat | _ => d = None end.
Proof.
  destruct f as [| |s]; simpl; [naive_solver|naive_solver|].
  destruct (check_len "description" None 255 s) eqn:E; simpl.
  - apply check_len_Ok in E as [-> ?]. naive_solver.
  - split; [done|]. intros [-> ?]. rewrite (proj2 (check_len_Ok _ _ _ s s)) in E; naive_solver lia.
Qed.

Lemma create_price_Ok f x : create_price f = Ok x <-> f = Given x /\ price_ok x.
Proof.
  destruct f; simpl; unfold issue; [naive_solver|naive_solver|].
  rewrite check_gt0_Ok. naive_solver.
Qed.

Lemma create_stock_Ok f n :
  create_stock f = Ok n <-> (f = Unset /\ n = 0%Z) \/ (f = Given n /\ stock_ok n).
Proof.
  destruct f; simpl; unfold issue; [naive_solver|naive_solver|].
  rewrite check_ge0_Ok. naive_solver.
Qed.

Lemma optional_field_Ok {A} (check : A -> checked A) f g :
  optional_field check f = Ok g <->
  match f with Given a => exists a', check a = Ok a' /\ g = Given a' | _ => g = f end.
Proof.
  destruct f as [| |a]; simpl; [naive_solver|naive_solver|].
  destruct (check a); simpl; naive_solver.
Qed.

(** Constraints on a field that may be given. *)
Definition given_ok {A} (P : A -> Prop) (f : Field A) : Prop :=
  forall a, f = Given a -> P a.

(** [validate_create] accepts a body exactly when its fields satisfy the
    constraints of [ProductBase], and then builds the payload from them:
    [name] and [price] as sent, [description] as sent or [None], [stock]
    as sent or 0. *)
Lemma validate_create_Ok b c :
  validate_create b = Ok c <->
  in_name b = Given (c_name c) /\ name_ok (c_name c)
  /\ match in_description b with
     | Given s => c_description c = Some s /\ (String.length s <= 255)%nat
     | _ => c_description c = None
     end
  /\ in_price b = Given (c_price c) /\ price_ok (c_price c)
  /\ ((in_stock b = Unset /\ c_stock c = 0%Z) \/ (in_stock b = Given (c_stock c) /\ stock_ok (c_stock c))).
Proof.
  unfold validate_create. rewrite collect4_Ok.
  setoid_rewrite create_name_Ok. setoid_rewrite base_description_Ok.
  setoid_rewrite create_price_Ok. setoid_rewrite create_stock_Ok.
  destruct c as [n d x k]; simpl. split.
  - intros (? & ? & ? & ? & (-> & ?) & Hd & (-> & ?) & Hk & [= <- <- <- <-]).
    destruct (in_description b); naive_solver.
  - intros (-> & ? & Hd & -> & ? & Hk). exists n, d, x, k. naive_solver.
Qed.

(** A valid update body is passed on field for field, [null]s included;
    every given value satisfies its constraint. *)
Lemma validate_update_Ok b u :
  validate_update b = Ok u ->
  u = mkProductUpdate (in_name b) (in_description b) (in_price b) (in_stock b)
  /\ given_ok name_ok (u_name u)
  /\ given_ok (fun s => String.length s <= 255)%nat (u_description u)
  /\ given_ok price_ok (u_price u) /\ given_ok stock_ok (u_stock u).
Proof.
  unfold validate_update, given_ok. rewrite collect4_Ok.
  intros (n & d & x & k & Hn & Hd & Hx & Hk & ->).
  apply optional_field_Ok in Hn, Hd, Hx, Hk. simpl.
  destruct (in_name b), (in_description b), (in_price b), (in_stock b);
    repeat match goal with H : ex _ |- _ => destruct H end; destruct_and?; simplify_eq;
    repeat match goal with
    | H : check_len _ _ _ _ = Ok _ |- _ => apply check_len_Ok in H as [-> ?]
    | H : check_gt0 _ _ = Ok _ |- _ => apply check_gt0_Ok in H as [-> ?]
    | H : check_ge0 _ _ = Ok _ |- _ => apply check_ge0_Ok in H as [-> ?]
    end; unfold name_ok in *; simpl in *; split_and!; intros; simplify_eq; auto; lia.
Qed.

(** A body whose [price] is not [> 0] (zero, negative or NaN) is rejected
    with a [greater_than] error on [price], whatever the other fields. *)
Lemma validate_create_bad_price b x :
  in_price b = Given x -> PrimFloat.ltb 0 x = false ->
  exists e, validate_create b = Err e /\ mkIssue "price" GreaterThan ∈ e.
Proof.
  intros Hb Hx. unfold validate_create. apply collect4_errors.
  rewrite Hb. simpl. unfold check_gt0. rewrite Hx. simpl. set_solver.
Qed.

(** A body whose [name] has fewer than two characters is rejected with a
    [string_too_short] error on [name]. *)
Lemma validate_create_short_name b s :
  in_name b = Given s -> (String.length s < 2)%nat ->
  exists e, validate_create b = Err e /\ mkIssue "name" StringTooShort ∈ e.
Proof.
  intros Hb Hs. unfold validate_create. apply collect4_errors.
  rewrite Hb. simpl. unfold check_len. rewrite bool_decide_true by (simpl; lia).
  simpl. set_solver.
Qed.
