(* ===== verification/Engine.v ===== *)
(** * Engine: the SQLite table behind the session

    This file models the part of SQLAlchemy and SQLite that [crud.py] relies
    on, as far as the program can observe it:
    - the committed table, a [gmap] from rowid to row (the rowid is the
      [INTEGER PRIMARY KEY] [id]);
    - the [sqlite3] driver's binding of Python [int] parameters, which
      raises [OverflowError] outside the signed 64-bit range, and of float
      parameters, where SQLite stores NaN as NULL;
    - rowid allocation for an INSERT without an id: one more than the
      largest rowid, 1 in an empty table. When the largest rowid is already
      [2^63-1] SQLite tries random unused rowids; the model reports that
      case as [RowidExhausted] instead of choosing one;
    - the flush of an ORM instance at [commit]: INSERT (with the column
      defaults of [Models.apply_insert_defaults]) or UPDATE of the row,
      failing with [IntegrityError] when a NOT NULL column would be NULL;
    - a [SELECT ... ORDER BY id LIMIT ? OFFSET ?]: the rows in rowid order,
      filtered, then paged with SQLite's rules (a negative [LIMIT] means no
      limit, a negative [OFFSET] counts as 0).
    Each operation either fails, leaving the table as it was (the session
    is rolled back when it is closed), or returns its result and the new
    table. *)

From S2P Require Import Prelude Models.

(** The committed contents of [products]. *)
Abbreviation Table := (gmap Z Product).

Inductive DbError :=
| IntegrityError (col : Column)   (** NOT NULL constraint failed *)
| UniqueError                     (** an explicit id that is already used *)
| StaleDataError                  (** UPDATE matched no row *)
| OverflowError                   (** Python int too large for SQLite INTEGER *)
| RowidExhausted                  (** no rowid after [2^63-1] (see above) *)
| ObjectDeleted                   (** [refresh] of an instance whose row is gone *)
| OperationalError.               (** no such table or column *)

(** ** Parameters *)

Definition bind_int (z : Z) : result DbError Z :=
  if in_int64 z then Ok z else Err OverflowError.

Definition bind_opt_int (v : option Z) : result DbError (option Z) :=
  match v with
  | Some z => result_map Some (bind_int z)
  | None => Ok None
  end.

(** A REAL parameter: NaN is stored as NULL. *)
Definition real_value (v : option float) : option float :=
  match v with
  | Some x => if PrimFloat.is_nan x then None else Some x
  | None => None
  end.

(** A NOT NULL column. *)
Definition require {A} (c : Column) (v : option A) : result DbError A :=
  match v with
  | Some a => Ok a
  | None => Err (IntegrityError c)
  end.

(** ** Rowids *)

(** The largest rowid of the table, if any. *)
Definition max_rowid (t : Table) : option Z :=
  foldr (fun k acc => Some (match acc with Some m => Z.max k m | None => k end))
    None (map_to_list t).*1.

Definition next_rowid (t : Table) : result DbError Z :=
  match max_rowid t with
  | None => Ok 1%Z
  | Some m => if (m <? INT64_MAX)%Z then Ok (m + 1)%Z else Err RowidExhausted
  end.

(** ** Flush *)

(** The row an instance is written as, once its rowid is known. *)
Definition row_of (k : Z) (stock : option Z) (o : ProductObj) : result DbError Product :=
  let* name := require ColName (obj_name o) in
  let* price := require ColPrice (real_value (obj_price o)) in
  let* stock := require ColStock stock in
  let* created := require ColCreatedAt (obj_created_at o) in
  Ok (mkProduct k name (obj_description o) price stock created).

(** [INSERT INTO products ...] for a pending instance, then the refreshed
    row. *)
Definition insert_row (now : Z) (o : ProductObj) (t : Table) : result DbError (Product * Table) :=
  let o := apply_insert_defaults now o in
  let* stock := bind_opt_int (obj_stock o) in
  let* k := match obj_id o with
            | Some k =>
                let* k := bind_int k in
                if decide (is_Some (t !! k)) then Err UniqueError else Ok k
            | None => next_rowid t
            end in
  let* p := row_of k stock o in
  Ok (p, <[k := p]> t).

(** [UPDATE products SET ... WHERE id = ?] for a persistent instance, then
    the refreshed row. *)
Definition update_row (o : ProductObj) (t : Table) : result DbError (Product * Table) :=
  let* stock := bind_opt_int (obj_stock o) in
  let* k := require ColId (obj_id o) in
  let* k := bind_int k in
  if decide (is_Some (t !! k)) then
    let* p := row_of k stock o in
    Ok (p, <[k := p]> t)
  else Err StaleDataError.

(** [DELETE FROM products WHERE id = ?]. *)
Definition delete_row (k : Z) (t : Table) : Table := delete k t.

(** ** Queries *)

(** [SELECT ... WHERE id = ?] *)
Definition find_row (k : Z) (t : Table) : result DbError (option Product) :=
  let* k := bind_int k in
  Ok (t !! k).

Definition id_le (p q : Product) : Prop := (prod_id p <= prod_id q)%Z.

#[export] Instance id_le_dec : RelDecision id_le.
Proof. intros p q. unfold id_le. apply _. Defined.

(** The rows in [ORDER BY id] order. *)
Definition scan_by_id (t : Table) : list Product :=
  merge_sort id_le (map_to_list t).*2.

(** [LIMIT lim OFFSET off] *)
Definition sql_page {A} (off lim : Z) (l : list A) : list A :=
  let rows := drop (Z.to_nat off) l in
  if (lim <? 0)%Z then rows else take (Z.to_nat lim) rows.

(** [SELECT * FROM products WHERE keep ORDER BY id LIMIT ? OFFSET ?] *)
Definition select_rows (keep : Product -> bool) (off lim : Z) (t : Table)
    : result DbError (list Product) :=
  let* lim := bind_int lim in
  let* off := bind_int off in
  Ok (sql_page off lim (filter (fun p => keep p = true) (scan_by_id t))).

(** ** Lemmas *)

(** Every row is stored under its own id. *)
Definition keys_ok (t : Table) : Prop := map_Forall (fun k p => prod_id p = k) t.

#[export] Instance id_le_trans : Transitive id_le.
Proof. unfold id_le. intros ???; lia. Qed.
#[export] Instance id_le_total : Total id_le.
Proof. unfold id_le. intros ??; lia. Qed.

Lemma elem_of_scan_by_id t p : p ∈ scan_by_id t <-> exists k, t !! k = Some p.
Proof.
  unfold scan_by_id. rewrite (merge_sort_Permutation id_le _).
  rewrite list_elem_of_fmap. split.
  - intros ([k q] & -> & Hkq%elem_of_map_to_list). eauto.
  - intros [k Hk]. exists (k, p). split; [done|]. by apply elem_of_map_to_list.
Qed.

Lemma scan_by_id_ids t : keys_ok t -> prod_id <$> scan_by_id t ≡ₚ (map_to_list t).*1.
Proof.
  intros Hok. unfold scan_by_id. rewrite (merge_sort_Permutation id_le _).
  rewrite <- list_fmap_compose. apply Permutation_refl'.
  apply list_fmap_ext. intros i [k p] Hi%list_elem_of_lookup_2%elem_of_map_to_list.
  simpl. by apply Hok in Hi.
Qed.

(** The scan lists the rows in strictly increasing id order. *)
Lemma scan_by_id_sorted t :
  keys_ok t -> StronglySorted (fun p q => (prod_id p < prod_id q)%Z) (scan_by_id t).
Proof.
  intros Hok. apply StronglySorted_strict.
  - apply (StronglySorted_merge_sort id_le).
  - rewrite scan_by_id_ids by done. apply NoDup_fst_map_to_list.
Qed.

Lemma max_rowid_list_spec (l : list Z) m :
  foldr (fun k acc => Some (match acc with Some m => Z.max k m | None => k end)) None l = Some m ->
  Forall (fun k => (k <= m)%Z) l.
Proof.
  revert m. induction l as [|k l IH]; simpl; intros m Hm; [done|].
  injection Hm as <-. constructor; [destruct (foldr _ _ l); lia|].
  destruct (foldr _ _ l) as [m'|] eqn:E.
  - eapply Forall_impl; [by apply IH|]. simpl. lia.
  - destruct l; [constructor|done].
Qed.

Lemma max_rowid_ge t m k p : max_rowid t = Some m -> t !! k = Some p -> (k <= m)%Z.
Proof.
  intros Hm Hk. apply max_rowid_list_spec in Hm. rewrite Forall_forall in Hm. apply Hm.
  apply list_elem_of_fmap. exists (k, p). split; [done|]. by apply elem_of_map_to_list.
Qed.

Lemma max_rowid_None t : max_rowid t = None -> t = ∅.
Proof.
  unfold max_rowid. destruct (map_to_list t) as [|[k p] l] eqn:E; [|done].
  intros _. by apply map_to_list_empty_iff.
Qed.

Lemma max_rowid_list_elem (l : list Z) m :
  foldr (fun k acc => Some (match acc with Some m => Z.max k m | None => k end)) None l = Some m ->
  m ∈ l.
Proof.
  revert m. induction l as [|k l IH]; simpl; intros m Hm; [done|].
  injection Hm as <-. destruct (foldr _ _ l) as [m'|] eqn:E; [|by left].
  destruct (Z.max_spec k m') as [[_ ->]|[_ ->]]; [right; by apply IH|left].
Qed.

Lemma max_rowid_key t m : max_rowid t = Some m -> exists p, t !! m = Some p.
Proof.
  intros Hm%max_rowid_list_elem. apply list_elem_of_fmap in Hm as ([k p] & -> & Hp).
  apply elem_of_map_to_list in Hp. eauto.
Qed.

(** Every rowid fits the driver's integers. *)
Definition keys_in_range (t : Table) : Prop := map_Forall (fun k _ => in_int64 k = true) t.

(** A rowid from [next_rowid] is above every rowid of the table (so it is
    free) and, when the table's rowids fit 64 bits, so does it. *)
Lemma next_rowid_above t k :
  next_rowid t = Ok k -> forall k' p, t !! k' = Some p -> (k' < k)%Z.
Proof.
  unfold next_rowid. destruct (max_rowid t) as [m|] eqn:Hm.
  - destruct (Z.ltb_spec m INT64_MAX); intros Hk k' p Hp; simplify_eq.
    pose proof (max_rowid_ge t m k' p Hm Hp). lia.
  - intros [= <-] k' p. by rewrite (max_rowid_None t Hm), lookup_empty.
Qed.

Lemma next_rowid_fresh t k : next_rowid t = Ok k -> t !! k = None.
Proof.
  intros Hk. destruct (t !! k) as [p|] eqn:E; [|done].
  pose proof (next_rowid_above t k Hk k p E). lia.
Qed.

Lemma next_rowid_in_range t k :
  keys_in_range t -> next_rowid t = Ok k -> in_int64 k = true.
Proof.
  intros Hr. unfold next_rowid. destruct (max_rowid t) as [m|] eqn:Hm; [|by intros [= <-]].
  destruct (Z.ltb_spec m INT64_MAX); intros; simplify_eq.
  destruct (max_rowid_key t m Hm) as [p Hp]. apply Hr, in_int64_spec in Hp.
  apply in_int64_spec. unfold INT64_MIN, INT64_MAX in *. lia.
Qed.

Lemma next_rowid_pos t k :
  map_Forall (fun k _ => (0 < k)%Z) t -> next_rowid t = Ok k -> (0 < k)%Z.
Proof.
  intros Hpos. unfold next_rowid. destruct (max_rowid t) as [m|] eqn:Hm; [|by intros [= <-]].
  destruct (Z.ltb_spec m INT64_MAX); intros; simplify_eq.
  destruct (max_rowid_key t m Hm) as [p Hp]. apply Hpos in Hp. lia.
Qed.

Lemma bind_int_Ok z z' : bind_int z = Ok z' <-> z' = z /\ in_int64 z = true.
Proof. unfold bind_int. destruct (in_int64 z); naive_solver. Qed.

Lemma bind_int_Err z e : bind_int z = Err e <-> e = OverflowError /\ in_int64 z = false.
Proof. unfold bind_int. destruct (in_int64 z); naive_solver. Qed.

(** [find_row] reads the table for every id the driver can bind, and
    fails with [OverflowError] for every other. *)
Lemma find_row_spec k t :
  find_row k t = if in_int64 k then Ok (t !! k) else Err OverflowError.
Proof. unfold find_row, bind_int. by destruct (in_int64 k). Qed.

(** A page has at most [lim] rows when [lim] is not negative, and is a
    sublist of the rows it is cut from. *)
Lemma sql_page_length {A} off lim (l : list A) :
  (0 <= lim)%Z -> (length (sql_page off lim l) <= Z.to_nat lim)%nat.
Proof.
  intros H. unfold sql_page. destruct (Z.ltb_spec lim 0); [lia|].
  rewrite length_take. lia.
Qed.

Lemma sql_page_sublist {A} off lim (l : list A) : sublist (sql_page off lim l) l.
Proof.
  unfold sql_page. destruct (lim <? 0)%Z.
  - apply sublist_drop.
  - transitivity (drop (Z.to_nat off) l); [apply sublist_take|apply sublist_drop].
Qed.

Lemma row_of_Ok k stock o p :
  row_of k stock o = Ok p <->
  obj_name o = Some (prod_name p) /\ real_value (obj_price o) = Some (prod_price p)
  /\ stock = Some (prod_stock p) /\ obj_created_at o = Some (prod_created_at p)
  /\ prod_id p = k /\ prod_description p = obj_description o.
Proof.
  unfold row_of. destruct p as [pk pn pd pp ps pc]; simpl.
  destruct (obj_name o), (real_value (obj_price o)), stock, (obj_created_at o);
    simpl; naive_solver.
Qed.
