(* ===== verification/Flush.v ===== *)
(** * Flush: the UPDATE SQLAlchemy emits for a dirty instance

    At [commit], SQLAlchemy flushes an instance loaded from the table by
    comparing every attribute with the value it had when it was loaded
    (its committed state, compared with [==]) and emitting
    [UPDATE products SET <changed columns> WHERE id = ?], or no statement
    at all when nothing changed. The [UPDATE] binds its parameters first
    ([OverflowError]), matches no row when the row is gone
    ([StaleDataError], from the rowcount check), and otherwise checks the
    NOT NULL columns it sets ([IntegrityError]). [db.refresh] then reloads
    the row, and fails when the row is gone.

    [Engine.update_row] writes the whole row instead; [commit_update_eq]
    shows the two agree when the instance was loaded from the row the table
    holds (which is the case in a single request), so the column-wise form
    only matters when another request writes the row in between, in
    [Sessions]. [crud.update_product] sets only [name], [description],
    [price] and [stock]; [id] and [created_at] are never dirty. *)

From S2P Require Import Prelude Models Schemas Engine.
From Stdlib Require Import FloatOps FloatAxioms SpecFloat.

(** ** Attribute history *)

Definition opt_eqb {A} (eqb : A -> A -> bool) (x y : option A) : bool :=
  match x, y with
  | Some a, Some b => eqb a b
  | None, None => true
  | _, _ => false
  end.

(** The columns whose attribute differs from its loaded value, in table
    order. *)
Definition changed_cols (old new : ProductObj) : list Column :=
  (if opt_eqb String.eqb (obj_name old) (obj_name new) then [] else [ColName])
  ++ (if opt_eqb String.eqb (obj_description old) (obj_description new) then [] else [ColDescription])
  ++ (if opt_eqb PrimFloat.eqb (obj_price old) (obj_price new) then [] else [ColPrice])
  ++ (if opt_eqb Z.eqb (obj_stock old) (obj_stock new) then [] else [ColStock]).

(** ** The UPDATE statement *)

(** [SET c = ?] for one column, on the row the statement matched; [stock]
    is the bound [stock] parameter. *)
Definition set_col (new : ProductObj) (stock : option Z) (cur : Product) (c : Column)
    : result DbError Product :=
  match c with
  | ColName =>
      let* v := require ColName (obj_name new) in
      Ok (mkProduct (prod_id cur) v (prod_description cur) (prod_price cur) (prod_stock cur)
            (prod_created_at cur))
  | ColDescription =>
      Ok (mkProduct (prod_id cur) (prod_name cur) (obj_description new) (prod_price cur)
            (prod_stock cur) (prod_created_at cur))
  | ColPrice =>
      let* v := require ColPrice (real_value (obj_price new)) in
      Ok (mkProduct (prod_id cur) (prod_name cur) (prod_description cur) v (prod_stock cur)
            (prod_created_at cur))
  | ColStock =>
      let* v := require ColStock stock in
      Ok (mkProduct (prod_id cur) (prod_name cur) (prod_description cur) (prod_price cur) v
            (prod_created_at cur))
  | ColId | ColCreatedAt => Ok cur
  end.

Definition set_cols (cols : list Column) (new : ProductObj) (stock : option Z) (cur : Product)
    : result DbError Product :=
  fold_left (fun acc c => let* p := acc in set_col new stock p c) cols (Ok cur).

(** The flush of the instance with primary key [k], loaded as [old] and
    now holding [new], and its [COMMIT]. *)
Definition flush_update (k : Z) (old new : ProductObj) (t : Table) : result DbError Table :=
  match changed_cols old new with
  | [] => Ok t
  | cols =>
      let* stock := if opt_eqb Z.eqb (obj_stock old) (obj_stock new) then Ok None
                    else bind_opt_int (obj_stock new) in
      let* k := bind_int k in
      match t !! k with
      | None => Err StaleDataError
      | Some cur =>
          let* p := set_cols cols new stock cur in
          Ok (<[k := p]> t)
      end
  end.

(** [db.refresh(product)] *)
Definition refresh_row (k : Z) (t : Table) : result DbError Product :=
  let* r := find_row k t in
  match r with
  | Some p => Ok p
  | None => Err ObjectDeleted
  end.

(** [commit] then [refresh] in one request. *)
Definition commit_update (k : Z) (old new : ProductObj) (t : Table)
    : result DbError (Product * Table) :=
  let* t' := flush_update k old new t in
  let* p := refresh_row k t' in
  Ok (p, t').

(** ** Lemmas *)

(** [==] on a positive float is equality ([0.0 == -0.0] is the only case
    where [==] holds between different floats that are not NaN). *)
Lemma float_eqb_pos x y : PrimFloat.ltb 0 x = true -> PrimFloat.eqb x y = true -> x = y.
Proof.
  rewrite ltb_spec, eqb_spec. intros Hx Hxy. apply Prim2SF_inj.
  replace (Prim2SF 0) with (S754_zero false) in Hx by (vm_compute; reflexivity).
  unfold SFltb, SFeqb in *.
  destruct (Prim2SF x) as [sx|sx| |sx mx ex], (Prim2SF y) as [sy|sy| |sy my ey];
    simpl in *; try discriminate; destruct sx, sy; simpl in *; try discriminate; try done.
  destruct (Z.compare_spec ex ey); try discriminate. subst.
  change (Pos.compare_cont Eq mx my) with (Pos.compare mx my) in Hxy.
  destruct (Pos.compare_spec mx my); try discriminate. by subst.
Qed.

Lemma opt_eqb_eq {A} (eqb : A -> A -> bool) (x y : option A) :
  (forall a b, eqb a b = true -> a = b) -> opt_eqb eqb x y = true -> x = y.
Proof. intros H. destruct x, y; simpl; try done. by intros ->%H. Qed.

Lemma refresh_row_spec k t :
  in_int64 k = true -> refresh_row k t = match t !! k with Some p => Ok p | None => Err ObjectDeleted end.
Proof. intros Hk. unfold refresh_row. rewrite find_row_spec, Hk. simpl. by destruct (t !! k). Qed.

Lemma opt_eqb_price x y : price_ok x -> opt_eqb PrimFloat.eqb (Some x) y = true -> y = Some x.
Proof. intros Hx. destruct y as [y|]; simpl; [|done]. by intros <-%(float_eqb_pos _ _ Hx). Qed.

(** An unchanged attribute holds its loaded value. *)
Ltac unchanged :=
  repeat match goal with
  | H : opt_eqb String.eqb _ _ = true |- _ => apply opt_eqb_eq in H; [|apply String.eqb_eq]
  | H : opt_eqb Z.eqb _ _ = true |- _ => apply opt_eqb_eq in H; [|apply Z.eqb_eq]
  | H : opt_eqb PrimFloat.eqb (Some ?x) _ = true, Hx : price_ok ?x |- _ =>
      apply (opt_eqb_price _ _ Hx) in H
  end.

(** The column-wise flush and refresh of an instance loaded from the row
    the table holds do what writing the whole row does. *)
Lemma commit_update_eq k cur o t :
  t !! k = Some cur -> prod_id cur = k -> in_int64 k = true ->
  in_int64 (prod_stock cur) = true -> price_ok (prod_price cur) ->
  obj_id o = Some k -> obj_created_at o = Some (prod_created_at cur) ->
  commit_update k (to_obj cur) o t = update_row o t.
Proof.
  intros Hk Hid Hin Hst Hx Hoid Hoc.
  destruct cur as [ci cn cd cx cs cc], o as [oi on od ox os oc]; simpl in *; subst.
  pose proof (price_ok_not_nan _ Hx) as Hnan.
  unfold commit_update, flush_update, changed_cols, update_row, to_obj.
  cbn [obj_id obj_name obj_description obj_price obj_stock obj_created_at
       prod_id prod_name prod_description prod_price prod_stock prod_created_at].
  destruct (opt_eqb String.eqb (Some cn) on) eqn:En, (opt_eqb String.eqb cd od) eqn:Ed,
    (opt_eqb PrimFloat.eqb (Some cx) ox) eqn:Ex, (opt_eqb Z.eqb (Some cs) os) eqn:Es;
    unchanged; subst; simpl.
  all: unfold bind_opt_int, bind_int, row_of, require, real_value, set_cols, set_col; simpl.
  all: rewrite ?Hin, ?Hst, ?Hnan; simpl; rewrite ?refresh_row_spec by done; rewrite ?Hk; simpl.
  all: repeat (case_match; simpl; simplify_eq);
    rewrite ?refresh_row_spec, ?lookup_insert_eq by done; simpl; try done.
  by rewrite insert_id.
Qed.

(** A successful flush of a row the table holds leaves a row under its key,
    so the [refresh] that follows in the same request finds it. *)
Lemma flush_update_keeps_row k old new t t' cur :
  t !! k = Some cur -> flush_update k old new t = Ok t' -> is_Some (t' !! k).
Proof.
  intros Hk. unfold flush_update. destruct (changed_cols old new); [by intros [= <-]|].
  intros H. simpl_result. apply bind_int_Ok in Ha0 as [-> _].
  rewrite Hk in H. simpl_result. by rewrite lookup_insert_eq.
Qed.
