(* ===== verification/Crud.v ===== *)
(** * Crud: the five functions of [crud.py]

    Each function takes the committed table (what the request's session
    sees) and returns a [result]: a driver or engine error, or the value the
    Python function returns together with the table after its [commit].
    - [get_product]: [db.query(Product).filter(Product.id == id).first()];
    - [get_products]: the optional [ilike] filter (applied only when [name]
      is truthy), [order_by(Product.id)], [offset(skip)], [limit(limit)];
    - [create_product]: [Product( **payload.model_dump())], [add], [commit],
      [refresh];
    - [update_product]: [setattr] for every key of
      [model_dump(exclude_unset=True)] on the loaded instance, [commit],
      [refresh];
    - [delete_product]: [delete], [commit]. *)

From S2P Require Import Prelude Text Like Models Schemas Engine.

(** The functions of [crud.py], under the module's own name: [main.py]
    calls them as [crud.get_product], ..., and its endpoints have the same
    names. *)
Module Crud.

(** ** Reading *)

(** crud.py, lines 13-16. *)
Definition get_product (db : Table) (product_id : Z) : result DbError (option Product) :=
  find_row product_id db.

(** The [WHERE] clause of [get_products]: [if name:] filters by
    [Product.name.ilike(f"%{name}%")]; [None] and [""] keep every row. *)
Definition name_filter (name : option string) (p : Product) : bool :=
  match name with
  | Some n => if str_truthy n then ilike (prod_name p) (name_pattern n) else true
  | None => true
  end.

(** crud.py, lines 19-31. *)
Definition get_products (db : Table) (skip limit : Z) (name : option string)
    : result DbError (list Product) :=
  select_rows (name_filter name) skip limit db.

(** ** Writing *)

(** [Product( **payload.model_dump())]: a pending instance with no [id]
    and no [created_at]. *)
Definition product_of_create (payload : ProductCreate) : ProductObj :=
  {| obj_id := None;
     obj_name := Some (c_name payload);
     obj_description := c_description payload;
     obj_price := Some (c_price payload);
     obj_stock := Some (c_stock payload);
     obj_created_at := None |}.

(** crud.py, lines 34-41; [now] is the clock read by [datetime.utcnow]. *)
Definition create_product (now : Z) (db : Table) (payload : ProductCreate)
    : result DbError (Product * Table) :=
  insert_row now (product_of_create payload) db.

(** [setattr(product, key, value)] *)
Definition setattr (o : ProductObj) (s : Setting) : ProductObj :=
  match s with
  | SetName v =>
      {| obj_id := obj_id o; obj_name := v; obj_description := obj_description o;
         obj_price := obj_price o; obj_stock := obj_stock o; obj_created_at := obj_created_at o |}
  | SetDescription v =>
      {| obj_id := obj_id o; obj_name := obj_name o; obj_description := v;
         obj_price := obj_price o; obj_stock := obj_stock o; obj_created_at := obj_created_at o |}
  | SetPrice v =>
      {| obj_id := obj_id o; obj_name := obj_name o; obj_description := obj_description o;
         obj_price := v; obj_stock := obj_stock o; obj_created_at := obj_created_at o |}
  | SetStock v =>
      {| obj_id := obj_id o; obj_name := obj_name o; obj_description := obj_description o;
         obj_price := obj_price o; obj_stock := v; obj_created_at := obj_created_at o |}
  end.

(** crud.py, lines 44-52. *)
Definition update_product (db : Table) (product : Product) (payload : ProductUpdate)
    : result DbError (Product * Table) :=
  let data := dump_exclude_unset payload in
  let o := fold_left setattr data (to_obj product) in
  update_row o db.

(** crud.py, lines 55-59. *)
Definition delete_product (db : Table) (product : Product) : Table :=
  delete_row (prod_id product) db.

End Crud.
Import Crud.

(** ** The reference merge of a partial update *)

(** What an attribute becomes after the [setattr] loop: unchanged when the
    key was not sent, [None] for [null], the value otherwise. *)
Definition field_opt {A} (f : Field A) (old : option A) : option A :=
  match f with
  | Unset => old
  | Null => None
  | Given a => Some a
  end.

Definition keep {A} (f : Field A) (old : A) : A :=
  match f with Given a => a | _ => old end.

(** The spec's partial update: every field present in the patch
    overwrites the stored one, [id] and [created_at] never change. *)
Definition patch (p : Product) (u : ProductUpdate) : Product :=
  mkProduct (prod_id p) (keep (u_name u) (prod_name p))
    (field_opt (u_description u) (prod_description p))
    (keep (u_price u) (prod_price p)) (keep (u_stock u) (prod_stock p))
    (prod_created_at p).

(** No [null] for a NOT NULL column. *)
Definition no_null (u : ProductUpdate) : Prop :=
  u_name u <> Null /\ u_price u <> Null /\ u_stock u <> Null.

(** A stored row the driver can bind back: its integers fit 64 bits and its
    price is a number. *)
Definition row_fits (p : Product) : Prop :=
  in_int64 (prod_id p) = true /\ in_int64 (prod_stock p) = true
  /\ PrimFloat.is_nan (prod_price p) = false.

(** ** Lemmas *)

Lemma setattr_loop p u :
  fold_left setattr (dump_exclude_unset u) (to_obj p) =
  {| obj_id := Some (prod_id p);
     obj_name := field_opt (u_name u) (Some (prod_name p));
     obj_description := field_opt (u_description u) (prod_description p);
     obj_price := field_opt (u_price u) (Some (prod_price p));
     obj_stock := field_opt (u_stock u) (Some (prod_stock p));
     obj_created_at := Some (prod_created_at p) |}.
Proof. destruct u as [[] [] [] []]; reflexivity. Qed.

Lemma select_rows_Ok keep off lim t l :
  select_rows keep off lim t = Ok l ->
  in_int64 off = true /\ in_int64 lim = true /\
  l = sql_page off lim (filter (fun p => keep p = true) (scan_by_id t)).
Proof.
  unfold select_rows. intros H. simpl_result.
  apply bind_int_Ok in Ha as [-> ?], Ha0 as [-> ?]. auto.
Qed.

Lemma get_products_sublist db skip limit name l :
  get_products db skip limit name = Ok l ->
  sublist l (filter (fun p => name_filter name p = true) (scan_by_id db)).
Proof. intros (_ & _ & ->)%select_rows_Ok. apply sql_page_sublist. Qed.

Lemma keep_Given {A} (f : Field A) old : f <> Null -> field_opt f (Some old) = Some (keep f old).
Proof. by destruct f. Qed.

Lemma keep_prop {A} (P : A -> Prop) (f : Field A) old :
  given_ok P f -> P old -> P (keep f old).
Proof. unfold given_ok. destruct f; simpl; auto. Qed.

(** What a successful [create_product] did. *)
Lemma create_product_Ok_inv now db c p db' :
  create_product now db c = Ok (p, db') ->
  exists k, next_rowid db = Ok k /\ in_int64 (c_stock c) = true
  /\ p = mkProduct k (c_name c) (c_description c) (c_price c) (c_stock c) now
  /\ db' = <[k := p]> db.
Proof.
  unfold create_product, insert_row. simpl. unfold bind_int.
  destruct (in_int64 (c_stock c)) eqn:Hs; simpl; [|done].
  destruct (next_rowid db) as [k|] eqn:Hk; simpl; [|done].
  unfold row_of. simpl. destruct (PrimFloat.is_nan (c_price c)); simpl; [done|].
  intros [= <- <-]. eauto 10.
Qed.

(** What a successful [update_product] did: no NOT NULL column was set to
    [null], the row written is the [patch] and its [stock] fits 64 bits. *)
Lemma update_product_Ok_inv db p u p' db' :
  update_product db p u = Ok (p', db') ->
  no_null u /\ p' = patch p u /\ db' = <[prod_id p := p']> db
  /\ in_int64 (prod_stock p') = true.
Proof.
  unfold update_product. rewrite setattr_loop. unfold update_row. simpl.
  destruct u as [n d x k]; unfold no_null, patch; simpl.
  unfold row_of, require, real_value, bind_opt_int, bind_int.
  destruct n as [| |n], x as [| |x], k as [| |k]; simpl;
    repeat (case_match; simpl); intros; simplify_eq; split_and!; simpl; try done.
Qed.

(** ** Theorems *)

(** C2. [get_products] returns its rows in strictly increasing [id]
    order (the [order_by(Product.id)] of the query), on every table whose
    rows are stored under their own id. *)
Theorem get_products_sorted db skip limit name l :
  keys_ok db -> get_products db skip limit name = Ok l ->
  StronglySorted (fun p q => (prod_id p < prod_id q)%Z) l.
Proof.
  intros Hok Hl%get_products_sublist.
  eapply StronglySorted_sublist; [exact Hl|].
  apply StronglySorted_filter, scan_by_id_sorted, Hok.
Qed.

(** C3. A page of [get_products] has at most [limit] rows. *)
Theorem get_products_length db skip limit name l :
  (0 <= limit)%Z -> get_products db skip limit name = Ok l ->
  (length l <= Z.to_nat limit)%nat.
Proof. intros Hlim (_ & _ & ->)%select_rows_Ok. by apply sql_page_length. Qed.

(** Every row [get_products] returns is a stored row that passes the
    name filter. *)
Theorem get_products_sound db skip limit name l p :
  get_products db skip limit name = Ok l -> p ∈ l ->
  (exists k, db !! k = Some p) /\ name_filter name p = true.
Proof.
  intros Hl%get_products_sublist Hp.
  eapply elem_of_sublist in Hp; [|exact Hl].
  apply list_elem_of_filter in Hp as [Hf Hp]. split; [|done].
  by apply elem_of_scan_by_id.
Qed.

(** [create_product] on a validated payload, when a rowid is available. *)
Lemma create_product_eq now db c k :
  next_rowid db = Ok k -> in_int64 (c_stock c) = true -> price_ok (c_price c) ->
  create_product now db c
  = Ok (mkProduct k (c_name c) (c_description c) (c_price c) (c_stock c) now,
        <[k := mkProduct k (c_name c) (c_description c) (c_price c) (c_stock c) now]> db).
Proof.
  intros Hk Hs Hx. unfold create_product, insert_row. simpl.
  unfold bind_int. rewrite Hs. simpl. rewrite Hk. simpl.
  unfold row_of. simpl. by rewrite (price_ok_not_nan _ Hx).
Qed.

(** C4. [create_product] with a validated payload stores exactly one new
    row: its [id] is the next rowid, above every stored id (so no row is
    overwritten), its fields are the payload's and [created_at] is the
    clock reading; the function returns that row. *)
Theorem create_product_fresh now db c k :
  next_rowid db = Ok k -> in_int64 (c_stock c) = true -> price_ok (c_price c) ->
  let p := mkProduct k (c_name c) (c_description c) (c_price c) (c_stock c) now in
  create_product now db c = Ok (p, <[k := p]> db)
  /\ db !! k = None /\ (forall k' q, db !! k' = Some q -> (k' < k)%Z).
Proof.
  intros Hk Hs Hx p. split_and!.
  - by apply create_product_eq.
  - by apply next_rowid_fresh.
  - by apply next_rowid_above.
Qed.

(** [update_product] on a stored, bindable row with a payload that
    sends no [null] for a NOT NULL column and only bindable values. *)
Lemma update_product_eq db p u :
  db !! prod_id p = Some p -> row_fits p -> no_null u ->
  given_ok price_ok (u_price u) -> given_ok (fun n => in_int64 n = true) (u_stock u) ->
  update_product db p u = Ok (patch p u, <[prod_id p := patch p u]> db).
Proof.
  intros Hp (Hid & Hst & Hnan) (Hn & Hpr & Hs) Hgp Hgs.
  unfold update_product. rewrite setattr_loop. unfold update_row. simpl.
  rewrite !keep_Given by done. simpl.
  unfold bind_int. rewrite (keep_prop _ _ _ Hgs Hst), Hid. simpl.
  rewrite decide_True by (rewrite Hp; eauto). unfold row_of. simpl.
  assert (PrimFloat.is_nan (keep (u_price u) (prod_price p)) = false) as ->.
  { destruct (u_price u) eqn:E; simpl; auto. by apply price_ok_not_nan, Hgp. }
  reflexivity.
Qed.

(** C5. The partial-update law: [update_product] with a payload that sets
    no NOT NULL column to [null] writes back the stored row with exactly
    the sent fields replaced ([patch]); [id], [created_at] and every field
    that was not sent are unchanged. *)
Theorem update_product_patch db p u :
  db !! prod_id p = Some p -> row_fits p -> no_null u ->
  given_ok price_ok (u_price u) -> given_ok (fun n => in_int64 n = true) (u_stock u) ->
  update_product db p u = Ok (patch p u, <[prod_id p := patch p u]> db).
Proof. apply update_product_eq. Qed.

Lemma bind_opt_int_stock p (k : Field Z) :
  in_int64 (prod_stock p) = true -> given_ok (fun n => in_int64 n = true) k ->
  bind_opt_int (field_opt k (Some (prod_stock p))) = Ok (field_opt k (Some (prod_stock p))).
Proof.
  unfold given_ok, bind_opt_int, bind_int. intros Hst Hk.
  destruct k as [| |z]; simpl; rewrite ?Hst; try done. by rewrite (Hk z).
Qed.

(** C6. An update that sends [null] for [name], [price] or [stock] passes
    [ProductUpdate] validation (the fields are [Optional]) but makes the
    commit fail on a NOT NULL column: [update_product] raises
    [IntegrityError], where the spec promises a 4xx validation error. *)
Theorem update_product_null db p u :
  db !! prod_id p = Some p -> row_fits p ->
  given_ok (fun n => in_int64 n = true) (u_stock u) ->
  (u_name u = Null \/ u_price u = Null \/ u_stock u = Null) ->
  exists c, nullable c = false /\ update_product db p u = Err (IntegrityError c).
Proof.
  intros Hp (Hid & Hst & Hnan) Hgs Hnull.
  unfold update_product. rewrite setattr_loop. unfold update_row. simpl.
  rewrite (bind_opt_int_stock p _ Hst Hgs). simpl.
  unfold bind_int. rewrite Hid. simpl. rewrite decide_True by (rewrite Hp; eauto).
  unfold row_of. simpl.
  destruct u as [n d x k]; simpl in *.
  destruct n as [| |n], x as [| |x], k; simpl; rewrite ?Hnan; simpl;
    try destruct (PrimFloat.is_nan x); simpl;
    first [ exists ColName; done | exists ColPrice; done | exists ColStock; done
          | destruct Hnull as [?|[?|?]]; discriminate ].
Qed.

(** C7. The [stock] of a new row is bound as a 64-bit integer: a validated
    payload whose [stock] exceeds [2^63-1] (Pydantic's [int] has no upper
    bound) makes [create_product] raise [OverflowError]. *)
Theorem create_product_overflow now db c :
  in_int64 (c_stock c) = false -> create_product now db c = Err OverflowError.
Proof.
  intros Hs. unfold create_product, insert_row. simpl. unfold bind_int. by rewrite Hs.
Qed.

(** C8. After [delete_product], looking the product up again finds
    nothing, and every other id finds what it found before. *)
Theorem delete_product_gone db p k :
  in_int64 (prod_id p) = true ->
  get_product (delete_product db p) (prod_id p) = Ok None
  /\ (k <> prod_id p -> get_product (delete_product db p) k = get_product db k).
Proof.
  intros Hid. unfold get_product, delete_product, delete_row. rewrite !find_row_spec.
  rewrite Hid, lookup_delete_eq. split; [done|].
  intros Hk. destruct (in_int64 k); [|done]. by rewrite lookup_delete_ne.
Qed.

(** ** Witnesses on a two-row table *)

Definition ex_p1 : Product := mkProduct 1 "Paracetamol 500mg" None 2.5%float 10 0.
Definition ex_p2 : Product :=
  mkProduct 2 "Ibuprofeno 400mg" (Some "Antiinflamatorio") 3.75%float 5 0.
Definition ex_db : Table := <[2%Z := ex_p2]> (<[1%Z := ex_p1]> ∅).

Lemma ex_db_keys_ok : keys_ok ex_db.
Proof.
  unfold keys_ok, ex_db.
  repeat apply map_Forall_insert_2; try reflexivity. apply map_Forall_empty.
Qed.

Lemma get_products_sorted_witness :
  keys_ok ex_db /\ get_products ex_db 0 3 None = Ok [ex_p1; ex_p2]
  /\ StronglySorted (fun p q => (prod_id p < prod_id q)%Z) [ex_p1; ex_p2].
Proof.
  split; [exact ex_db_keys_ok|]. split; [vm_compute; reflexivity|].
  apply (get_products_sorted ex_db 0 3 None); [exact ex_db_keys_ok|vm_compute; reflexivity].
Defined.

Lemma get_products_length_witness :
  get_products ex_db 0 1 None = Ok [ex_p1] /\ (length [ex_p1] <= Z.to_nat 1)%nat.
Proof.
  split; [vm_compute; reflexivity|].
  apply (get_products_length ex_db 0 1 None); [lia|vm_compute; reflexivity].
Defined.

Lemma get_products_sound_witness :
  get_products ex_db 0 3 (Some "para") = Ok [ex_p1] /\
  (exists k, ex_db !! k = Some ex_p1) /\ name_filter (Some "para") ex_p1 = true.
Proof.
  split; [vm_compute; reflexivity|].
  apply (get_products_sound ex_db 0 3 (Some "para") [ex_p1] ex_p1);
    [vm_compute; reflexivity|by left].
Defined.

Lemma create_product_fresh_witness :
  let c := mkProductCreate "Ketorolaco 10mg" (Some "Analgesico") 5.25%float 33 in
  next_rowid ex_db = Ok 3%Z /\ ex_db !! 3%Z = None.
Proof.
  intros c. assert (next_rowid ex_db = Ok 3%Z) as Hk by (vm_compute; reflexivity).
  split; [exact Hk|].
  apply (create_product_fresh 100 ex_db c 3 Hk); reflexivity.
Defined.

Lemma update_product_patch_witness :
  let u := mkProductUpdate Unset Unset (Given 6%float) (Given 40%Z) in
  update_product ex_db ex_p1 u = Ok (patch ex_p1 u, <[1%Z := patch ex_p1 u]> ex_db)
  /\ prod_price (patch ex_p1 u) = 6%float /\ prod_name (patch ex_p1 u) = prod_name ex_p1.
Proof.
  intros u. split; [|split; reflexivity].
  apply (update_product_patch ex_db ex_p1 u).
  - reflexivity.
  - split_and!; reflexivity.
  - split_and!; discriminate.
  - intros a [= <-]. reflexivity.
  - intros a [= <-]. reflexivity.
Defined.

Lemma update_product_null_witness :
  let u := mkProductUpdate Unset Unset Null (Given 40%Z) in
  update_product ex_db ex_p1 u = Err (IntegrityError ColPrice).
Proof.
  intros u.
  destruct (update_product_null ex_db ex_p1 u) as (c & Hc & Hu).
  - reflexivity.
  - split_and!; reflexivity.
  - intros a [= <-]. reflexivity.
  - right; left; reflexivity.
  - rewrite Hu. destruct c; simpl in *; try discriminate; vm_compute in Hu; congruence.
Defined.

Lemma create_product_overflow_witness :
  create_product 0 ex_db (mkProductCreate "Algodon" None 1%float (2 ^ 63)) = Err OverflowError.
Proof. apply create_product_overflow. reflexivity. Defined.

Lemma delete_product_gone_witness :
  get_product (delete_product ex_db ex_p1) 1 = Ok None
  /\ get_product (delete_product ex_db ex_p1) 2 = Ok (Some ex_p2).
Proof.
  destruct (delete_product_gone ex_db ex_p1 2) as [H1 H2]; [reflexivity|].
  split; [exact H1|]. rewrite H2 by discriminate. reflexivity.
Defined.
