(* ===== verification/Api.v ===== *)
(** * Api: the endpoints of [main.py]

    A request is one of the five routes, with its path parameter, query
    parameters and JSON body already decoded to typed values. [handle]
    runs it the way FastAPI does: it validates every parameter and the
    body first (422), then runs the endpoint function, which calls [crud]
    (an engine error is a 500, and the session's uncommitted work is rolled
    back), and finally validates the returned rows against [ProductRead]
    (a failure is a 500 too, after the commit). It returns the response
    and the committed table.

    The theorems: every handler preserves the table invariant [table_ok];
    in every state reachable from a valid seed the read endpoints never
    fail; and the endpoint-level behaviours of the spec, with the places
    where the code departs from it. *)

From S2P Require Import Prelude Text Like Models Schemas Engine Crud.

(** ** Requests and responses *)

Inductive Request :=
| ListProducts (skip : option Z) (limit : option Z) (name : option string)
| GetProduct (product_id : Z)
| CreateProduct (body : ProductIn)
| UpdateProduct (product_id : Z) (body : ProductIn)
| DeleteProduct (product_id : Z).

Inductive Body :=
| BProduct (p : Product)
| BProducts (l : list Product)
| BEmpty
| BDetail (msg : string)
| BIssues (errs : list Issue)
| BServerError.

Record Response := mkResponse { status : Z; body : Body }.

Definition not_found : Response := mkResponse 404 (BDetail "Producto no encontrado").
Definition server_error : Response := mkResponse 500 BServerError.
Definition unprocessable (errs : list Issue) : Response := mkResponse 422 (BIssues errs).

(** ** Parameters of [GET /products] *)

(** [skip: int = Query(0, ge=0)] *)
Definition query_skip (v : option Z) : checked Z :=
  match v with
  | None => Ok 0%Z
  | Some n => if (0 <=? n)%Z then Ok n else issue "skip" GreaterThanEqual
  end.

(** [limit: int = Query(3, ge=1, le=100)] *)
Definition query_limit (v : option Z) : checked Z :=
  match v with
  | None => Ok 3%Z
  | Some n =>
      if (n <? 1)%Z then issue "limit" GreaterThanEqual
      else if (100 <? n)%Z then issue "limit" LessThanEqual
      else Ok n
  end.

(** [name: Optional[str] = Query(None, min_length=1)] *)
Definition query_name (v : option string) : checked (option string) :=
  match v with
  | None => Ok None
  | Some s => result_map Some (check_len "name" (Some 1%nat) (String.length s) s)
  end.

Definition validate_list_query (skip limit : option Z) (name : option string)
    : checked (Z * Z * option string) :=
  collect3 (fun s l n => (s, l, n)) (query_skip skip) (query_limit limit) (query_name name).

(** ** Response validation *)

(** [response_model=ProductRead] *)
Definition respond (code : Z) (p : Product) : Response :=
  if validate_read p then mkResponse code (BProduct p) else server_error.

(** [response_model=List[ProductRead]] *)
Definition respond_list (l : list Product) : Response :=
  if forallb validate_read l then mkResponse 200 (BProducts l) else server_error.

(** ** What the endpoints use of [crud]

    [main.py] reaches the database only through the five functions of
    [crud]; [Persistence] is that interface, over a store [S]. The
    endpoints below are written against it, and [crud_persistence] is the
    implementation the program runs: [crud.py] over the SQLite table.
    [Contract] states the laws the spec (section 4.1) asks of it. *)
Class Persistence (S : Type) := {
  p_get : S -> Z -> result DbError (option Product);
  p_list : S -> Z -> Z -> option string -> result DbError (list Product);
  p_create : Z -> S -> ProductCreate -> result DbError (Product * S);
  p_update : S -> Product -> ProductUpdate -> result DbError (Product * S);
  p_delete : S -> Product -> S
}.

#[export] Instance crud_persistence : Persistence Table := {|
  p_get := Crud.get_product;
  p_list := Crud.get_products;
  p_create := Crud.create_product;
  p_update := Crud.update_product;
  p_delete := Crud.delete_product
|}.

(** The interface at the program's instance is [crud] itself. *)
Ltac crud_ops := cbn [p_get p_list p_create p_update p_delete crud_persistence] in *.

(** ** Endpoints *)

(** The handlers of [main.py], under the module's name (they share their
    names with the [crud] functions they call). *)
Module Main.
Section Endpoints.
Context {S : Type} `{!Persistence S}.

(** main.py, lines 30-39. *)
Definition list_products (db : S) (skip limit : option Z) (name : option string)
    : Response * S :=
  match validate_list_query skip limit name with
  | Err errs => (unprocessable errs, db)
  | Ok (s, l, n) =>
      match p_list db s l n with
      | Err _ => (server_error, db)
      | Ok rows => (respond_list rows, db)
      end
  end.

(** main.py, lines 42-49. *)
Definition get_product (db : S) (product_id : Z) : Response * S :=
  match p_get db product_id with
  | Err _ => (server_error, db)
  | Ok None => (not_found, db)
  | Ok (Some p) => (respond 200 p, db)
  end.

(** main.py, lines 52-56. *)
Definition create_product (now : Z) (db : S) (body : ProductIn) : Response * S :=
  match validate_create body with
  | Err errs => (unprocessable errs, db)
  | Ok payload =>
      match p_create now db payload with
      | Err _ => (server_error, db)
      | Ok (p, db') => (respond 201 p, db')
      end
  end.

(** main.py, lines 59-70: the body is validated before the function runs. *)
Definition update_product (db : S) (product_id : Z) (body : ProductIn) : Response * S :=
  match validate_update body with
  | Err errs => (unprocessable errs, db)
  | Ok payload =>
      match p_get db product_id with
      | Err _ => (server_error, db)
      | Ok None => (not_found, db)
      | Ok (Some p) =>
          match p_update db p payload with
          | Err _ => (server_error, db)
          | Ok (p', db') => (respond 200 p', db')
          end
      end
  end.

(** main.py, lines 73-81. *)
Definition delete_product (db : S) (product_id : Z) : Response * S :=
  match p_get db product_id with
  | Err _ => (server_error, db)
  | Ok None => (not_found, db)
  | Ok (Some p) => (mkResponse 204 BEmpty, p_delete db p)
  end.

(** The routing of [app]; [now] is the clock reading of the request. *)
Definition handle (now : Z) (req : Request) (db : S) : Response * S :=
  match req with
  | ListProducts skip limit name => list_products db skip limit name
  | GetProduct k => get_product db k
  | CreateProduct b => create_product now db b
  | UpdateProduct k b => update_product db k b
  | DeleteProduct k => delete_product db k
  end.
End Endpoints.
End Main.
Export Main.

(** ** The table invariant *)

(** A row as the API leaves it: stored under its own id, which fits 64
    bits and is positive; it passes [ProductRead]; its stock fits 64 bits. *)
Definition row_ok (k : Z) (p : Product) : Prop :=
  prod_id p = k /\ in_int64 k = true /\ (0 < k)%Z /\ read_ok p
  /\ in_int64 (prod_stock p) = true.

Definition table_ok (db : Table) : Prop := map_Forall row_ok db.

(** [table_ok] of a table written out row by row. *)
Ltac solve_table_ok :=
  unfold table_ok; repeat apply map_Forall_insert_2; [..|apply map_Forall_empty];
  unfold row_ok, read_ok, name_ok, description_ok, price_ok, stock_ok; simpl;
  split_and!; try reflexivity; lia.

Lemma table_ok_keys db : table_ok db -> keys_ok db.
Proof. intros H. eapply map_Forall_impl; [exact H|]. by intros k p [? _]. Qed.

Lemma table_ok_range db : table_ok db -> keys_in_range db.
Proof. intros H. eapply map_Forall_impl; [exact H|]. by intros k p (_ & ? & _). Qed.

Lemma table_ok_pos db : table_ok db -> map_Forall (fun k _ => (0 < k)%Z) db.
Proof. intros H. eapply map_Forall_impl; [exact H|]. by intros k p (_ & _ & ? & _). Qed.

(** The next rowid of a valid table is a positive 64-bit id. *)
Lemma table_ok_next_rowid db k : table_ok db -> next_rowid db = Ok k -> in_int64 k = true /\ (0 < k)%Z.
Proof.
  intros Hok Hk. split; [eapply next_rowid_in_range; [apply table_ok_range|]|eapply next_rowid_pos; [apply table_ok_pos|]];
    eauto.
Qed.

Lemma table_ok_lookup db k p :
  table_ok db -> db !! k = Some p -> prod_id p = k /\ row_fits p /\ read_ok p.
Proof.
  intros Hok Hp. destruct (Hok k p Hp) as (<- & Hk & _ & Hr & Hs).
  pose proof Hr as (_ & _ & Hx & _).
  unfold row_fits. split_and!; auto. by apply price_ok_not_nan.
Qed.

Lemma crud_get_product_Some db k p :
  Crud.get_product db k = Ok (Some p) -> db !! k = Some p /\ in_int64 k = true.
Proof.
  unfold Crud.get_product. rewrite find_row_spec.
  destruct (in_int64 k); [intros [= ->]; auto|done].
Qed.

Lemma respond_ok code p : read_ok p -> respond code p = mkResponse code (BProduct p).
Proof.
  intros Hr. unfold respond. destruct (validate_read p) eqn:Hv; [done|].
  unfold validate_read in Hv. by rewrite bool_decide_eq_true_2 in Hv.
Qed.

Lemma respond_list_ok l : Forall read_ok l -> respond_list l = mkResponse 200 (BProducts l).
Proof.
  intros Hl. unfold respond_list.
  replace (forallb validate_read l) with true; [done|].
  symmetry. apply forallb_forall. intros p Hp%list_elem_of_In.
  rewrite Forall_forall in Hl. unfold validate_read. by apply bool_decide_eq_true_2, Hl.
Qed.

Lemma patch_read_ok p u :
  read_ok p -> no_null u ->
  given_ok name_ok (u_name u) -> given_ok (fun s => String.length s <= 255)%nat (u_description u) ->
  given_ok price_ok (u_price u) -> given_ok stock_ok (u_stock u) ->
  read_ok (patch p u).
Proof.
  intros (Hn & Hd & Hx & Hs) _ Hgn Hgd Hgx Hgs. unfold patch, read_ok; simpl.
  split_and!; try by apply keep_prop.
  unfold given_ok in Hgd. destruct (u_description u); simpl; auto.
Qed.

(** The row [create_product] writes for a validated body passes
    [ProductRead]. *)
Lemma create_read_ok b c k now :
  validate_create b = Ok c ->
  read_ok (mkProduct k (c_name c) (c_description c) (c_price c) (c_stock c) now).
Proof.
  intros (_ & Hn & Hd & _ & Hx & Hst)%validate_create_Ok.
  unfold read_ok; simpl. split_and!; [done| |done|].
  - destruct (in_description b); [by rewrite Hd|by rewrite Hd|]. by destruct Hd as [-> ?].
  - destruct Hst as [[_ ->]|[_ ?]]; [unfold stock_ok; lia|done].
Qed.

(** A successful [crud.create_product] of a validated payload keeps the
    invariant. *)
Lemma crud_create_table_ok now db b c p db' :
  table_ok db -> validate_create b = Ok c -> Crud.create_product now db c = Ok (p, db') ->
  table_ok db'.
Proof.
  intros Hok Hv Hc. apply create_product_Ok_inv in Hc as (k & Hk & Hs & -> & ->).
  apply map_Forall_insert_2; [|done].
  split_and!; simpl; try done.
  - by apply (table_ok_next_rowid db k Hok Hk).
  - by apply (table_ok_next_rowid db k Hok Hk).
  - by eapply create_read_ok.
Qed.

(** Each endpoint keeps the invariant. *)
Lemma create_table_ok now db b : table_ok db -> table_ok (create_product now db b).2.
Proof.
  intros Hok. unfold create_product. crud_ops.
  destruct (validate_create b) as [c|] eqn:Hv; [|done].
  destruct (Crud.create_product now db c) as [[p db']|] eqn:Hc; [|done].
  by eapply crud_create_table_ok.
Qed.

(** A successful [crud.update_product] of a stored row with a validated
    payload keeps the invariant. *)
Lemma crud_update_table_ok db p b u p' db' :
  table_ok db -> db !! prod_id p = Some p -> validate_update b = Ok u ->
  Crud.update_product db p u = Ok (p', db') -> table_ok db'.
Proof.
  intros Hok Hp Hv Hu.
  destruct (table_ok_lookup db _ p Hok Hp) as (_ & _ & Hr).
  apply update_product_Ok_inv in Hu as (Hnn & -> & -> & Hs).
  apply validate_update_Ok in Hv as (_ & Hgn & Hgd & Hgx & Hgs).
  apply map_Forall_insert_2; [|done].
  destruct (Hok _ p Hp) as (_ & Hk & Hpos & _).
  split_and!; simpl; try done. by apply patch_read_ok.
Qed.

Lemma update_table_ok db k b : table_ok db -> table_ok (update_product db k b).2.
Proof.
  intros Hok. unfold update_product. crud_ops.
  destruct (validate_update b) as [u|] eqn:Hv; [|done].
  destruct (Crud.get_product db k) as [[p|]|] eqn:Hg; [|done|done].
  destruct (Crud.update_product db p u) as [[p' db']|] eqn:Hu; [|done]. simpl.
  apply crud_get_product_Some in Hg as [Hp Hk].
  destruct (table_ok_lookup db k p Hok Hp) as (<- & _).
  by eapply crud_update_table_ok.
Qed.

Lemma delete_table_ok db k : table_ok db -> table_ok (delete_product db k).2.
Proof.
  intros Hok. unfold delete_product. crud_ops.
  destruct (Crud.get_product db k) as [[p|]|]; simpl; try done.
  by apply map_Forall_delete.
Qed.

(** ** Reachable states *)

(** The tables the service can reach from the seeded table, one request
    at a time. *)
Inductive reachable (seed : Table) : Table -> Prop :=
| reach_seed : reachable seed seed
| reach_step db now req : reachable seed db -> reachable seed (handle now req db).2.

(** ** Theorems *)

(** Every request keeps the table invariant. *)
Lemma handle_table_ok now req db : table_ok db -> table_ok (handle now req db).2.
Proof.
  intros Hok. destruct req as [s l n|k|b|k b|k]; simpl.
  - unfold list_products. crud_ops. by repeat case_match.
  - unfold get_product. crud_ops. by repeat case_match.
  - by apply create_table_ok.
  - by apply update_table_ok.
  - by apply delete_table_ok.
Qed.

(** C9. The table invariant holds in every state reachable from a seed
    that satisfies it: whatever sequence of requests the service answers,
    every row stays under its own positive 64-bit id, passes
    [ProductRead] and keeps a 64-bit stock (rule induction on [reachable],
    each endpoint preserving the invariant). *)
Theorem reachable_table_ok seed db : table_ok seed -> reachable seed db -> table_ok db.
Proof. intros Hseed. induction 1; [done|]. by apply handle_table_ok. Qed.

(** C13. On a table that satisfies the invariant (by C10, every reachable
    table), [GET /products/{id}] for an id that fits 64 bits answers 200
    with the stored row or 404, never 500 (the response validation cannot
    fail), and changes nothing. *)
Theorem get_valid_table db now k :
  table_ok db -> in_int64 k = true ->
  handle now (GetProduct k) db =
  match db !! k with
  | Some p => (mkResponse 200 (BProduct p), db)
  | None => (not_found, db)
  end.
Proof.
  intros Hok Hk.
  simpl. unfold get_product. crud_ops. unfold Crud.get_product. rewrite find_row_spec, Hk.
  destruct (db !! k) as [p|] eqn:Hp; [|done].
  destruct (table_ok_lookup db k p Hok Hp) as (_ & _ & Hrd). by rewrite respond_ok.
Qed.

Lemma validate_list_query_Ok skip limit name s l n :
  validate_list_query skip limit name = Ok (s, l, n) -> (0 <= s)%Z /\ (1 <= l <= 100)%Z.
Proof.
  unfold validate_list_query, collect3.
  destruct (query_skip skip) as [s'|] eqn:Hs, (query_limit limit) as [l'|] eqn:Hl,
    (query_name name); intros H; simplify_eq.
  unfold query_skip, query_limit, issue in *.
  destruct skip, limit; repeat case_match; simplify_eq; lia.
Qed.

Lemma get_products_rows_ok db s l n rows :
  table_ok db -> Crud.get_products db s l n = Ok rows -> Forall read_ok rows.
Proof.
  intros Hok Hrows. apply Forall_forall. intros p Hp.
  destruct (get_products_sound db s l n rows p Hrows Hp) as [[k Hk] _].
  by destruct (table_ok_lookup db k p Hok Hk) as (_ & _ & ?).
Qed.

(** With [skip] and [limit] inside 64 bits, [crud.get_products] returns
    the page of the filtered scan. *)
Lemma get_products_page db s l n :
  (0 <= s <= INT64_MAX)%Z -> (1 <= l <= 100)%Z ->
  Crud.get_products db s l n
  = Ok (sql_page s l (filter (fun p => Crud.name_filter n p = true) (scan_by_id db))).
Proof.
  intros Hs Hl. unfold Crud.get_products, select_rows, bind_int.
  replace (in_int64 l) with true by (symmetry; apply in_int64_spec; unfold INT64_MIN, INT64_MAX; lia).
  replace (in_int64 s) with true by (symmetry; apply in_int64_spec; unfold INT64_MIN in *; lia).
  reflexivity.
Qed.

(** On a table that satisfies the invariant ([reachable_table_ok]: every reachable
    table), a listing whose query parameters pass validation, with [skip]
    below [2^63], answers 200 with the page [crud.get_products] computes:
    response validation never fails. *)
Theorem list_valid_table db now skip limit name s l n :
  table_ok db ->
  validate_list_query skip limit name = Ok (s, l, n) -> (s <= INT64_MAX)%Z ->
  exists rows, Crud.get_products db s l n = Ok rows
  /\ handle now (ListProducts skip limit name) db = (mkResponse 200 (BProducts rows), db).
Proof.
  intros Hok Hq Hs.
  destruct (validate_list_query_Ok _ _ _ _ _ _ Hq) as [Hs0 Hl].
  pose proof (get_products_page db s l n ltac:(lia) Hl) as Hg.
  eexists. split; [exact Hg|]. simpl. unfold list_products. crud_ops. rewrite Hq, Hg.
  by rewrite respond_list_ok by (eapply get_products_rows_ok; eauto).
Qed.

(** C14. An id the driver cannot bind: [GET /products/{id}] with an id
    outside the signed 64-bit range passes FastAPI's [int] validation and
    answers 500 (the driver's [OverflowError]), where the spec promises
    404 for every absent id. *)
Theorem get_overflow_500 now db k :
  in_int64 k = false -> handle now (GetProduct k) db = (server_error, db).
Proof.
  intros Hk. simpl. unfold get_product. crud_ops. unfold Crud.get_product. by rewrite find_row_spec, Hk.
Qed.

(** [PUT /products/{id}] validates the body before it looks the id up:
    an invalid body answers 422 with the body's errors even when no product
    has that id (the spec checks existence first), and changes nothing. *)
Theorem update_validates_first now db k b e :
  validate_update b = Err e -> handle now (UpdateProduct k b) db = (unprocessable e, db).
Proof. intros He. simpl. unfold update_product. crud_ops. by rewrite He. Qed.

(** [POST /products] with a price that is not [> 0] answers 422,
    reports the price, and creates nothing. *)
Theorem create_bad_price_422 now db b x :
  in_price b = Given x -> PrimFloat.ltb 0 x = false ->
  exists e, handle now (CreateProduct b) db = (unprocessable e, db)
  /\ mkIssue "price" GreaterThan ∈ e.
Proof.
  intros Hb Hx. destruct (validate_create_bad_price b x Hb Hx) as (e & He & Hi).
  exists e. simpl. unfold create_product. crud_ops. by rewrite He.
Qed.

(** C15. [PUT /products/{id}] with [null] for [name], [price] or [stock]
    passes validation and answers 500, leaving the row as it was: the spec
    promises a 4xx and "price > 0, stock >= 0 always". *)
Theorem update_null_500 now db k b u :
  validate_update b = Ok u -> is_Some (db !! k) -> in_int64 k = true ->
  (in_name b = Null \/ in_price b = Null \/ in_stock b = Null) ->
  handle now (UpdateProduct k b) db = (server_error, db).
Proof.
  intros Hv [p Hp] Hk Hnull. simpl. unfold update_product. crud_ops. rewrite Hv.
  unfold Crud.get_product. rewrite find_row_spec, Hk, Hp.
  destruct (Crud.update_product db p u) as [[p' db']|] eqn:Hu; [|done].
  apply update_product_Ok_inv in Hu as ((Hn & Hx & Hs) & _).
  apply validate_update_Ok in Hv as (-> & _). simpl in *. naive_solver.
Qed.

(** C16. [DELETE /products/{id}] of a stored product answers 204 and
    removes exactly that row; a following [GET] of the id answers 404. *)
Theorem delete_then_get_404 now now' db k p :
  table_ok db -> db !! k = Some p ->
  handle now (DeleteProduct k) db = (mkResponse 204 BEmpty, delete k db)
  /\ handle now' (GetProduct k) (delete k db) = (not_found, delete k db).
Proof.
  intros Hok Hp. destruct (Hok k p Hp) as (Hid & Hk & _).
  split; simpl; unfold delete_product, get_product; crud_ops; unfold Crud.get_product, Crud.delete_product, delete_row;
    rewrite find_row_spec, Hk; [by rewrite Hp, Hid|by rewrite lookup_delete_eq].
Qed.

(** C17. [POST /products] with a valid body, on a valid table, answers 201
    with the new row, whose id is the next rowid; the table gains exactly
    that row. *)
Theorem create_valid_201 now db b c k :
  table_ok db -> validate_create b = Ok c -> in_int64 (c_stock c) = true -> next_rowid db = Ok k ->
  let p := mkProduct k (c_name c) (c_description c) (c_price c) (c_stock c) now in
  handle now (CreateProduct b) db = (mkResponse 201 (BProduct p), <[k := p]> db).
Proof.
  intros Hok Hv Hs Hk p. pose proof Hv as Hv'.
  apply validate_create_Ok in Hv' as (_ & _ & _ & _ & Hx & _).
  simpl. unfold create_product. crud_ops. rewrite Hv.
  rewrite (create_product_eq now db c k Hk Hs Hx). fold p.
  rewrite respond_ok; [done|]. by eapply create_read_ok.
Qed.


(** The example scenario of the spec, on a two-row table: [POST] a
    product answers 201 with a new id; [PUT] [{price: 6.0, stock: 40}]
    answers 200 with the new price and stock and the name unchanged;
    [DELETE] answers 204; [GET] then answers 404. *)
Theorem spec_scenario :
  let b := mkProductIn (Given "Ketorolaco 10mg") (Given "Analgesico") (Given 5.25%float) (Given 33%Z) in
  let patch_body := mkProductIn Unset Unset (Given 6%float) (Given 40%Z) in
  let (r1, db1) := handle 0 (CreateProduct b) ex_db in
  let (r2, db2) := handle 1 (UpdateProduct 3 patch_body) db1 in
  let (r3, db3) := handle 2 (DeleteProduct 3) db2 in
  let (r4, db4) := handle 3 (GetProduct 3) db3 in
  status r1 = 201%Z /\ r2 = mkResponse 200 (BProduct (mkProduct 3 "Ketorolaco 10mg"
    (Some "Analgesico") 6%float 40 0)) /\ status r3 = 204%Z /\ r4 = not_found /\ db4 = ex_db.
Proof. vm_compute. split_and!; reflexivity. Qed.

(** ** Witnesses *)

Lemma ex_db_table_ok : table_ok ex_db.
Proof. unfold ex_db. solve_table_ok. Qed.

Definition ex_body : ProductIn :=
  mkProductIn (Given "Ketorolaco 10mg") (Given "Analgesico") (Given 5.25%float) (Given 33%Z).

Lemma reachable_table_ok_witness :
  let db := (handle 0 (CreateProduct ex_body) ex_db).2 in
  reachable ex_db db /\ table_ok db.
Proof.
  intros db. assert (reachable ex_db db) as Hr by (apply reach_step, reach_seed).
  split; [exact Hr|]. apply (reachable_table_ok ex_db db ex_db_table_ok Hr).
Defined.

Lemma get_valid_table_witness :
  handle 0 (GetProduct 1) ex_db = (mkResponse 200 (BProduct ex_p1), ex_db).
Proof. rewrite (get_valid_table ex_db 0 1 ex_db_table_ok eq_refl). reflexivity. Defined.

Lemma list_valid_table_witness :
  exists rows, Crud.get_products ex_db 0 3 None = Ok rows
  /\ handle 0 (ListProducts None None None) ex_db = (mkResponse 200 (BProducts rows), ex_db).
Proof.
  apply (list_valid_table ex_db 0 None None None 0 3 None ex_db_table_ok).
  - reflexivity.
  - unfold INT64_MAX. lia.
Defined.

Lemma get_overflow_500_witness :
  handle 0 (GetProduct (2 ^ 63)) ex_db = (server_error, ex_db).
Proof. apply get_overflow_500. reflexivity. Defined.

Lemma update_validates_first_witness :
  let b := mkProductIn (Given "K") Unset Unset Unset in
  ex_db !! 99%Z = None /\
  handle 0 (UpdateProduct 99 b) ex_db = (unprocessable [mkIssue "name" StringTooShort], ex_db).
Proof. split; [reflexivity|]. apply update_validates_first. reflexivity. Defined.

Lemma create_bad_price_422_witness :
  exists e, handle 0 (CreateProduct (mkProductIn (Given "Ketorolaco") Unset (Given 0%float) Unset)) ex_db
            = (unprocessable e, ex_db) /\ mkIssue "price" GreaterThan ∈ e.
Proof. apply (create_bad_price_422 0 ex_db _ 0%float); reflexivity. Defined.

Lemma update_null_500_witness :
  let b := mkProductIn Unset Unset Null Unset in
  validate_update b = Ok (mkProductUpdate Unset Unset Null Unset)
  /\ handle 0 (UpdateProduct 1 b) ex_db = (server_error, ex_db).
Proof.
  split; [reflexivity|].
  apply (update_null_500 0 ex_db 1 _ (mkProductUpdate Unset Unset Null Unset)).
  - reflexivity.
  - by exists ex_p1.
  - reflexivity.
  - right; left; reflexivity.
Defined.

Lemma delete_then_get_404_witness :
  handle 0 (DeleteProduct 1) ex_db = (mkResponse 204 BEmpty, delete 1%Z ex_db)
  /\ handle 1 (GetProduct 1) (delete 1%Z ex_db) = (not_found, delete 1%Z ex_db).
Proof. apply (delete_then_get_404 0 1 ex_db 1 ex_p1 ex_db_table_ok). reflexivity. Defined.

Lemma create_valid_201_witness :
  let p := mkProduct 3 "Ketorolaco 10mg" (Some "Analgesico") 5.25%float 33 0 in
  handle 0 (CreateProduct ex_body) ex_db = (mkResponse 201 (BProduct p), <[3%Z := p]> ex_db).
Proof.
  apply (create_valid_201 0 ex_db ex_body (mkProductCreate "Ketorolaco 10mg" (Some "Analgesico") 5.25%float 33) 3 ex_db_table_ok); reflexivity.
Defined.
