(* ===== verification/Responses.v ===== *)
(** * Responses: what [main.py] declares it answers

    Each route of [main.py] declares its answers: the status of the
    decorator ([200] by default, [status_code=201] on [POST],
    [status_code=204] on [DELETE]) with a body of its [response_model]
    ([List[ProductRead]] or [ProductRead]), the [404] its handler raises
    with the fixed detail, the [422] FastAPI answers when it validates the
    query or the body, whose [detail] lists at least one error, each at a
    field of that route, and the [500] of an exception nobody catches.
    [response_typed] is that table (spec section 6) as a boolean test on a
    response.

    The theorems: whatever the store behind [crud] does, every response of
    [Api.handle] is one its route declares ([handle_response_typed]); and,
    over the SQLite table, a product a response shows is what a [GET] of
    its id reads right after, so a write answers with the row it stored
    ([response_get_roundtrip]). *)

From S2P Require Import Prelude Text Like Models Schemas Engine Crud Api.

(** ** The declared responses *)

(** The fields FastAPI validates for a route: the [loc] a 422 entry may
    name. *)
Definition request_fields (req : Request) : list string :=
  match req with
  | ListProducts _ _ _ => ["skip"; "limit"; "name"]
  | CreateProduct _ | UpdateProduct _ _ => ["name"; "description"; "price"; "stock"]
  | GetProduct _ | DeleteProduct _ => []
  end.

(** The [detail] of a 422: at least one entry, each at a field of the
    route. *)
Definition issues_at (fields : list string) (errs : list Issue) : bool :=
  bool_decide (errs <> []) && forallb (fun i => bool_decide (issue_loc i ∈ fields)) errs.

(** The answers each route declares, status and body together. *)
Definition response_typed (req : Request) (r : Response) : bool :=
  match req, body r with
  | ListProducts _ _ _, BProducts l => (status r =? 200)%Z && forallb validate_read l
  | GetProduct _, BProduct p | UpdateProduct _ _, BProduct p =>
      (status r =? 200)%Z && validate_read p
  | CreateProduct _, BProduct p => (status r =? 201)%Z && validate_read p
  | DeleteProduct _, BEmpty => (status r =? 204)%Z
  | GetProduct _, BDetail msg | UpdateProduct _ _, BDetail msg | DeleteProduct _, BDetail msg =>
      (status r =? 404)%Z && String.eqb msg "Producto no encontrado"
  | ListProducts _ _ _, BIssues errs | CreateProduct _, BIssues errs
  | UpdateProduct _ _, BIssues errs => (status r =? 422)%Z && issues_at (request_fields req) errs
  | _, BServerError => (status r =? 500)%Z
  | _, _ => false
  end.

(** ** Validation reports its errors *)

(** A check that fails says why: its error list is non-empty and names
    only fields of [fields]. *)
Definition reports {A} (fields : list string) (r : checked A) : Prop :=
  forall errs, r = Err errs -> issues_at fields errs = true.

Lemma issues_at_spec fields errs :
  issues_at fields errs = true <-> errs <> [] /\ Forall (fun i => issue_loc i ∈ fields) errs.
Proof.
  unfold issues_at. rewrite andb_true_iff, bool_decide_eq_true, forallb_forall, List.Forall_forall.
  split; intros [? H]; split; try done; intros i Hi; specialize (H i Hi); by case_bool_decide.
Qed.

Lemma reports_Forall {A} fields (r : checked A) :
  reports fields r -> Forall (fun i => issue_loc i ∈ fields) (errors r).
Proof. destruct r as [a|e]; simpl; [done|]. intros H. by apply (issues_at_spec fields), H. Qed.

Lemma reports_errors_ne {A} fields (r : checked A) :
  reports fields r -> is_ok r = false -> errors r <> [].
Proof. destruct r as [a|e]; simpl; [done|]. intros H _. by apply (issues_at_spec fields), H. Qed.

Lemma reports_ok {A} fields (a : A) : reports fields (Ok a).
Proof. by intros errs. Qed.

Lemma reports_issue {A} fields loc t : loc ∈ fields -> reports (A:=A) fields (issue loc t).
Proof. intros Hl errs [= <-]. apply issues_at_spec. split; [done|]. by constructor. Qed.

Lemma reports_check_len fields loc lo hi s :
  loc ∈ fields -> reports fields (check_len loc lo hi s).
Proof. intros Hl. unfold check_len. repeat case_match; auto using reports_ok, reports_issue. Qed.

Lemma reports_check_gt0 fields loc x : loc ∈ fields -> reports fields (check_gt0 loc x).
Proof. intros Hl. unfold check_gt0. case_match; auto using reports_ok, reports_issue. Qed.

Lemma reports_check_ge0 fields loc n : loc ∈ fields -> reports fields (check_ge0 loc n).
Proof. intros Hl. unfold check_ge0. case_match; auto using reports_ok, reports_issue. Qed.

Lemma reports_map {A B} fields (f : A -> B) r : reports fields r -> reports fields (result_map f r).
Proof. intros H errs. destruct r; simpl; [done|]. intros [= <-]. by apply H. Qed.

Lemma reports_optional {A} fields (check : A -> checked A) (f : Field A) :
  (forall a, reports fields (check a)) -> reports fields (optional_field check f).
Proof. intros H. destruct f; simpl; auto using reports_ok, reports_map. Qed.

(** [collect3] and [collect4] report the errors of every field that
    failed, and at least one field failed. *)
Ltac collect_reports :=
  apply issues_at_spec; split;
  [ intros Hn; repeat match goal with H : _ ++ _ = [] |- _ => apply app_eq_nil in H as [? ?] end;
    match goal with Hno : _ \/ _ |- _ => destruct_or! Hno end;
    match goal with Hf : is_ok ?r = false |- _ => by eapply (reports_errors_ne _ r) end
  | rewrite ?Forall_app; split_and!; auto using reports_Forall ].

Lemma reports_collect3 {A B C R} fields (g : A -> B -> C -> R) ra rb rc :
  reports fields ra -> reports fields rb -> reports fields rc ->
  reports fields (collect3 g ra rb rc).
Proof.
  intros Ha Hb Hc errs H.
  assert (errs = errors ra ++ errors rb ++ errors rc
          /\ (is_ok ra = false \/ is_ok rb = false \/ is_ok rc = false)) as [-> Hno]
    by (destruct ra, rb, rc; simpl in *; simplify_eq; auto).
  collect_reports.
Qed.

Lemma reports_collect4 {A B C D R} fields (g : A -> B -> C -> D -> R) ra rb rc rd :
  reports fields ra -> reports fields rb -> reports fields rc -> reports fields rd ->
  reports fields (collect4 g ra rb rc rd).
Proof.
  intros Ha Hb Hc Hd errs H.
  assert (errs = errors ra ++ errors rb ++ errors rc ++ errors rd
          /\ (is_ok ra = false \/ is_ok rb = false \/ is_ok rc = false \/ is_ok rd = false))
    as [-> Hno] by (destruct ra, rb, rc, rd; simpl in *; simplify_eq; auto).
  collect_reports.
Qed.

Create HintDb reports discriminated.
#[export] Hint Resolve reports_ok reports_issue reports_check_len reports_check_gt0
  reports_check_ge0 reports_map reports_optional reports_collect3 reports_collect4 : reports.
#[export] Hint Extern 1 (_ ∈ _) => set_solver : reports.

(** The three validations FastAPI runs before a handler. *)
Lemma validate_list_query_reports skip limit name :
  reports ["skip"; "limit"; "name"] (validate_list_query skip limit name).
Proof.
  unfold validate_list_query, query_skip, query_limit, query_name.
  apply reports_collect3; repeat case_match; auto with reports.
Qed.

Lemma validate_create_reports b :
  reports ["name"; "description"; "price"; "stock"] (validate_create b).
Proof.
  unfold validate_create, create_name, base_description, create_price, create_stock.
  apply reports_collect4; case_match; auto with reports.
Qed.

Lemma validate_update_reports b :
  reports ["name"; "description"; "price"; "stock"] (validate_update b).
Proof. unfold validate_update. auto 7 with reports. Qed.

(** ** Each kind of answer *)

Lemma server_error_typed req : response_typed req server_error = true.
Proof. by destruct req. Qed.

(** A row that passes [ProductRead], with the success status of its
    route. *)
Lemma product_typed req code p :
  match req with
  | GetProduct _ | UpdateProduct _ _ => code = 200%Z
  | CreateProduct _ => code = 201%Z
  | _ => False
  end -> validate_read p = true -> response_typed req (mkResponse code (BProduct p)) = true.
Proof. intros Hc Hv. destruct req; try done; subst; cbn -[validate_read]; by rewrite Hv. Qed.

Lemma respond_list_typed skip limit name l :
  response_typed (ListProducts skip limit name) (respond_list l) = true.
Proof. unfold respond_list. by destruct (forallb validate_read l) eqn:Hv; [cbn -[validate_read]; rewrite Hv|]. Qed.

Lemma not_found_typed req :
  match req with GetProduct _ | UpdateProduct _ _ | DeleteProduct _ => True | _ => False end ->
  response_typed req not_found = true.
Proof. by destruct req. Qed.

Lemma unprocessable_typed req errs :
  match req with ListProducts _ _ _ | CreateProduct _ | UpdateProduct _ _ => True | _ => False end ->
  issues_at (request_fields req) errs = true -> response_typed req (unprocessable errs) = true.
Proof. intros Hr Hi. destruct req; try done; simpl; by rewrite Hi. Qed.

#[export] Hint Resolve server_error_typed respond_list_typed not_found_typed unprocessable_typed
  : reports.

(** [respond code p]: the row passes [ProductRead] and is sent, or the
    response is a 500. *)
Ltac respond_typed :=
  match goal with
  | |- response_typed ?req (respond ?code ?p) = true =>
      unfold respond; destruct (validate_read p) eqn:?;
      [apply product_typed; [reflexivity|assumption] | apply server_error_typed]
  end.

(** ** What a response shows *)

Lemma respond_BProduct code q c p :
  respond code q = mkResponse c (BProduct p) -> q = p /\ c = code.
Proof. unfold respond, server_error. repeat case_match; by intros [= <- <-]. Qed.

Lemma respond_list_not_BProduct l c p : respond_list l <> mkResponse c (BProduct p).
Proof. unfold respond_list, server_error. by case_match. Qed.

(** [GET] of a stored row of a valid table shows the row. *)
Lemma get_stored now db k p :
  table_ok db -> in_int64 k = true -> db !! k = Some p ->
  handle now (GetProduct k) db = (mkResponse 200 (BProduct p), db).
Proof.
  intros Hok Hk Hp. cbn [handle]. unfold get_product. crud_ops.
  unfold Crud.get_product. rewrite find_row_spec, Hk, Hp.
  destruct (table_ok_lookup db k p Hok Hp) as (_ & _ & Hr). by rewrite respond_ok.
Qed.

(** ** Theorems *)

(** C11. Every answer is one its route declares: for every request and
    whatever the store behind [crud] returns (an error included),
    [Api.handle] answers with the status and body its route declares in
    [main.py]: 200 with rows that pass [ProductRead] for a listing, 200
    or 201 with one such row for [GET], [PUT] and [POST], 204 with no body
    for [DELETE], 404 with ["Producto no encontrado"] only on the routes
    with an id, 422 only on the routes FastAPI validates and with at least
    one error, each at a field of that route, or 500. *)
Theorem handle_response_typed {S : Type} `{!Persistence S} now req (db : S) :
  response_typed req (handle now req db).1 = true.
Proof.
  destruct req as [skip limit name|k|b|k b|k]; cbn [handle].
  - unfold list_products. destruct (validate_list_query skip limit name) as [[[s l] n]|errs] eqn:Hv.
    + destruct (p_list db s l n); cbn [fst]; first [respond_typed | auto with reports].
    + apply unprocessable_typed; [done|]. by apply (validate_list_query_reports skip limit name).
  - unfold get_product. repeat case_match; cbn [fst]; first [respond_typed | auto with reports].
  - unfold create_product. destruct (validate_create b) as [c|errs] eqn:Hv.
    + repeat case_match; cbn [fst]; first [respond_typed | auto with reports].
    + apply unprocessable_typed; [done|]. by apply (validate_create_reports b).
  - unfold update_product. destruct (validate_update b) as [u|errs] eqn:Hv.
    + repeat case_match; cbn [fst]; first [respond_typed | auto with reports].
    + apply unprocessable_typed; [done|]. by apply (validate_update_reports b).
  - unfold delete_product. repeat case_match; cbn [fst]; first [respond_typed | auto with reports].
Qed.

(** C12. Write, then read: whatever request the program answers with a
    product, a [GET] of that product's id right after answers 200 with
    the same product and changes nothing. So [POST] and [PUT] answer with
    the row they stored, as [db.refresh] promises, and a [GET] is stable. *)
Theorem response_get_roundtrip now now' req db c p db' :
  table_ok db -> handle now req db = (mkResponse c (BProduct p), db') ->
  handle now' (GetProduct (prod_id p)) db' = (mkResponse 200 (BProduct p), db').
Proof.
  intros Hok H.
  enough (db' !! prod_id p = Some p /\ in_int64 (prod_id p) = true) as [Hp Hk].
  { apply get_stored; [|done|done]. pose proof (handle_table_ok now req db Hok) as Hok'.
    by rewrite H in Hok'. }
  revert H. destruct req as [skip limit name|k|b|k b|k]; cbn [handle];
    [unfold list_products|unfold get_product|unfold create_product
    |unfold update_product|unfold delete_product]; crud_ops; repeat case_match;
    intros Hr; simplify_eq;
    try (by edestruct respond_list_not_BProduct);
    match goal with Hr : respond _ _ = _ |- _ => apply respond_BProduct in Hr as [-> ->] end.
  - (* [GET]: the row found under [k] has id [k] *)
    match goal with Hg : Crud.get_product _ _ = _ |- _ => apply crud_get_product_Some in Hg as [Hp Hk] end.
    by destruct (table_ok_lookup _ k p Hok Hp) as (-> & _).
  - (* [POST]: the new row is stored under the next rowid, which fits 64 bits *)
    match goal with Hc : Crud.create_product _ _ _ = _ |- _ =>
      apply create_product_Ok_inv in Hc as (k & Hk & _ & -> & ->) end.
    simpl. rewrite lookup_insert_eq. split; [done|].
    by apply (table_ok_next_rowid db k Hok Hk).
  - (* [PUT]: the patched row is written back under the loaded row's id *)
    match goal with Hg : Crud.get_product _ _ = _ |- _ => apply crud_get_product_Some in Hg as [Hp Hk] end.
    destruct (table_ok_lookup _ k _ Hok Hp) as (<- & _).
    match goal with Hu : Crud.update_product _ _ _ = _ |- _ =>
      apply update_product_Ok_inv in Hu as (_ & -> & -> & _) end.
    simpl. by rewrite lookup_insert_eq.
Qed.

(** ** Witnesses *)

(** The row the spec's [POST] stores in the example table. *)
Definition ex_created : Product :=
  mkProduct 3 "Ketorolaco 10mg" (Some "Analgesico") 5.25%float 33 0.

Lemma response_get_roundtrip_witness :
  handle 0 (CreateProduct ex_body) ex_db
  = (mkResponse 201 (BProduct ex_created), <[3%Z := ex_created]> ex_db)
  /\ handle 1 (GetProduct (prod_id ex_created)) (<[3%Z := ex_created]> ex_db)
     = (mkResponse 200 (BProduct ex_created), <[3%Z := ex_created]> ex_db).
Proof.
  assert (handle 0 (CreateProduct ex_body) ex_db
          = (mkResponse 201 (BProduct ex_created), <[3%Z := ex_created]> ex_db)) as H
    by (vm_compute; reflexivity).
  split; [exact H|]. exact (response_get_roundtrip 0 1 _ ex_db _ _ _ ex_db_table_ok H).
Defined.
