(* ===== verification/Contract.v ===== *)
(** * Contract: the service the spec describes, and [handle] as its refinement

    The spec promises two contracts. Section 4.2 promises, for each route,
    a response and a new table: a listing is the page of the rows in id
    order whose lower-cased name contains the lower-cased filter; [GET]
    answers the stored row or 404; [POST] validates the body (422) and
    stores a row under a fresh positive id; [PUT] checks existence (404),
    then the body (422), then writes the partial update; [DELETE] checks
    existence and removes the row. [spec_step] writes that contract as a
    relation on the abstract table: it leaves open which fresh id a [POST]
    gets and names the listing order by a property (strictly sorted by id)
    instead of an algorithm. Section 4.1 promises what the persistence
    layer does; [PersistenceContract] states it as laws over the
    interface [Api.Persistence], with an abstraction [rows] to the table
    and an invariant [store_ok].

    The routing layer is proved against the laws alone: for any store that
    satisfies them, [handle] refines [spec_step] on every request in
    [in_domain], and [run_refines_laws] lifts this to sequences of
    requests. [crud_contract] discharges the laws for [crud.py] over the
    SQLite table, with [table_ok] as invariant; [run_refines] is the
    result for the program. The requests outside [in_domain] are exactly
    the divergences proved in [Like] and [Api]: a name filter with [%] or
    [_], an id or [skip] outside 64 bits, a [null] for a NOT NULL column,
    a stock outside 64 bits, an invalid [PUT] body for a missing id, and
    rowid exhaustion. *)

From S2P Require Import Prelude Text Like Models Schemas Engine Crud Api.

(** ** The contract *)

(** The spec's name filter: a case-insensitive substring test. *)
Definition spec_filter (name : option string) (p : Product) : bool :=
  match name with
  | Some n => contains (str_lower n) (str_lower (prod_name p))
  | None => true
  end.

(** [L] lists the rows of [db] ordered by identity. *)
Definition listed_by_id (db : Table) (L : list Product) : Prop :=
  L ≡ₚ (map_to_list db).*2 /\ StronglySorted (fun p q => (prod_id p < prod_id q)%Z) L.

(** The page [offset]/[limit] of a list. *)
Definition spec_page (s l : Z) (L : list Product) : list Product :=
  take (Z.to_nat l) (drop (Z.to_nat s) L).

(** The new row of a [POST] under the id [k], created at [now]. *)
Definition new_row (k now : Z) (c : ProductCreate) : Product :=
  mkProduct k (c_name c) (c_description c) (c_price c) (c_stock c) now.

Inductive spec_step (now : Z) : Request -> Table -> Response -> Table -> Prop :=
| spec_list_bad skip limit name e db :
    validate_list_query skip limit name = Err e ->
    spec_step now (ListProducts skip limit name) db (unprocessable e) db
| spec_list skip limit name s l n db L :
    validate_list_query skip limit name = Ok (s, l, n) -> listed_by_id db L ->
    spec_step now (ListProducts skip limit name) db
      (mkResponse 200 (BProducts (spec_page s l (filter (fun p => spec_filter n p = true) L)))) db
| spec_get_found k p db :
    db !! k = Some p -> spec_step now (GetProduct k) db (mkResponse 200 (BProduct p)) db
| spec_get_missing k db :
    db !! k = None -> spec_step now (GetProduct k) db not_found db
| spec_create_bad b e db :
    validate_create b = Err e -> spec_step now (CreateProduct b) db (unprocessable e) db
| spec_create b c k db :
    validate_create b = Ok c -> (0 < k)%Z -> db !! k = None ->
    spec_step now (CreateProduct b) db (mkResponse 201 (BProduct (new_row k now c)))
      (<[k := new_row k now c]> db)
| spec_update_missing k b db :
    db !! k = None -> spec_step now (UpdateProduct k b) db not_found db
| spec_update_bad k b p e db :
    db !! k = Some p -> validate_update b = Err e ->
    spec_step now (UpdateProduct k b) db (unprocessable e) db
| spec_update k b p u db :
    db !! k = Some p -> validate_update b = Ok u ->
    spec_step now (UpdateProduct k b) db (mkResponse 200 (BProduct (patch p u)))
      (<[k := patch p u]> db)
| spec_delete_found k p db :
    db !! k = Some p -> spec_step now (DeleteProduct k) db (mkResponse 204 BEmpty) (delete k db)
| spec_delete_missing k db :
    db !! k = None -> spec_step now (DeleteProduct k) db not_found db.

(** ** The persistence layer's contract (section 4.1) *)

(** What the routing layer may assume of [crud], for values the store can
    hold (64-bit integers): reads see the rows; a listing is the page of
    the rows in id order that pass the spec's filter; a create stores a
    row under a fresh positive id; an update writes the [patch] of the
    row; a delete removes it; and every row is stored under its id and
    passes [ProductRead]. *)
Class PersistenceContract (S : Type) `{!Persistence S} := {
  rows : S -> Table;
  store_ok : S -> Prop;
  has_room : S -> bool;
  rows_ok s : store_ok s -> map_Forall (fun k p => prod_id p = k /\ read_ok p) (rows s);
  law_get s k : store_ok s -> in_int64 k = true -> p_get s k = Ok (rows s !! k);
  law_list s off lim n :
    store_ok s -> (0 <= off <= INT64_MAX)%Z -> (1 <= lim <= 100)%Z ->
    (forall m, n = Some m -> str_truthy m = true /\ no_wildcards m = true) ->
    exists L, listed_by_id (rows s) L
      /\ p_list s off lim n = Ok (spec_page off lim (filter (fun p => spec_filter n p = true) L));
  law_create now s b c :
    store_ok s -> validate_create b = Ok c -> in_int64 (c_stock c) = true -> has_room s = true ->
    exists k s', (0 < k)%Z /\ in_int64 k = true /\ rows s !! k = None
      /\ p_create now s c = Ok (new_row k now c, s')
      /\ rows s' = <[k := new_row k now c]> (rows s) /\ store_ok s';
  law_update s p b u :
    store_ok s -> rows s !! prod_id p = Some p -> validate_update b = Ok u -> no_null u ->
    given_ok (fun n => in_int64 n = true) (u_stock u) ->
    exists s', p_update s p u = Ok (patch p u, s')
      /\ rows s' = <[prod_id p := patch p u]> (rows s) /\ store_ok s';
  law_delete s p :
    store_ok s -> rows s !! prod_id p = Some p ->
    rows (p_delete s p) = delete (prod_id p) (rows s) /\ store_ok (p_delete s p)
}.

(** ** The domain where the code meets the contract *)

Definition field_null {A} (f : Field A) : bool :=
  match f with Null => true | _ => false end.

Definition stock_fits (f : Field Z) : bool :=
  match f with Given n => in_int64 n | _ => true end.

Section Runs.
Context {S : Type} `{!Persistence S, !PersistenceContract S}.

Definition in_domain (s : S) (req : Request) : bool :=
  match req with
  | ListProducts skip _ name =>
      (default 0 skip <=? INT64_MAX)%Z && default true (no_wildcards <$> name)
  | GetProduct k | DeleteProduct k => in_int64 k
  | CreateProduct b => stock_fits (in_stock b) && has_room s
  | UpdateProduct k b =>
      in_int64 k
      && negb (field_null (in_name b) || field_null (in_price b) || field_null (in_stock b))
      && stock_fits (in_stock b)
      && (bool_decide (is_Some (rows s !! k)) || is_ok (validate_update b))
  end.

(** The service answering requests one after the other; each request
    carries the clock reading it is answered at. *)
Fixpoint run (reqs : list (Z * Request)) (s : S) : list Response * S :=
  match reqs with
  | [] => ([], s)
  | (now, req) :: rest =>
      let (r, s1) := handle now req s in
      let (rs, s2) := run rest s1 in
      (r :: rs, s2)
  end.

(** Every request of the sequence is in the domain, in the state it meets. *)
Fixpoint run_in_domain (reqs : list (Z * Request)) (s : S) : bool :=
  match reqs with
  | [] => true
  | (now, req) :: rest => in_domain s req && run_in_domain rest (handle now req s).2
  end.
(** One request answered as a step of the contract, keeping the invariant. *)
Definition step_refines (now : Z) (req : Request) (s : S) : Prop :=
  spec_step now req (rows s) (handle now req s).1 (rows (handle now req s).2)
  /\ store_ok (handle now req s).2.
End Runs.

Inductive spec_trace : Table -> list (Z * Request) -> list Response -> Table -> Prop :=
| trace_nil db : spec_trace db [] [] db
| trace_cons now req rest db r db1 rs db2 :
    spec_step now req db r db1 -> spec_trace db1 rest rs db2 ->
    spec_trace db ((now, req) :: rest) (r :: rs) db2.

(** ** Lemmas *)

(** What a valid listing query passes on: [skip] and [name] as sent (or
    the default), and a filter of at least one character. *)
Lemma validate_list_query_fields skip limit name s l n :
  validate_list_query skip limit name = Ok (s, l, n) ->
  s = default 0%Z skip /\ n = name /\ forall m, n = Some m -> str_truthy m = true.
Proof.
  unfold validate_list_query, collect3.
  destruct (query_skip skip) as [s'|] eqn:Hs, (query_limit limit) as [l'|] eqn:Hl,
    (query_name name) as [n'|] eqn:Hn; intros H; simplify_eq.
  unfold query_skip, query_name, issue in *. split_and!.
  - destruct skip as [z|]; [destruct (0 <=? z)%Z|]; by simplify_eq.
  - destruct name as [m|]; [|by simplify_eq].
    destruct (check_len _ _ _ _) eqn:Hc; simpl in Hn; simplify_eq.
    by apply check_len_Ok in Hc as [-> _].
  - intros m ->. destruct name as [m'|]; [|done].
    destruct (check_len _ _ _ _) eqn:Hc; simpl in Hn; simplify_eq.
    apply check_len_Ok in Hc as [-> Hlen]. simpl in Hlen.
    destruct m'; [simpl in Hlen; lia|done].
Qed.

(** The engine's scan is a listing in id order. *)
Lemma scan_by_id_listed db : keys_ok db -> listed_by_id db (scan_by_id db).
Proof.
  intros Hok. split; [apply (merge_sort_Permutation id_le)|by apply scan_by_id_sorted].
Qed.

(** Two listings of the same table in id order are the same list. *)
Lemma listed_by_id_unique db L1 L2 : listed_by_id db L1 -> listed_by_id db L2 -> L1 = L2.
Proof.
  intros [Hp1 Hs1] [Hp2 Hs2]. apply (StronglySorted_unique_strong (fun p q => (prod_id p < prod_id q)%Z)); [|done|done|].
  - intros ???? H1 H2. lia.
  - by rewrite Hp1, Hp2.
Qed.

(** On a filter the query accepted and that has no wildcard, the code's
    [ilike] filter is the spec's substring filter. *)
Lemma name_filter_spec n p :
  (forall m, n = Some m -> str_truthy m = true /\ no_wildcards m = true) ->
  Crud.name_filter n p = spec_filter n p.
Proof.
  destruct n as [m|]; simpl; [|done]. intros Hm. destruct (Hm m eq_refl) as [-> Hw].
  by apply ilike_name_pattern_contains.
Qed.

Lemma sql_page_spec off lim (L : list Product) :
  (0 <= lim)%Z -> sql_page off lim L = spec_page off lim L.
Proof. intros Hl. unfold sql_page. by destruct (Z.ltb_spec lim 0); [lia|]. Qed.

Lemma stock_fits_create b c :
  validate_create b = Ok c -> stock_fits (in_stock b) = true -> in_int64 (c_stock c) = true.
Proof.
  intros (_ & _ & _ & _ & _ & [[-> ->]|[-> _]])%validate_create_Ok; done.
Qed.

Lemma stock_fits_given f : stock_fits f = true -> given_ok (fun n => in_int64 n = true) f.
Proof. destruct f; simpl; [done|done|]. by intros H a' [= <-]. Qed.

(** A page of a listing of valid rows holds valid rows. *)
Lemma page_read_ok db L off lim (P : Product -> Prop) `{!forall x, Decision (P x)} :
  map_Forall (fun k p => prod_id p = k /\ read_ok p) db -> listed_by_id db L ->
  Forall read_ok (spec_page off lim (filter P L)).
Proof.
  intros Hdb [Hperm _]. apply Forall_forall. intros p Hp.
  assert (sublist (spec_page off lim (filter P L)) L) as Hsub.
  { unfold spec_page. etrans; [apply sublist_take|]. etrans; [apply sublist_drop|].
    apply sublist_filter. }
  eapply elem_of_sublist in Hp; [|exact Hsub]. rewrite Hperm in Hp.
  apply list_elem_of_fmap in Hp as ([k q] & -> & Hkq%elem_of_map_to_list).
  by destruct (Hdb k q Hkq).
Qed.

(** ** The routing layer against the contract *)

Section Refinement.
Context {S : Type} `{!Persistence S, !PersistenceContract S}.
Context (now : Z) (s : S) (Hok : store_ok s).

Lemma list_refines skip limit name :
  in_domain s (ListProducts skip limit name) = true -> step_refines now (ListProducts skip limit name) s.
Proof.
  simpl. intros [Hs%Z.leb_le Hw]%andb_true_iff. unfold step_refines; simpl. unfold list_products.
  destruct (validate_list_query skip limit name) as [[[o l] n]|e] eqn:Hq;
    [|split; [by constructor|done]].
  destruct (validate_list_query_Ok _ _ _ _ _ _ Hq) as [Ho Hl].
  destruct (validate_list_query_fields _ _ _ _ _ _ Hq) as (-> & -> & Ht).
  destruct (law_list s (default 0%Z skip) l name Hok ltac:(lia) Hl) as (L & HL & ->).
  { intros m ->. split; [by apply Ht|done]. }
  rewrite respond_list_ok by (eapply page_read_ok; [apply rows_ok, Hok|exact HL]).
  split; [by apply spec_list|done].
Qed.

Lemma get_refines k : in_domain s (GetProduct k) = true -> step_refines now (GetProduct k) s.
Proof.
  simpl. intros Hk. unfold step_refines; simpl. unfold get_product. rewrite (law_get s k Hok Hk).
  destruct (rows s !! k) as [p|] eqn:Hp; [|split; [by constructor|done]].
  rewrite respond_ok by apply (rows_ok s Hok k p Hp). split; [by constructor|done].
Qed.

Lemma create_refines b : in_domain s (CreateProduct b) = true -> step_refines now (CreateProduct b) s.
Proof.
  simpl. intros [Hst Hr]%andb_true_iff. unfold step_refines; simpl. unfold create_product.
  destruct (validate_create b) as [c|e] eqn:Hv; [|split; [by constructor|done]].
  destruct (law_create now s b c Hok Hv (stock_fits_create b c Hv Hst) Hr)
    as (k & s' & Hk & _ & Hfresh & -> & Hrows & Hok').
  simpl. rewrite respond_ok by (by eapply create_read_ok). rewrite Hrows.
  split; [by apply spec_create|done].
Qed.

Lemma update_refines k b :
  in_domain s (UpdateProduct k b) = true -> step_refines now (UpdateProduct k b) s.
Proof.
  simpl. intros Hd. apply andb_true_iff in Hd as [[[Hk Hnn]%andb_true_iff Hst]%andb_true_iff Hex].
  unfold step_refines; simpl. unfold update_product. rewrite (law_get s k Hok Hk).
  destruct (validate_update b) as [u|e] eqn:Hv; destruct (rows s !! k) as [p|] eqn:Hp;
    [| split; [by constructor|done] | split; [by econstructor|done]
     | by rewrite bool_decide_false in Hex by (by intros [])].
  destruct (rows_ok s Hok k p Hp) as [Hid Hr].
  pose proof Hv as (Hu & Hgn & Hgd & Hgx & Hgs)%validate_update_Ok.
  assert (no_null u) as Hno.
  { rewrite Hu. unfold no_null; simpl.
    destruct (in_name b), (in_price b), (in_stock b); simpl in Hnn; split_and!; congruence. }
  assert (given_ok (fun n => in_int64 n = true) (u_stock u)) as Hgs'
    by (rewrite Hu; by apply stock_fits_given).
  destruct (law_update s p b u Hok ltac:(by rewrite Hid) Hv Hno Hgs') as (s' & -> & Hrows & Hok').
  simpl. rewrite respond_ok by (by apply patch_read_ok). rewrite Hrows, Hid.
  split; [by eapply spec_update|done].
Qed.

Lemma delete_refines k : in_domain s (DeleteProduct k) = true -> step_refines now (DeleteProduct k) s.
Proof.
  simpl. intros Hk. unfold step_refines; simpl. unfold delete_product. rewrite (law_get s k Hok Hk).
  destruct (rows s !! k) as [p|] eqn:Hp; [|split; [by constructor|done]].
  destruct (rows_ok s Hok k p Hp) as [Hid _].
  destruct (law_delete s p Hok ltac:(by rewrite Hid)) as [Hrows Hok']. simpl. rewrite Hrows, Hid.
  split; [by econstructor|done].
Qed.

(** Every request of the domain is a step of the contract. *)
Lemma handle_refines req : in_domain s req = true -> step_refines now req s.
Proof.
  destruct req.
  - apply list_refines.
  - apply get_refines.
  - apply create_refines.
  - apply update_refines.
  - apply delete_refines.
Qed.
End Refinement.

(** For every store that satisfies the contract, the routing layer answers
    every sequence of requests in the domain as a trace of [spec_step]. *)
Lemma run_refines_laws {S : Type} `{!Persistence S, !PersistenceContract S} reqs s :
  store_ok s -> run_in_domain reqs s = true -> spec_trace (rows s) reqs (run reqs s).1 (rows (run reqs s).2).
Proof.
  revert s. induction reqs as [|[now req] rest IH]; intros s Hok Hd; simpl; [constructor|].
  apply andb_true_iff in Hd as [Hd Hrest].
  destruct (handle_refines now s Hok req Hd) as [Hstep Hok1].
  destruct (handle now req s) as [r s1]. simpl in *.
  specialize (IH s1 Hok1 Hrest). destruct (run rest s1) as [rs s2].
  by econstructor.
Qed.

(** ** [crud.py] over the SQLite table satisfies the contract *)

Lemma crud_rows_ok t : table_ok t -> map_Forall (fun k p => prod_id p = k /\ read_ok p) t.
Proof. intros Hok. eapply map_Forall_impl; [exact Hok|]. by intros k p (? & _ & _ & ? & _). Qed.

Lemma crud_law_get t k : table_ok t -> in_int64 k = true -> Crud.get_product t k = Ok (t !! k).
Proof. intros _ Hk. unfold Crud.get_product. by rewrite find_row_spec, Hk. Qed.

Lemma crud_law_list t off lim n :
  table_ok t -> (0 <= off <= INT64_MAX)%Z -> (1 <= lim <= 100)%Z ->
  (forall m, n = Some m -> str_truthy m = true /\ no_wildcards m = true) ->
  exists L, listed_by_id t L
    /\ Crud.get_products t off lim n = Ok (spec_page off lim (filter (fun p => spec_filter n p = true) L)).
Proof.
  intros Hok Ho Hl Hn. exists (scan_by_id t). split; [by apply scan_by_id_listed, table_ok_keys|].
  rewrite get_products_page, sql_page_spec by lia. do 3 f_equal.
  apply list_filter_iff. intros p. by rewrite name_filter_spec.
Qed.

Lemma crud_law_create now t b c :
  table_ok t -> validate_create b = Ok c -> in_int64 (c_stock c) = true -> is_ok (next_rowid t) = true ->
  exists k t', (0 < k)%Z /\ in_int64 k = true /\ t !! k = None
    /\ Crud.create_product now t c = Ok (new_row k now c, t')
    /\ t' = <[k := new_row k now c]> t /\ table_ok t'.
Proof.
  intros Hok Hv Hs Hr. destruct (next_rowid t) as [k|] eqn:Hk; [|done].
  pose proof Hv as (_ & _ & _ & _ & Hx & _)%validate_create_Ok.
  pose proof (create_product_eq now t c k Hk Hs Hx) as Hc.
  exists k, (<[k := new_row k now c]> t). split_and!; [| | |exact Hc|done|].
  - by apply (table_ok_next_rowid t k Hok Hk).
  - by apply (table_ok_next_rowid t k Hok Hk).
  - by apply next_rowid_fresh.
  - by eapply crud_create_table_ok.
Qed.

Lemma crud_law_update t p b u :
  table_ok t -> t !! prod_id p = Some p -> validate_update b = Ok u -> no_null u ->
  given_ok (fun n => in_int64 n = true) (u_stock u) ->
  exists t', Crud.update_product t p u = Ok (patch p u, t')
    /\ t' = <[prod_id p := patch p u]> t /\ table_ok t'.
Proof.
  intros Hok Hp Hv Hno Hs.
  destruct (table_ok_lookup t _ p Hok Hp) as (_ & Hfit & _).
  pose proof Hv as (_ & _ & _ & Hgx & _)%validate_update_Ok.
  pose proof (update_product_eq t p u Hp Hfit Hno Hgx Hs) as Hu.
  eexists. split_and!; [exact Hu|done|]. by eapply crud_update_table_ok.
Qed.

Lemma crud_law_delete t p :
  table_ok t -> t !! prod_id p = Some p ->
  Crud.delete_product t p = delete (prod_id p) t /\ table_ok (Crud.delete_product t p).
Proof. intros Hok _. split; [done|]. by apply map_Forall_delete. Qed.

#[export] Instance crud_contract : PersistenceContract Table := {|
  rows t := t;
  store_ok := table_ok;
  has_room t := is_ok (next_rowid t);
  rows_ok := crud_rows_ok;
  law_get := crud_law_get;
  law_list := crud_law_list;
  law_create := crud_law_create;
  law_update := crud_law_update;
  law_delete := crud_law_delete
|}.

(** ** Theorems *)

(** C10. Trace refinement for the program: from a table that satisfies
    the invariant, every sequence of requests that stays in the domain is
    answered the way the spec's contract allows: the responses and the
    final table of [run] are those of a trace of [spec_step]. The proof is
    the routing layer's refinement against the persistence contract
    ([run_refines_laws]) with [crud_contract] discharging the contract. *)
Theorem run_refines reqs db :
  table_ok db -> run_in_domain reqs db = true ->
  spec_trace db reqs (run reqs db).1 (run reqs db).2.
Proof. exact (run_refines_laws reqs db). Qed.

(** The contract leaves nothing open but the id of a new row: for
    every request other than [POST], two steps from the same table give
    the same response and the same table (the listing order is determined
    because ids are unique). So [run_refines] fixes every response and
    every table the code produces, up to the ids it assigns. *)
Theorem spec_deterministic now req db r1 db1 r2 db2 :
  (forall b, req <> CreateProduct b) ->
  spec_step now req db r1 db1 -> spec_step now req db r2 db2 -> r1 = r2 /\ db1 = db2.
Proof.
  intros Hc H1 H2. destruct H1; inversion H2; subst; try by destruct (Hc b).
  all: try (split; congruence).
  match goal with
  | HL : listed_by_id _ ?L, HL0 : listed_by_id _ ?L0 |- _ =>
      rewrite (listed_by_id_unique _ L L0 HL HL0)
  end.
  match goal with Ha : ?x = Ok _, Hb : ?x = Ok _ |- _ => rewrite Ha in Hb; by simplify_eq end.
Qed.

(** ** Witnesses *)

(** The spec's scenario, as a sequence of timed requests. *)
Definition scenario : list (Z * Request) :=
  [(0%Z, CreateProduct ex_body);
   (1%Z, UpdateProduct 3 (mkProductIn Unset Unset (Given 6%float) (Given 40%Z)));
   (2%Z, ListProducts None None (Some "keto"));
   (3%Z, DeleteProduct 3);
   (4%Z, GetProduct 3)].

Lemma run_refines_witness :
  run_in_domain scenario ex_db = true
  /\ spec_trace ex_db scenario (run scenario ex_db).1 (run scenario ex_db).2.
Proof.
  assert (run_in_domain scenario ex_db = true) as Hd by (vm_compute; reflexivity).
  split; [exact Hd|]. exact (run_refines scenario ex_db ex_db_table_ok Hd).
Defined.

Lemma spec_deterministic_witness :
  spec_step 0 (GetProduct 1) ex_db (mkResponse 200 (BProduct ex_p1)) ex_db
  /\ forall r db', spec_step 0 (GetProduct 1) ex_db r db' ->
       r = mkResponse 200 (BProduct ex_p1) /\ db' = ex_db.
Proof.
  assert (spec_step 0 (GetProduct 1) ex_db (mkResponse 200 (BProduct ex_p1)) ex_db) as H
    by (constructor; reflexivity).
  split; [exact H|]. intros r db' H'.
  destruct (spec_deterministic 0 (GetProduct 1) ex_db _ _ _ _ ltac:(discriminate) H H') as [-> ->].
  split; reflexivity.
Defined.
