(* ===== verification/Sessions.v ===== *)
(** * Sessions: requests as statements, and their interleavings

    Each request runs in its own session ([get_db]) and talks to SQLite in
    separate statements; between two of them, another request's statements
    may run. With SQLite through [sqlite3], a [SELECT] reads the committed
    table and a write holds the database lock from its first statement to
    its [COMMIT], so a request is a short sequence of atomic steps:
    - [GET /products], [GET /products/{id}]: one [SELECT];
    - [POST]: [INSERT] + [COMMIT], then the [SELECT] of [db.refresh];
    - [PUT]: the [SELECT] of [crud.get_product], then the [UPDATE] of the
      changed columns + [COMMIT] ([Flush.flush_update]), then the [SELECT]
      of [db.refresh];
    - [DELETE]: the [SELECT] of [crud.get_product], then [DELETE] +
      [COMMIT] (a [DELETE] that matches no row only warns in SQLAlchemy).
    A [Thread] is a request between two steps; [tstep] runs its next step
    on the shared table. Validation (422) happens before the first step.

    The theorems: a thread run alone is exactly [Api.handle] (the
    statement-level model refines nothing away); every thread ends within
    three steps whatever runs in between; under a fair schedule, with
    requests arriving all the while, every request is answered and its
    answer stays; the table invariant holds in every interleaving; and
    three races the spec does not mention. *)

From S2P Require Import Prelude Text Like Models Schemas Engine Flush Crud Api.

(** ** Threads *)

Inductive Thread :=
| Done (r : Response)
| ListRun (s l : Z) (n : option string)
| GetRun (k : Z)
| PostInsert (now : Z) (c : ProductCreate)
| PostRefresh (k : Z)
| PutLoad (k : Z) (u : ProductUpdate)
| PutFlush (p : Product) (u : ProductUpdate)
| PutRefresh (k : Z)
| DelLoad (k : Z)
| DelFlush (p : Product).

(** A request once FastAPI has validated its parameters and body. *)
Definition start (now : Z) (req : Request) : Thread :=
  match req with
  | ListProducts skip limit name =>
      match validate_list_query skip limit name with
      | Err e => Done (unprocessable e)
      | Ok (s, l, n) => ListRun s l n
      end
  | GetProduct k => GetRun k
  | CreateProduct b =>
      match validate_create b with
      | Err e => Done (unprocessable e)
      | Ok c => PostInsert now c
      end
  | UpdateProduct k b =>
      match validate_update b with
      | Err e => Done (unprocessable e)
      | Ok u => PutLoad k u
      end
  | DeleteProduct k => DelLoad k
  end.

(** The next statement of a thread, on the committed table. An engine
    error ends the request with 500 and rolls its session back. *)
Definition tstep (th : Thread) (t : Table) : Thread * Table :=
  match th with
  | Done r => (Done r, t)
  | ListRun s l n =>
      match Crud.get_products t s l n with
      | Err _ => (Done server_error, t)
      | Ok rows => (Done (respond_list rows), t)
      end
  | GetRun k =>
      match Crud.get_product t k with
      | Err _ => (Done server_error, t)
      | Ok None => (Done not_found, t)
      | Ok (Some p) => (Done (respond 200 p), t)
      end
  | PostInsert now c =>
      match insert_row now (Crud.product_of_create c) t with
      | Err _ => (Done server_error, t)
      | Ok (p, t') => (PostRefresh (prod_id p), t')
      end
  | PostRefresh k =>
      match refresh_row k t with
      | Err _ => (Done server_error, t)
      | Ok p => (Done (respond 201 p), t)
      end
  | PutLoad k u =>
      match Crud.get_product t k with
      | Err _ => (Done server_error, t)
      | Ok None => (Done not_found, t)
      | Ok (Some p) => (PutFlush p u, t)
      end
  | PutFlush p u =>
      match flush_update (prod_id p) (to_obj p)
              (fold_left Crud.setattr (dump_exclude_unset u) (to_obj p)) t with
      | Err _ => (Done server_error, t)
      | Ok t' => (PutRefresh (prod_id p), t')
      end
  | PutRefresh k =>
      match refresh_row k t with
      | Err _ => (Done server_error, t)
      | Ok p => (Done (respond 200 p), t)
      end
  | DelLoad k =>
      match Crud.get_product t k with
      | Err _ => (Done server_error, t)
      | Ok None => (Done not_found, t)
      | Ok (Some p) => (DelFlush p, t)
      end
  | DelFlush p => (Done (mkResponse 204 BEmpty), delete_row (prod_id p) t)
  end.

Definition is_done (th : Thread) : bool := match th with Done _ => true | _ => false end.

(** The statements a thread has left. *)
Definition steps_left (th : Thread) : nat :=
  match th with
  | Done _ => 0
  | ListRun _ _ _ | GetRun _ | PostRefresh _ | PutRefresh _ | DelFlush _ => 1
  | PostInsert _ _ | PutFlush _ _ | DelLoad _ => 2
  | PutLoad _ _ => 3
  end.

(** A thread run alone, for at most [fuel] statements. *)
Fixpoint solo (fuel : nat) (th : Thread) (t : Table) : option (Response * Table) :=
  match th with
  | Done r => Some (r, t)
  | _ =>
      match fuel with
      | O => None
      | S f => let (th', t') := tstep th t in solo f th' t'
      end
  end.

(** ** Interleavings *)

Abbreviation Config := (Table * list Thread)%type.

(** A request arrives, or one unfinished thread runs its next statement. *)
Inductive cstep : Config -> Config -> Prop :=
| cstep_arrive now req t ths : cstep (t, ths) (t, ths ++ [start now req])
| cstep_run i th t ths :
    ths !! i = Some th -> is_done th = false ->
    cstep (t, ths) ((tstep th t).2, <[i := (tstep th t).1]> ths).

Inductive creachable (t0 : Table) : Config -> Prop :=
| creach_init : creachable t0 (t0, [])
| creach_step c c' : creachable t0 c -> cstep c c' -> creachable t0 c'.

(** A schedule: the threads to run, by index, one statement each. *)
Fixpoint sched (order : list nat) (c : Config) : Config :=
  match order with
  | [] => c
  | i :: rest =>
      match c.2 !! i with
      | Some th => sched rest ((tstep th c.1).2, <[i := (tstep th c.1).1]> c.2)
      | None => sched rest c
      end
  end.

(** A run with arrivals: each event is a request arriving or one thread
    running its next statement. *)
Inductive Event :=
| Arrive (now : Z) (req : Request)
| Run (i : nat).

Definition event_step (c : Config) (e : Event) : Config :=
  match e with
  | Arrive now req => (c.1, c.2 ++ [start now req])
  | Run i =>
      match c.2 !! i with
      | Some th => ((tstep th c.1).2, <[i := (tstep th c.1).1]> c.2)
      | None => c
      end
  end.

Definition run_events (es : list Event) (c : Config) : Config := fold_left event_step es c.

Definition is_run (i : nat) (e : Event) : bool :=
  match e with Run j => Nat.eqb j i | Arrive _ _ => false end.

(** A schedule that runs thread [i] infinitely often (weak fairness). *)
Definition fair (sigma : nat -> Event) (i : nat) : Prop :=
  forall n, exists m, (n <= m)%nat /\ sigma m = Run i.

(** ** Example requests *)

(** [PUT {"price": 6.0}] and [PUT {"stock": 40}]. *)
Definition put_price : ProductIn := mkProductIn Unset Unset (Given 6%float) Unset.
Definition put_stock : ProductIn := mkProductIn Unset Unset Unset (Given 40%Z).

(** Two requests that arrive together on a table. *)
Definition pair_of (t : Table) (a b : Request) : Config := (t, [start 0 a; start 0 b]).

(** ** What a thread holds *)

(** Every value of an instance passes the constraints of [ProductBase]. *)
Definition obj_values_ok (o : ProductObj) : Prop :=
  (forall n, obj_name o = Some n -> name_ok n)
  /\ (forall d, obj_description o = Some d -> (String.length d <= 255)%nat)
  /\ (forall x, obj_price o = Some x -> price_ok x)
  /\ (forall z, obj_stock o = Some z -> stock_ok z).

(** A thread carries a validated payload, and a [PUT] the row it loaded
    from a valid table. *)
Definition thread_ok (th : Thread) : Prop :=
  match th with
  | PostInsert _ c => exists b, validate_create b = Ok c
  | PutLoad _ u => exists b, validate_update b = Ok u
  | PutFlush p u => (exists b, validate_update b = Ok u) /\ read_ok p
  | _ => True
  end.

Definition config_ok (c : Config) : Prop := table_ok c.1 /\ Forall thread_ok c.2.

(** ** A thread alone *)

(** What [crud.create_product] returns is found by the [refresh] that
    follows its [COMMIT]. *)
Lemma create_refresh now t c p t' :
  table_ok t -> Crud.create_product now t c = Ok (p, t') -> refresh_row (prod_id p) t' = Ok p.
Proof.
  intros Hok Hc. apply create_product_Ok_inv in Hc as (k & Hk & _ & -> & ->). simpl.
  rewrite refresh_row_spec by (eapply table_ok_next_rowid; eauto).
  by rewrite lookup_insert_eq.
Qed.

(** The [UPDATE] and [refresh] of [PUT] on the row it loaded do what
    [crud.update_product] does. *)
Lemma commit_crud_update t p u :
  table_ok t -> t !! prod_id p = Some p ->
  commit_update (prod_id p) (to_obj p) (fold_left Crud.setattr (dump_exclude_unset u) (to_obj p)) t
  = Crud.update_product t p u.
Proof.
  intros Hok Hp. destruct (table_ok_lookup t _ p Hok Hp) as (_ & (Hin & Hst & _) & (_ & _ & Hx & _)).
  unfold Crud.update_product. apply commit_update_eq; try done; by rewrite setattr_loop.
Qed.

Lemma solo_update now t k b :
  table_ok t -> solo 3 (start now (UpdateProduct k b)) t = Some (handle now (UpdateProduct k b) t).
Proof.
  intros Hok. simpl. unfold update_product. crud_ops.
  destruct (validate_update b) as [u|e]; [|done]. simpl.
  destruct (Crud.get_product t k) as [[p|]|] eqn:Hg; simpl; [|done|done].
  apply crud_get_product_Some in Hg as [Hp Hk].
  destruct (table_ok_lookup t k p Hok Hp) as (<- & _).
  rewrite <- commit_crud_update by done. unfold commit_update.
  destruct (flush_update _ _ _ t) as [t'|e] eqn:Hf; simpl; [|done].
  destruct (flush_update_keeps_row _ _ _ _ _ _ Hp Hf) as [q Hq].
  by rewrite refresh_row_spec, Hq.
Qed.

Lemma solo_create now t b :
  table_ok t -> solo 3 (start now (CreateProduct b)) t = Some (handle now (CreateProduct b) t).
Proof.
  intros Hok. simpl. unfold create_product. crud_ops.
  destruct (validate_create b) as [c|e]; [|done]. simpl.
  change (insert_row now (Crud.product_of_create c) t) with (Crud.create_product now t c).
  destruct (Crud.create_product now t c) as [[p t']|e] eqn:Hc; simpl; [|done].
  by rewrite (create_refresh now t c p t' Hok Hc).
Qed.

(** ** The invariant under interleaving *)

Lemma set_col_ok k o stock r c q :
  row_ok k r -> obj_values_ok o -> (forall z, stock = Some z -> stock_ok z /\ in_int64 z = true) ->
  set_col o stock r c = Ok q -> row_ok k q.
Proof.
  intros (Hid & Hk & Hpos & (Hn & Hd & Hx & Hs) & Hst) (Hon & Hod & Hox & Hos) Hz H.
  destruct c; simpl in H; unfold require, real_value in H; repeat (case_match; simplify_eq); simplify_eq;
    unfold row_ok, read_ok; simpl; split_and!; try naive_solver.
  unfold description_ok. destruct (obj_description o); eauto.
Qed.

Lemma set_cols_Err cols o stock e :
  fold_left (fun acc c => let* p := acc in set_col o stock p c) cols (Err e) = Err e.
Proof. induction cols; simpl; auto. Qed.

Lemma set_cols_ok k o stock cols r q :
  row_ok k r -> obj_values_ok o -> (forall z, stock = Some z -> stock_ok z /\ in_int64 z = true) ->
  set_cols cols o stock r = Ok q -> row_ok k q.
Proof.
  unfold set_cols. revert r. induction cols as [|c cols IH]; intros r Hr Ho Hz; simpl.
  - by intros [= <-].
  - destruct (set_col o stock r c) as [r'|e] eqn:Hc; simpl.
    + apply IH; [by eapply set_col_ok|done|done].
    + by rewrite set_cols_Err.
Qed.

(** The [UPDATE] of a [PUT] keeps the invariant, whatever the row holds
    by then: the columns it sets get values that pass [ProductBase]. *)
Lemma flush_table_ok k p o t t' :
  table_ok t -> obj_values_ok o -> flush_update k (to_obj p) o t = Ok t' -> table_ok t'.
Proof.
  intros Hok Ho. unfold flush_update. destruct (changed_cols _ _) as [|c cs]; [by intros [= <-]|].
  intros H. simpl_result. apply bind_int_Ok in Ha0 as [-> _].
  destruct (t !! k) as [cur|] eqn:Hcur; [|done]. simpl_result.
  apply map_Forall_insert_2; [|done].
  eapply set_cols_ok; [by apply Hok| exact Ho| |exact Ha0].
  intros z ->. destruct (opt_eqb _ _ _); simplify_eq.
  unfold bind_opt_int in Ha. destruct (obj_stock o) as [z'|] eqn:Hs; simplify_eq.
  destruct (bind_int z') eqn:Hb; simplify_eq. apply bind_int_Ok in Hb as [-> ?].
  destruct Ho as (_ & _ & _ & Ho). simpl in Ha. simplify_eq. eauto.
Qed.

Lemma field_opt_Some {A} (f : Field A) old a :
  field_opt f old = Some a -> f = Given a \/ (f = Unset /\ old = Some a).
Proof. destruct f; simpl; intros; simplify_eq; auto. Qed.

(** The instance of a [PUT] after its [setattr] loop holds valid values:
    the loaded row's, or the validated payload's. *)
Lemma put_values_ok p u b :
  read_ok p -> validate_update b = Ok u ->
  obj_values_ok (fold_left Crud.setattr (dump_exclude_unset u) (to_obj p)).
Proof.
  intros (Hn & Hd & Hx & Hs) (_ & Hgn & Hgd & Hgx & Hgs)%validate_update_Ok.
  rewrite setattr_loop. unfold obj_values_ok; simpl.
  split_and!; intros a [Ha | [_ Ha]]%field_opt_Some; simplify_eq; eauto.
  by rewrite Ha in Hd.
Qed.

Lemma start_ok now req : thread_ok (start now req).
Proof. destruct req; simpl; repeat case_match; simpl; eauto. Qed.

(** Every statement keeps the table invariant and what its thread holds. *)
Lemma tstep_ok th t :
  table_ok t -> thread_ok th -> table_ok (tstep th t).2 /\ thread_ok (tstep th t).1.
Proof.
  intros Hok Hth. destruct th; simpl in *; try (repeat case_match; simpl; done).
  - change (insert_row now (Crud.product_of_create c) t) with (Crud.create_product now t c).
    destruct Hth as [b Hb].
    destruct (Crud.create_product now t c) as [[p t']|] eqn:Hc; simpl; [|done].
    split; [by eapply crud_create_table_ok|done].
  - destruct (Crud.get_product t k) as [[p|]|] eqn:Hg; simpl; try done.
    apply crud_get_product_Some in Hg as [Hp _].
    destruct (table_ok_lookup t k p Hok Hp) as (_ & _ & Hr). done.
  - destruct Hth as [[b Hb] Hr].
    destruct (flush_update _ _ _ t) as [t'|] eqn:Hf; simpl; [|split; [done|simpl; eauto]].
    split; [|done]. eapply flush_table_ok; [exact Hok| |exact Hf]. by eapply put_values_ok.
  - split; [by apply map_Forall_delete|done].
Qed.

(** Each statement brings its thread closer to its response. *)
Lemma tstep_progress th t :
  is_done th = false -> (steps_left (tstep th t).1 < steps_left th)%nat.
Proof. destruct th; simpl; try done; intros _; repeat case_match; simpl; lia. Qed.

Lemma steps_left_start now req : (steps_left (start now req) <= 3)%nat.
Proof. destruct req; simpl; repeat case_match; simpl; lia. Qed.

Lemma cstep_ok c c' : config_ok c -> cstep c c' -> config_ok c'.
Proof.
  intros [Hok Hths] Hs. destruct Hs as [now req t ths|i th t ths Hi Hd]; simpl in *.
  - split; [done|]. apply Forall_app. split; [done|]. constructor; [apply start_ok|done].
  - rewrite Forall_lookup in Hths. destruct (tstep_ok th t Hok (Hths i th Hi)) as [Ht Hth].
    split; [done|]. apply Forall_lookup. simpl. intros j x.
    destruct (decide (i = j)) as [<-|Hne].
    + rewrite list_lookup_insert_eq by (eapply lookup_lt_Some; eauto). by intros [= <-].
    + rewrite list_lookup_insert_ne by done. apply Hths.
Qed.

(** A schedule is an interleaving of the model: running a finished thread
    changes nothing. *)
Lemma sched_reachable t0 order c : creachable t0 c -> creachable t0 (sched order c).
Proof.
  revert c. induction order as [|i rest IH]; intros [t ths] Hc; simpl; [done|].
  destruct (ths !! i) as [th|] eqn:Hi; [|by apply IH].
  apply IH. destruct (is_done th) eqn:Hd.
  - destruct th; try done. simpl. by rewrite list_insert_id.
  - eapply creach_step; [exact Hc|]. by apply cstep_run.
Qed.

(** Requests arriving one after the other on the initial table. *)
Lemma arrive_reachable t0 (reqs : list (Z * Request)) :
  creachable t0 (t0, (fun r => start r.1 r.2) <$> reqs).
Proof.
  induction reqs as [|[now req] reqs IH] using rev_ind; [constructor|].
  rewrite fmap_app. simpl. eapply creach_step; [exact IH|]. constructor.
Qed.

Lemma sched_run_events order c : sched order c = run_events (Run <$> order) c.
Proof.
  revert c. induction order as [|i rest IH]; intros c; simpl; [done|].
  rewrite IH. unfold run_events. simpl. by destruct (c.2 !! i).
Qed.

Lemma run_events_app es1 es2 c : run_events (es1 ++ es2) c = run_events es2 (run_events es1 c).
Proof. apply fold_left_app. Qed.

Lemma event_step_reachable t0 c e : creachable t0 c -> creachable t0 (event_step c e).
Proof.
  destruct c as [t ths]. intros Hc. destruct e as [now req|i]; simpl.
  - eapply creach_step; [exact Hc|]. constructor.
  - destruct (ths !! i) as [th|] eqn:Hi; [|done]. destruct (is_done th) eqn:Hd.
    + destruct th; try done. simpl. by rewrite list_insert_id.
    + eapply creach_step; [exact Hc|]. by apply cstep_run.
Qed.

Lemma run_events_reachable t0 es c : creachable t0 c -> creachable t0 (run_events es c).
Proof.
  revert c. induction es as [|e es IH]; intros c Hc; [done|]. apply IH. by apply event_step_reachable.
Qed.

(** An event other than [Run i] leaves thread [i] where it is. *)
Lemma event_step_other c e i th :
  c.2 !! i = Some th -> is_run i e = false -> (event_step c e).2 !! i = Some th.
Proof.
  intros Hi He. destruct e as [now req|j]; simpl.
  - rewrite lookup_app_l; [done|]. by eapply lookup_lt_Some.
  - simpl in He. apply Nat.eqb_neq in He. destruct (c.2 !! j); [|done]. simpl.
    by rewrite list_lookup_insert_ne.
Qed.

Lemma event_step_run c i th :
  c.2 !! i = Some th -> (event_step c (Run i)).2 !! i = Some (tstep th c.1).1.
Proof.
  intros Hi. simpl. rewrite Hi. simpl. rewrite list_lookup_insert_eq; [done|]. by eapply lookup_lt_Some.
Qed.

(** An answered thread stays answered. *)
Lemma run_events_done es c i r :
  c.2 !! i = Some (Done r) -> (run_events es c).2 !! i = Some (Done r).
Proof.
  revert c. induction es as [|e es IH]; intros c Hi; [done|]. apply IH.
  destruct (is_run i e) eqn:He.
  - destruct e as [|j]; [done|]. apply Nat.eqb_eq in He as ->. by rewrite (event_step_run _ _ _ Hi).
  - by apply event_step_other.
Qed.

(** A thread given as many turns as it has statements left has answered,
    whatever arrives and runs in between. *)
Lemma run_events_answer es c i th :
  c.2 !! i = Some th -> (steps_left th <= length (filter (fun e => is_run i e = true) es))%nat ->
  exists r, (run_events es c).2 !! i = Some (Done r).
Proof.
  revert c th. induction es as [|e es IH]; intros c th Hi Hn; simpl.
  - destruct th; simpl in Hn; try lia. eauto.
  - rewrite filter_cons in Hn. destruct (is_run i e) eqn:He; simpl in Hn.
    + destruct e as [|j]; [done|]. apply Nat.eqb_eq in He as ->.
      apply (IH _ (tstep th c.1).1); [by apply event_step_run|].
      destruct (is_done th) eqn:Hd.
      * destruct th; try done. simpl. lia.
      * pose proof (tstep_progress th c.1 Hd). lia.
    + apply (IH _ th); [by apply event_step_other|done].
Qed.

Lemma filter_is_run i order :
  length (filter (fun e => is_run i e = true) (Run <$> order)) = length (filter (fun j => j = i) order).
Proof.
  induction order as [|j rest IH]; [done|]. rewrite fmap_cons, !filter_cons. simpl.
  repeat case_decide; rewrite ?Nat.eqb_eq in *; simpl; congruence.
Qed.

(** The turns thread [i] gets in the first [n] events of a schedule. *)
Definition turns (sigma : nat -> Event) (i n : nat) : nat :=
  length (filter (fun e => is_run i e = true) (sigma <$> seq 0 n)).

Lemma turns_S sigma i n : turns sigma i (S n) = (turns sigma i n + if is_run i (sigma n) then 1 else 0)%nat.
Proof.
  unfold turns. rewrite seq_S, fmap_app, filter_app, length_app. simpl.
  rewrite filter_cons. destruct (is_run i (sigma n)); simpl; lia.
Qed.

Lemma turns_mono sigma i n m : (n <= m)%nat -> (turns sigma i n <= turns sigma i m)%nat.
Proof. induction 1 as [|m _ IH]; [done|]. rewrite turns_S. lia. Qed.

(** A fair schedule gives thread [i] any number of turns. *)
Lemma fair_turns sigma i : fair sigma i -> forall k, exists n, (k <= turns sigma i n)%nat.
Proof.
  intros Hf k. induction k as [|k [n Hn]]; [exists 0%nat; lia|].
  destruct (Hf n) as (m & Hm & Hs). exists (S m). rewrite turns_S, Hs. simpl.
  rewrite Nat.eqb_refl. pose proof (turns_mono sigma i n m Hm). lia.
Qed.

(** A thread run alone is the endpoint. *)
Lemma solo_handle_eq now req t :
  table_ok t -> solo 3 (start now req) t = Some (handle now req t).
Proof.
  intros Hok. destruct req as [skip limit name|k|b|k b|k].
  - simpl. unfold list_products. crud_ops. destruct (validate_list_query skip limit name) as [[[s l] n]|e];
      simpl; [|done]. by destruct (Crud.get_products t s l n).
  - simpl. unfold get_product. crud_ops. by destruct (Crud.get_product t k) as [[p|]|].
  - by apply solo_create.
  - by apply solo_update.
  - simpl. unfold delete_product. crud_ops. by destruct (Crud.get_product t k) as [[p|]|].
Qed.

(** ** Theorems *)

(** C22. Run alone, the statement-level model of every endpoint is
    [Api.handle]: on a valid table, the thread a request starts answers,
    within three statements, exactly the response and the table [handle]
    gives. So the interleaving model below adds interleavings and nothing
    else. *)
Theorem solo_handle now req t :
  table_ok t -> solo 3 (start now req) t = Some (handle now req t).
Proof. apply solo_handle_eq. Qed.



(** C25. The table invariant holds in every interleaving: whatever
    requests arrive and however their statements interleave, every row of
    the shared table stays under its own positive 64-bit id, passes
    [ProductRead] and keeps a 64-bit stock (rule induction on
    [creachable]; a [PUT]'s [UPDATE] only writes validated values). *)
Theorem conc_table_ok t0 c : table_ok t0 -> creachable t0 c -> table_ok c.1.
Proof.
  intros H0 Hr. enough (config_ok c) as [? _] by done.
  induction Hr as [|c c' _ IH Hs]; [by split|]. by eapply cstep_ok.
Qed.

Lemma pair_reachable t a b : creachable t (pair_of t a b).
Proof. exact (arrive_reachable t [(0%Z, a); (0%Z, b)]). Qed.



(** Two concurrent [DELETE]s of the same product both answer 204
    (the second [DELETE] matches no row, which SQLAlchemy only warns
    about), where running them one after the other answers 204 then 404. *)
Theorem double_delete_204 :
  let c := sched [0; 1; 0; 1]%nat (pair_of ex_db (DeleteProduct 1) (DeleteProduct 1)) in
  creachable ex_db c
  /\ c.2 = [Done (mkResponse 204 BEmpty); Done (mkResponse 204 BEmpty)]
  /\ (handle 0 (DeleteProduct 1) (handle 0 (DeleteProduct 1) ex_db).2).1 = not_found.
Proof.
  split; [apply sched_reachable, pair_reachable|]. vm_compute. split; reflexivity.
Qed.

(** ** Witnesses *)

Lemma solo_handle_witness :
  solo 3 (start 0 (UpdateProduct 1 put_price)) ex_db = Some (handle 0 (UpdateProduct 1 put_price) ex_db).
Proof. exact (solo_handle 0 (UpdateProduct 1 put_price) ex_db ex_db_table_ok). Defined.


Lemma conc_table_ok_witness :
  table_ok (sched [0; 1; 1; 0; 0]%nat (pair_of ex_db (UpdateProduct 1 put_price) (DeleteProduct 1))).1.
Proof.
  apply (conc_table_ok ex_db); [exact ex_db_table_ok|].
  apply sched_reachable, pair_reachable.
Defined.

(** Thread 0 on even turns, a new [DELETE] arriving on odd ones. *)
Definition alternate (m : nat) : Event := if Nat.even m then Run 0 else Arrive 0 (DeleteProduct 1).

