(* ===== verification/Serial.v ===== *)
(** * Serial: interleaved requests on distinct rows are serializable

    [GET], [PUT] and [DELETE] of [/products/{id}] read and write only the
    row of their id: every statement of their threads ([Sessions]) looks
    the row up by its primary key and writes at most that row. So when
    concurrent requests name distinct ids, their statements commute, and
    any interleaving that lets every request finish answers each request
    and leaves the table exactly as running them one after the other
    ([Contract.run]) does. Composed with [Contract.run_refines], such
    interleaved runs are traces of the spec's contract.

    The proof: a thread's step depends only on the row of its key and
    changes only that row ([tstep_agree], [tstep_frame]); along any
    schedule, each thread is where its run alone on the initial table
    would be, and the shared table holds at each key what that run wrote
    ([serial_inv]); a thread that has answered did so as [handle] does
    ([sreach_solo] and [Sessions.solo_handle_eq]); and the serial run
    computes the same rows ([run_local]). *)

From S2P Require Import Prelude Text Like Models Schemas Engine Flush Crud Api Contract Sessions.

(** ** Threads on one row *)

(** The id a request names, for the routes with an id. *)
Definition row_request (req : Request) : option Z :=
  match req with
  | GetProduct k | UpdateProduct k _ | DeleteProduct k => Some k
  | _ => None
  end.

(** The row a thread reads and writes, if it touches one row only. *)
Definition key_of (th : Thread) : option Z :=
  match th with
  | GetRun k | PutLoad k _ | PutRefresh k | DelLoad k | PostRefresh k => Some k
  | PutFlush p _ | DelFlush p => Some (prod_id p)
  | Done _ | ListRun _ _ _ | PostInsert _ _ => None
  end.

(** A thread that has answered, or runs on row [k]. *)
Definition keyed (k : Z) (th : Thread) : Prop := is_done th = true \/ key_of th = Some k.

(** ** Each statement on its row *)

Lemma find_row_agree k t1 t2 : t1 !! k = t2 !! k -> find_row k t1 = find_row k t2.
Proof.
  intros H. unfold find_row. destruct (bind_int k) eqn:Hb; simpl; [|done].
  apply bind_int_Ok in Hb as [-> _]. by rewrite H.
Qed.

Lemma refresh_row_agree k t1 t2 : t1 !! k = t2 !! k -> refresh_row k t1 = refresh_row k t2.
Proof. intros H. unfold refresh_row. by rewrite (find_row_agree k t1 t2 H). Qed.

(** The [UPDATE] of row [k] fails on two tables that agree at [k] with the
    same error, or succeeds on both with the same row [k], and changes no
    other row. *)
Lemma flush_update_agree k old o t1 t2 :
  t1 !! k = t2 !! k ->
  match flush_update k old o t1, flush_update k old o t2 with
  | Ok t1', Ok t2' => t1' !! k = t2' !! k
  | Err e1, Err e2 => e1 = e2
  | _, _ => False
  end.
Proof.
  intros H. unfold flush_update. destruct (changed_cols old o) as [|c cs]; [done|].
  destruct (if opt_eqb _ _ _ then _ else _) as [stock|]; simpl; [|done].
  destruct (bind_int k) as [k'|] eqn:Hk; simpl; [|done].
  apply bind_int_Ok in Hk as [-> _]. rewrite H.
  destruct (t2 !! k); [|done]. destruct (set_cols _ _ _ _); simpl; [|done].
  by rewrite !lookup_insert_eq.
Qed.

Lemma flush_update_frame k old o t t' j :
  flush_update k old o t = Ok t' -> j <> k -> t' !! j = t !! j.
Proof.
  unfold flush_update. destruct (changed_cols old o); [by intros [= <-]|].
  intros H Hj. simpl_result. apply bind_int_Ok in Ha0 as [-> _].
  destruct (t !! k); [|done]. simpl_result. by rewrite lookup_insert_ne.
Qed.

(** A thread's next statement sees only the row of its key: on two tables
    that agree there, it goes to the same state and leaves the same row. *)
Lemma tstep_agree th k t1 t2 :
  keyed k th -> t1 !! k = t2 !! k ->
  (tstep th t1).1 = (tstep th t2).1 /\ (tstep th t1).2 !! k = (tstep th t2).2 !! k.
Proof.
  intros [Hd|Hk] H; [destruct th; done|].
  destruct th; simpl in Hk; simplify_eq; simpl;
    unfold Crud.get_product; rewrite ?(find_row_agree _ t1 t2 H), ?(refresh_row_agree _ t1 t2 H).
  - by repeat case_match.
  - by repeat case_match.
  - by repeat case_match.
  - pose proof (flush_update_agree (prod_id p) (to_obj p)
      (fold_left Crud.setattr (dump_exclude_unset u) (to_obj p)) t1 t2 H) as Hag.
    destruct (flush_update _ _ _ t1), (flush_update _ _ _ t2); by simplify_eq.
  - by repeat case_match.
  - by repeat case_match.
  - unfold delete_row. by rewrite !lookup_delete_eq.
Qed.

(** ... and changes no other row. *)
Lemma tstep_frame th k t j : keyed k th -> j <> k -> (tstep th t).2 !! j = t !! j.
Proof.
  intros [Hd|Hk] Hj; [by destruct th|].
  destruct th; simpl in Hk; simplify_eq; simpl; try by repeat case_match.
  - destruct (flush_update _ _ _ t) eqn:Hf; simpl; [|done]. by eapply flush_update_frame.
  - unfold delete_row. by rewrite lookup_delete_ne.
Qed.

(** On a valid table, a thread stays on its row until it answers. *)
Lemma tstep_keyed th k t : table_ok t -> keyed k th -> keyed k (tstep th t).1.
Proof.
  intros Hok [Hd|Hk]; [destruct th; try done; by left|].
  destruct th; simpl in Hk; simplify_eq; simpl;
    try (repeat case_match; simpl; first [by left | by right]).
  all: destruct (Crud.get_product t k) as [[p|]|] eqn:Hg; simpl; try by left.
  all: right; simpl; apply crud_get_product_Some in Hg as [Hp _];
       by destruct (table_ok_lookup t k p Hok Hp) as (-> & _).
Qed.

Lemma start_keyed now req k : row_request req = Some k -> keyed k (start now req).
Proof. destruct req; simpl; intros; simplify_eq; try case_match; first [by left | by right]. Qed.

(** ** A thread alone *)

Lemma solo_S th f t :
  is_done th = false -> solo (S f) th t = solo f (tstep th t).1 (tstep th t).2.
Proof.
  intros Hd. change (solo (S f) th t) with
    (match th with Done r => Some (r, t) | _ => let (th', t') := tstep th t in solo f th' t' end).
  destruct th; try done; by destruct (tstep _ t).
Qed.

Lemma solo_Done f r t : solo f (Done r) t = Some (r, t).
Proof. by destruct f. Qed.

(** Run alone on two valid tables that agree at its row, a thread gives
    the same response and leaves the same row. *)
Lemma solo_agree f th k t1 t2 :
  table_ok t1 -> table_ok t2 -> thread_ok th -> keyed k th -> t1 !! k = t2 !! k ->
  match solo f th t1, solo f th t2 with
  | Some (r1, T1), Some (r2, T2) => r1 = r2 /\ T1 !! k = T2 !! k
  | None, None => True
  | _, _ => False
  end.
Proof.
  revert th t1 t2. induction f as [|f IH]; intros th t1 t2 Hok1 Hok2 Hth Hk H.
  - destruct th; simpl; auto.
  - destruct (is_done th) eqn:Hd; [destruct th; try done; simpl; auto|].
    rewrite !solo_S by done.
    destruct (tstep_agree th k t1 t2 Hk H) as [Hs Hrow]. rewrite Hs in *.
    destruct (tstep_ok th t1 Hok1 Hth) as [Hok1' Hth'].
    destruct (tstep_ok th t2 Hok2 Hth) as [Hok2' _].
    rewrite Hs in Hth'. apply IH; try done. rewrite <- Hs. by apply tstep_keyed.
Qed.

(** ... and changes no other row. *)
Lemma solo_frame f th k t r T j :
  keyed k th -> table_ok t -> thread_ok th -> solo f th t = Some (r, T) -> j <> k -> T !! j = t !! j.
Proof.
  revert th t. induction f as [|f IH]; intros th t Hk Hok Hth Hs Hj.
  - destruct th; simpl in Hs; by simplify_eq.
  - destruct (is_done th) eqn:Hd; [destruct th; simpl in Hs; by simplify_eq|].
    rewrite solo_S in Hs by done. rewrite <- (tstep_frame th k t j Hk Hj).
    destruct (tstep_ok th t Hok Hth) as [Hok' Hth'].
    apply (IH (tstep th t).1 (tstep th t).2); [by apply tstep_keyed|exact Hok'|exact Hth'|exact Hs|done].
Qed.

(** ** A request on one row *)

(** [handle] of a request with an id reads only the row of the id ... *)
Lemma handle_agree now req k t1 t2 :
  row_request req = Some k -> table_ok t1 -> table_ok t2 -> t1 !! k = t2 !! k ->
  (handle now req t1).1 = (handle now req t2).1 /\ (handle now req t1).2 !! k = (handle now req t2).2 !! k.
Proof.
  intros Hr Hok1 Hok2 H.
  pose proof (solo_agree 3 (start now req) k t1 t2 Hok1 Hok2 (start_ok now req) (start_keyed now req k Hr) H)
    as Hag.
  rewrite !solo_handle_eq in Hag by done.
  destruct (handle now req t1), (handle now req t2). exact Hag.
Qed.

(** ... and writes only that row. *)
Lemma handle_frame now req k t j :
  row_request req = Some k -> table_ok t -> j <> k -> (handle now req t).2 !! j = t !! j.
Proof.
  intros Hr Hok Hj. destruct (handle now req t) as [r T] eqn:Hh. simpl.
  apply (solo_frame 3 (start now req) k t r T j); try done; [by apply start_keyed|apply start_ok|].
  rewrite solo_handle_eq by done. by rewrite Hh.
Qed.

(** ** Requests on distinct rows *)

(** The ids of a sequence of requests, if every one names an id. *)
Fixpoint row_keys (reqs : list (Z * Request)) : option (list Z) :=
  match reqs with
  | [] => Some []
  | (_, req) :: rest =>
      match row_request req, row_keys rest with
      | Some k, Some ks => Some (k :: ks)
      | _, _ => None
      end
  end.

(** Every request names an id, and no two the same. *)
Definition disjoint_rows (reqs : list (Z * Request)) : bool :=
  match row_keys reqs with Some ks => bool_decide (NoDup ks) | None => false end.

Lemma row_keys_cons now req rest ks :
  row_keys ((now, req) :: rest) = Some ks ->
  exists k ks', ks = k :: ks' /\ row_request req = Some k /\ row_keys rest = Some ks'.
Proof. simpl. repeat case_match; intros; simplify_eq; eauto. Qed.

Lemma row_keys_lookup reqs ks i now req :
  row_keys reqs = Some ks -> reqs !! i = Some (now, req) ->
  exists k, ks !! i = Some k /\ row_request req = Some k.
Proof.
  revert ks i. induction reqs as [|[n r] rest IH]; intros ks i Hks Hi; [done|].
  apply row_keys_cons in Hks as (k & ks' & -> & Hk & Hrest).
  destruct i as [|i]; simpl in *; [simplify_eq; eauto|]. by apply IH.
Qed.

Lemma row_keys_length reqs ks : row_keys reqs = Some ks -> List.length ks = List.length reqs.
Proof.
  revert ks. induction reqs as [|[n r] rest IH]; intros ks Hks; [simpl in Hks; by simplify_eq|].
  apply row_keys_cons in Hks as (k & ks' & -> & _ & Hrest). simpl. by rewrite IH.
Qed.

(** Run one after the other, requests on distinct rows answer as each
    does alone on the initial table, and each writes its row as it does
    alone. *)
Lemma run_local reqs ks t :
  table_ok t -> row_keys reqs = Some ks -> NoDup ks ->
  (run reqs t).1 = (fun r => (handle r.1 r.2 t).1) <$> reqs
  /\ (forall i now req k, reqs !! i = Some (now, req) -> ks !! i = Some k ->
        (run reqs t).2 !! k = (handle now req t).2 !! k)
  /\ (forall j, j ∉ ks -> (run reqs t).2 !! j = t !! j).
Proof.
  revert ks t. induction reqs as [|[now req] rest IH]; intros ks t Hok Hks Hnd; simpl.
  { split_and!; [done|done|done]. }
  apply row_keys_cons in Hks as (k & ks' & -> & Hk & Hrest).
  apply NoDup_cons in Hnd as [Hnk Hnd].
  pose proof (handle_table_ok now req t Hok) as Hok1.
  destruct (handle now req t) as [r t1] eqn:Hh. simpl in Hok1.
  destruct (IH ks' t1 Hok1 Hrest Hnd) as (Hrs & Hrows & Hfr).
  destruct (run rest t1) as [rs t2]. simpl in *.
  (* a later request's row is not [k], so [t1] agrees with [t] there *)
  assert (forall i n' q k', rest !! i = Some (n', q) -> ks' !! i = Some k' -> t1 !! k' = t !! k') as Hagree.
  { intros i n' q k' Hi Hk'. assert (k' <> k) by (intros ->; apply Hnk; by eapply list_elem_of_lookup_2).
    change t1 with (r, t1).2. rewrite <- Hh. by apply (handle_frame now req k). }
  split_and!.
  - f_equal. rewrite Hrs. apply list_fmap_ext. intros i [n' q] Hi. simpl.
    destruct (row_keys_lookup _ _ _ _ _ Hrest Hi) as (k' & Hk' & Hq).
    by destruct (handle_agree n' q k' t1 t (Hq) Hok1 Hok (Hagree _ _ _ _ Hi Hk')) as [-> _].
  - intros [|i] n' q k'; simpl.
    + intros [= <- <-] [= <-]. rewrite Hh. simpl. apply Hfr. done.
    + intros Hi Hk'. rewrite (Hrows _ _ _ _ Hi Hk').
      destruct (row_keys_lookup _ _ _ _ _ Hrest Hi) as (k'' & Hk'' & Hq).
      assert (k'' = k') as -> by congruence.
      by destruct (handle_agree n' q k' t1 t Hq Hok1 Hok (Hagree _ _ _ _ Hi Hk')) as [_ ->].
  - intros j Hj. rewrite Hfr by set_solver. change t1 with (r, t1).2. rewrite <- Hh.
    apply (handle_frame now req k); [done|done|set_solver].
Qed.

(** ** Where a thread can get to alone *)

(** The states a thread reaches running alone from [th0] on [t0], with the
    table it leaves. *)
Inductive sreach (th0 : Thread) (t0 : Table) : Thread -> Table -> Prop :=
| sreach_refl : sreach th0 t0 th0 t0
| sreach_step th t : sreach th0 t0 th t -> sreach th0 t0 (tstep th t).1 (tstep th t).2.

Lemma sreach_solo th0 t0 th t :
  sreach th0 t0 th t ->
  exists n, (n + steps_left th <= steps_left th0)%nat /\ forall f, solo (n + f) th0 t0 = solo f th t.
Proof.
  induction 1 as [|th t _ (n & Hn & IH)]; [exists 0%nat; split; [lia|done]|].
  destruct (is_done th) eqn:Hd.
  - destruct th; try done. exists n. split; [done|]. intros f. by rewrite IH.
  - exists (S n). pose proof (tstep_progress th t Hd). split; [lia|].
    intros f. replace (S n + f)%nat with (n + S f)%nat by lia. by rewrite IH, solo_S.
Qed.

(** A request thread that has answered alone answered as [handle]. *)
Lemma sreach_handle now req t0 r T :
  table_ok t0 -> sreach (start now req) t0 (Done r) T -> handle now req t0 = (r, T).
Proof.
  intros Hok Hs. destruct (sreach_solo _ _ _ _ Hs) as (n & Hn & Heq).
  pose proof (solo_handle_eq now req t0 Hok) as Hsolo.
  replace 3%nat with (n + (3 - n))%nat in Hsolo by (pose proof (steps_left_start now req); simpl in Hn; lia).
  rewrite Heq, solo_Done in Hsolo. by injection Hsolo as ->.
Qed.

Lemma sreach_ok th0 t0 th t :
  table_ok t0 -> thread_ok th0 -> sreach th0 t0 th t -> table_ok t /\ thread_ok th.
Proof. intros Hok Hth. induction 1 as [|th t _ [Hok' Hth']]; [done|]. by apply tstep_ok. Qed.

(** ** Interleavings of requests on distinct rows *)

Section Interleaving.
Context (t0 : Table) (reqs : list (Z * Request)) (ks : list Z).
Context (Hok0 : table_ok t0) (Hks : row_keys reqs = Some ks) (Hnd : NoDup ks).

(** Along a schedule: the configuration is valid; thread [i] is where its
    request, run alone on [t0], can get to, and the shared table holds at
    its row what that run left there; every other row is as in [t0]. *)
Definition serial_inv (c : Config) : Prop :=
  config_ok c /\ List.length c.2 = List.length reqs
  /\ (forall i now req k, reqs !! i = Some (now, req) -> ks !! i = Some k ->
        exists th T, c.2 !! i = Some th /\ sreach (start now req) t0 th T
                     /\ c.1 !! k = T !! k /\ keyed k th)
  /\ (forall j, j ∉ ks -> c.1 !! j = t0 !! j).

Lemma serial_inv_init : serial_inv (t0, (fun r => start r.1 r.2) <$> reqs).
Proof.
  split_and!; simpl.
  - split; [done|]. apply Forall_fmap, Forall_forall. intros r _. apply start_ok.
  - by rewrite length_fmap.
  - intros i now req k Hi Hk. exists (start now req), t0.
    rewrite list_lookup_fmap, Hi. split_and!; [done|constructor|done|].
    destruct (row_keys_lookup _ _ _ _ _ Hks Hi) as (k' & Hk' & Hr).
    rewrite Hk in Hk'. simplify_eq. by apply start_keyed.
  - done.
Qed.

(** One statement of thread [i]. *)
Lemma serial_inv_step t ths i th :
  serial_inv (t, ths) -> ths !! i = Some th ->
  serial_inv ((tstep th t).2, <[i := (tstep th t).1]> ths).
Proof.
  intros ([Hok Hths] & Hlen & Hthr & Hfr) Hi. simpl in *.
  assert (exists now req k, reqs !! i = Some (now, req) /\ ks !! i = Some k) as (now & req & k & Hri & Hki).
  { destruct (lookup_lt_is_Some_2 reqs i) as [[now req] Hri]; [rewrite <- Hlen; by eapply lookup_lt_Some|].
    destruct (row_keys_lookup _ _ _ _ _ Hks Hri) as (k & Hk & _). eauto. }
  destruct (Hthr i now req k Hri Hki) as (th' & T & Hth' & Hs & Hrow & Hkey). assert (th' = th) as -> by congruence.
  rewrite Forall_lookup in Hths. pose proof (Hths i _ Hi) as Hthok.
  destruct (tstep_ok th t Hok Hthok) as [Hok' Hthok'].
  split_and!; simpl.
  - split; [done|]. apply Forall_lookup. intros j x. cbn [snd].
    destruct (decide (i = j)) as [<-|Hne].
    + rewrite list_lookup_insert_eq by (eapply lookup_lt_Some; eauto). by intros [= <-].
    + rewrite list_lookup_insert_ne by done. apply Hths.
  - by rewrite length_insert.
  - intros j now' req' k' Hrj Hkj. destruct (decide (i = j)) as [<-|Hne].
    + assert (k' = k) as -> by congruence.
      assert ((now', req') = (now, req)) as [= -> ->] by congruence.
      destruct (tstep_agree th k t T Hkey Hrow) as [Hst Hrow'].
      exists (tstep th t).1, (tstep th T).2. split_and!.
      * rewrite list_lookup_insert_eq; [done|]. by eapply lookup_lt_Some.
      * rewrite Hst. by constructor.
      * done.
      * by apply tstep_keyed.
    + destruct (Hthr j now' req' k' Hrj Hkj) as (thj & Tj & Hthj & Hsj & Hrowj & Hkeyj).
      exists thj, Tj. split_and!; [by rewrite list_lookup_insert_ne| done | | done].
      assert (k' <> k) as Hkk.
      { intros ->. apply Hne. by eapply (NoDup_lookup ks i j k). }
      by rewrite (tstep_frame th k t k' Hkey Hkk).
  - intros j Hj. assert (j <> k) by (intros ->; apply Hj; by eapply list_elem_of_lookup_2).
    rewrite (tstep_frame th k t j Hkey) by done. by apply Hfr.
Qed.

Lemma serial_inv_sched order c : serial_inv c -> serial_inv (sched order c).
Proof.
  revert c. induction order as [|i rest IH]; intros [t ths] Hc; simpl; [done|].
  destruct (ths !! i) as [th|] eqn:Hi; apply IH; [|done]. by apply serial_inv_step.
Qed.
End Interleaving.

(** ** Theorem *)

(** C26. Interleaved requests on distinct rows are serializable: on a
    valid table, for requests that each name an id ([GET], [PUT] or
    [DELETE] of [/products/{id}]), no two the same, every interleaving of
    their statements in which all of them answer gives each request the
    response, and the table the state, of running them one after the
    other in arrival order ([Contract.run]); so, by [run_refines], every
    such interleaved run is a trace of the spec's contract. *)
Theorem disjoint_serializable t0 reqs order :
  table_ok t0 -> disjoint_rows reqs = true ->
  Forall (fun th => is_done th = true) (sched order (t0, (fun r => start r.1 r.2) <$> reqs)).2 ->
  sched order (t0, (fun r => start r.1 r.2) <$> reqs) = ((run reqs t0).2, Done <$> (run reqs t0).1).
Proof.
  intros Hok Hdis Hdone. unfold disjoint_rows in Hdis.
  destruct (row_keys reqs) as [ks|] eqn:Hks; [|done]. apply bool_decide_eq_true in Hdis.
  pose proof (serial_inv_sched t0 reqs ks Hks Hdis order _ (serial_inv_init t0 reqs ks Hok Hks)) as Hinv.
  destruct (sched order _) as [t ths]. simpl in Hdone.
  destruct Hinv as (_ & Hlen & Hthr & Hfr). rewrite Forall_lookup in Hdone.
  destruct (run_local reqs ks t0 Hok Hks Hdis) as (Hrs & Hrows & Hrfr).
  (* the request at [i] answered as [handle] does on [t0] *)
  assert (forall i now req k, reqs !! i = Some (now, req) -> ks !! i = Some k ->
            ths !! i = Some (Done (handle now req t0).1) /\ t !! k = (handle now req t0).2 !! k) as Hans.
  { intros i now req k Hri Hki. destruct (Hthr i now req k Hri Hki) as (th & T & Hth & Hs & Hrow & _).
    destruct th as [r| | | | | | | | |]; try (by specialize (Hdone i _ Hth)).
    by rewrite (sreach_handle now req t0 r T Hok Hs). }
  f_equal.
  - apply map_eq. intros j. destruct (decide (j ∈ ks)) as [Hj|Hj]; [|by rewrite Hfr, Hrfr].
    apply list_elem_of_lookup_1 in Hj as [i Hki].
    destruct (lookup_lt_is_Some_2 reqs i) as [[now req] Hri].
    { rewrite <- (row_keys_length _ _ Hks). by eapply lookup_lt_Some. }
    rewrite (Hrows i now req j Hri Hki). by destruct (Hans i now req j Hri Hki) as [_ ->].
  - apply list_eq. intros i. rewrite list_lookup_fmap, Hrs, list_lookup_fmap.
    destruct (reqs !! i) as [[now req]|] eqn:Hri; simpl.
    + destruct (row_keys_lookup _ _ _ _ _ Hks Hri) as (k & Hki & _).
      by destruct (Hans i now req k Hri Hki) as [-> _].
    + apply lookup_ge_None. simpl in Hlen. rewrite Hlen. by apply lookup_ge_None.
Qed.

(** ** Witness *)

(** A [PUT] of row 1 and a [DELETE] of row 2, arriving together. *)
Definition ex_disjoint : list (Z * Request) := [(0%Z, UpdateProduct 1 put_price); (0%Z, DeleteProduct 2)].

Lemma disjoint_serializable_witness :
  sched [0; 1; 0; 1; 0]%nat (ex_db, (fun r => start r.1 r.2) <$> ex_disjoint)
  = ((run ex_disjoint ex_db).2, Done <$> (run ex_disjoint ex_db).1).
Proof.
  apply disjoint_serializable; [exact ex_db_table_ok|reflexivity|].
  vm_compute. repeat constructor.
Defined.
