(* ===== verification/Bootstrap.v ===== *)
(** * Bootstrap: [init_db] and [on_startup]

    On startup ([main.py], [on_startup]) the service runs [init_db] of
    [db.py] with the URL of the environment ([DATABASE_URL], by default
    [sqlite:///./story.db]). [init_db] creates the table if it does not
    exist ([create_all], which leaves an existing table as it is, whatever
    its columns), counts its rows with the ORM (a failing count counts as
    0) and, only when the count is 0, runs the seed script
    [data/sql/story.sql] (SQLite, through [executescript]) or
    [story_postgres.sql] (other engines, split on [;] and run statement by
    statement in one transaction), if the file exists. An error of a
    statement propagates out of [init_db] and stops the startup.

    The database is a [Database]: the columns of its [products] table, if
    the table exists, and the rows. The file system, [executescript]'s own
    statement splitting and the effect of one SQL statement are outside the
    program: the Section below takes them as parameters ([read_file],
    [sqlite_statements], [run_statement]). The statement splitting of the
    Postgres path is the program's own code and is modelled exactly
    ([split_statements]), and so are the two ways the statements run: one
    after the other with no transaction ([run_script], as [executescript]
    does for a script without [BEGIN]) and all or nothing
    ([run_transaction], [engine.begin()]).

    The theorems: seeding runs at most once when the table has the
    mapped columns; a table that lacks one is seeded again whatever it
    holds; on Postgres the seed is atomic; on SQLite a failing statement
    leaves the rows of the statements before it and the rest of the script
    never runs, since the next start finds the table non-empty; the split
    statements are non-empty, stripped and free of [;], which also means a
    [;] inside a string literal cuts the statement. *)

From S2P Require Import Prelude Text Models Engine.
From Stdlib Require Import Ascii String.

(** ** Splitting the Postgres script *)

(** [[s.strip() for s in sql_text.split(";") if s.strip()]] (db.py,
    line 69). *)
Definition split_statements (sql_text : string) : list string :=
  map py_strip (filter (fun s => str_truthy (py_strip s) = true) (py_split ";"%char sql_text)).

(** ** Configuration *)

(** [DATABASE_URL = os.getenv("DATABASE_URL", "sqlite:///./story.db")]
    (db.py, line 16); [getenv] reads the process environment. *)
Definition database_url (getenv : string -> option string) : string :=
  default "sqlite:///./story.db" (getenv "DATABASE_URL").

(** [DATABASE_URL.startswith("sqlite")] *)
Definition is_sqlite (url : string) : bool := String.prefix "sqlite" url.

(** [sql_file = "story.sql" if is_sqlite else "story_postgres.sql"] *)
Definition seed_file (url : string) : string :=
  if is_sqlite url then "story.sql" else "story_postgres.sql".

(** ** The database [init_db] finds *)

(** The columns of [products] the ORM's [SELECT] names ([models.py]). *)
Definition mapped_columns : list Column :=
  [ColId; ColName; ColDescription; ColPrice; ColStock; ColCreatedAt].

(** The database file: the columns of its [products] table, if the table
    exists (a file written by an older version may hold a table with other
    columns), and its rows. *)
Record Database := mkDatabase { db_columns : option (list Column); db_rows : Table }.

Definition has_mapped_columns (cols : list Column) : bool :=
  forallb (fun c => bool_decide (c ∈ cols)) mapped_columns.

(** The table is absent, or has every column the ORM reads. *)
Definition schema_ok (d : Database) : bool :=
  match db_columns d with None => true | Some cols => has_mapped_columns cols end.

(** [Base.metadata.create_all(bind=engine)] (line 45): [CREATE TABLE] when
    the table does not exist; an existing table is kept as it is, whatever
    its columns ([create_all] checks that the table exists, not its
    schema). *)
Definition create_all (d : Database) : Database :=
  match db_columns d with
  | None => mkDatabase (Some mapped_columns) ∅
  | Some _ => d
  end.

(** [db.query(Product).count()] (line 50), that is [SELECT count( * ) FROM
    (SELECT products.id, products.name, ... FROM products)]: it fails with
    [OperationalError] when the table or one of the mapped columns is
    missing. *)
Definition count_products (d : Database) : result DbError nat :=
  match db_columns d with
  | Some cols => if has_mapped_columns cols then Ok (size (db_rows d)) else Err OperationalError
  | None => Err OperationalError
  end.

(** Lines 48-52: [count], or [0] when the query raised. *)
Definition startup_count (d : Database) : nat :=
  match count_products d with Ok n => n | Err _ => 0%nat end.

Section InitDb.
(** The contents of [data/sql/<file>], if the file exists. *)
Context (read_file : string -> option string).
(** How [sqlite3]'s [executescript] cuts a script into complete
    statements (it honours string literals, unlike [split_statements]). *)
Context (sqlite_statements : string -> list string).
(** One statement of SQL text on the database: the new database, or the
    error it raises. *)
Context (run_statement : string -> Database -> result DbError Database).

(** Statements run one after the other, each taking effect at once, and
    the first error stops them: [executescript] adds no transaction of its
    own (the seed script is taken to hold no [BEGIN]). The result is the
    database the statements that ran leave, and the error, if any. *)
Fixpoint run_script (stmts : list string) (d : Database) : Database * option DbError :=
  match stmts with
  | [] => (d, None)
  | stmt :: rest =>
      match run_statement stmt d with
      | Ok d' => run_script rest d'
      | Err e => (d, Some e)
      end
  end.

(** [with engine.begin() as conn:]: the statements in one transaction,
    committed at the end of the block and rolled back on an error. *)
Definition run_transaction (stmts : list string) (d : Database) : Database * option DbError :=
  match run_script stmts d with
  | (d', None) => (d', None)
  | (_, Some e) => (d, Some e)
  end.

(** db.py, lines 36-72: the database it leaves, and the error [init_db]
    raises (which stops the application's startup), if any. *)
Definition init_db (url : string) (d : Database) : Database * option DbError :=
  let d := create_all d in
  let count := startup_count d in
  if bool_decide (count = 0%nat) then
    match read_file (seed_file url) with
    | None => (d, None)
    | Some sql_text =>
        if is_sqlite url then run_script (sqlite_statements sql_text) d
        else run_transaction (split_statements sql_text) d
    end
  else (d, None).

(** main.py, lines 23-27: the startup hook runs [init_db] on the URL of
    the environment. *)
Definition on_startup (getenv : string -> option string) (d : Database) : Database * option DbError :=
  init_db (database_url getenv) d.

(** The seed statements keep the table's columns (they insert rows). *)
Definition keeps_schema : Prop :=
  forall stmt d d', run_statement stmt d = Ok d' -> db_columns d' = db_columns d.

(** ** Lemmas *)

Lemma create_all_schema d :
  schema_ok d = true -> exists cols, db_columns (create_all d) = Some cols /\ has_mapped_columns cols = true.
Proof.
  unfold schema_ok, create_all. destruct (db_columns d) as [cols|] eqn:Hc; intros H.
  - exists cols. by rewrite Hc.
  - exists mapped_columns. split; [done|]. vm_compute. reflexivity.
Qed.

Lemma create_all_existing d cols : db_columns d = Some cols -> create_all d = d.
Proof. unfold create_all. by intros ->. Qed.

(** [init_db] leaves a table with every mapped column and some rows
    unchanged. *)
Lemma init_db_populated url d cols :
  db_columns d = Some cols -> has_mapped_columns cols = true -> db_rows d <> ∅ ->
  init_db url d = (d, None).
Proof.
  intros Hc Hm Hne. unfold init_db. rewrite (create_all_existing d cols Hc).
  unfold startup_count, count_products. rewrite Hc, Hm.
  rewrite bool_decide_false; [done|]. by rewrite map_size_empty_iff.
Qed.

Lemma run_script_columns stmts d d' e :
  keeps_schema -> run_script stmts d = (d', e) -> db_columns d' = db_columns d.
Proof.
  intros Hk. revert d. induction stmts as [|st rest IH]; intros d; simpl; [by intros [= <- _]|].
  destruct (run_statement st d) as [d1|e1] eqn:Hs; [|by intros [= <- _]].
  intros H%IH. rewrite H. by eapply Hk.
Qed.

Lemma init_db_columns url d d' e :
  keeps_schema -> init_db url d = (d', e) -> db_columns d' = db_columns (create_all d).
Proof.
  intros Hk. unfold init_db. case_bool_decide; [|by intros [= <- _]].
  destruct (read_file (seed_file url)); [|by intros [= <- _]].
  destruct (is_sqlite url); [by apply run_script_columns|].
  unfold run_transaction. destruct (run_script _ _) as [d1 [e1|]] eqn:Hr; intros [= <- _];
    [done|by eapply run_script_columns].
Qed.

(** The statements of a script that stopped at an error: a prefix ran. *)
Lemma run_script_prefix stmts d d' e :
  run_script stmts d = (d', Some e) ->
  exists n, fold_left (fun acc st => result_bind acc (run_statement st)) (take n stmts) (Ok d) = Ok d'
            /\ result_bind (Ok d') (run_statement (default EmptyString (stmts !! n))) = Err e
            /\ (n < List.length stmts)%nat.
Proof.
  revert d. induction stmts as [|st rest IH]; intros d; simpl; [done|].
  destruct (run_statement st d) as [d1|e1] eqn:Hs.
  - intros (n & Hf & He & Hn)%IH. exists (S n). simpl. rewrite Hs. split_and!; [done|done|lia].
  - intros [= <- <-]. exists 0%nat. simpl. split_and!; [done|by rewrite Hs|lia].
Qed.

(** The seed runs on a database exactly when its count is 0 or fails. *)
Lemma init_db_seeds url d sql_text :
  startup_count (create_all d) = 0%nat -> read_file (seed_file url) = Some sql_text ->
  init_db url d = if is_sqlite url then run_script (sqlite_statements sql_text) (create_all d)
                  else run_transaction (split_statements sql_text) (create_all d).
Proof. intros Hc Hf. unfold init_db. rewrite Hc, Hf. by rewrite bool_decide_true. Qed.

(** ** Theorems *)

(** C19. Seeding runs at most once: on a database whose table is absent
    or has every mapped column, and with seed statements that keep the
    columns, once a start of the service ([on_startup], whatever the
    environment) has left a row, whether its [init_db] completed or
    stopped at an error, the next start changes nothing. *)
Theorem init_db_idempotent getenv d d' e :
  keeps_schema -> schema_ok d = true -> on_startup getenv d = (d', e) -> db_rows d' <> ∅ ->
  on_startup getenv d' = (d', None).
Proof.
  unfold on_startup. intros Hk Hs Hi Hne. destruct (create_all_schema d Hs) as (cols & Hc & Hm).
  apply (init_db_populated _ _ cols); [|done|done]. rewrite <- Hc. by eapply init_db_columns.
Qed.

(** C20. A table that lacks a mapped column is seeded again, whatever
    rows it holds: the count query fails, the [except] branch counts 0, and
    [init_db] runs the whole seed script on the existing table. The spec
    says the store is seeded only when it is empty. *)
Theorem legacy_table_reseeded url d cols sql_text :
  db_columns d = Some cols -> has_mapped_columns cols = false ->
  read_file (seed_file url) = Some sql_text ->
  init_db url d = if is_sqlite url then run_script (sqlite_statements sql_text) d
                  else run_transaction (split_statements sql_text) d.
Proof.
  intros Hc Hm Hf. rewrite (init_db_seeds url d sql_text), (create_all_existing d cols Hc); [done| |done].
  unfold startup_count, count_products. rewrite (create_all_existing d cols Hc), Hc, Hm. done.
Qed.

(** C39. The Postgres seed is atomic: whenever [init_db] seeds (its count
    is 0 or failed), it either applies every statement of the split script
    and raises nothing, or raises the error of a statement and leaves the
    database as [create_all] left it. *)
Theorem postgres_seed_atomic url sql_text d d' e :
  is_sqlite url = false -> read_file (seed_file url) = Some sql_text ->
  startup_count (create_all d) = 0%nat -> init_db url d = (d', e) ->
  (e = None /\ run_script (split_statements sql_text) (create_all d) = (d', None))
  \/ (is_Some e /\ d' = create_all d).
Proof.
  intros Hsq Hf Hc. rewrite (init_db_seeds url d sql_text Hc Hf), Hsq. unfold run_transaction.
  destruct (run_script (split_statements sql_text) (create_all d)) as [d1 [e1|]] eqn:Hr;
    intros [= <- <-]; [right; eauto|left; auto].
Qed.

(** C40. On SQLite the seed is not atomic and not retried: on a fresh or
    empty table, when a statement of the script fails after earlier ones
    added rows, [init_db] raises the error and leaves those rows, and the
    next start finds a non-empty table and never runs the rest of the
    script. *)
Theorem sqlite_seed_not_retried url sql_text d d' e :
  keeps_schema -> schema_ok d = true -> is_sqlite url = true ->
  read_file (seed_file url) = Some sql_text -> startup_count (create_all d) = 0%nat ->
  init_db url d = (d', Some e) -> db_rows d' <> ∅ ->
  (exists n, fold_left (fun acc st => result_bind acc (run_statement st))
               (take n (sqlite_statements sql_text)) (Ok (create_all d)) = Ok d'
             /\ (n < List.length (sqlite_statements sql_text))%nat)
  /\ init_db url d' = (d', None).
Proof.
  intros Hk Hs Hsq Hf Hc Hi Hne. split.
  - revert Hi. rewrite (init_db_seeds url d sql_text Hc Hf), Hsq.
    intros (n & Hn & _ & Hlt)%run_script_prefix. eauto.
  - destruct (create_all_schema d Hs) as (cols & Hcols & Hm).
    apply (init_db_populated _ _ cols); [|done|done]. rewrite <- Hcols. by eapply init_db_columns.
Qed.
End InitDb.

(** ** Lemmas on the split *)

Lemma split_statements_spec sql_text stmt :
  stmt ∈ split_statements sql_text ->
  exists piece, piece ∈ py_split ";"%char sql_text /\ stmt = py_strip piece
  /\ str_truthy stmt = true.
Proof.
  unfold split_statements. intros (piece & -> & Hp)%list_elem_of_fmap.
  apply list_elem_of_filter in Hp as [Ht Hp]. eauto.
Qed.

(** C21. Every statement [init_db] runs on a non-SQLite engine is
    non-empty, has no white space at either end and contains no [;]. *)
Theorem split_statements_clean sql_text stmt :
  stmt ∈ split_statements sql_text ->
  stmt <> EmptyString /\ no_edge_space stmt /\ str_has ";"%char stmt = false.
Proof.
  intros (piece & Hp & -> & Ht)%split_statements_spec. split_and!.
  - intros He. rewrite He in Ht. discriminate.
  - apply py_strip_edges.
  - destruct (str_has ";"%char (py_strip piece)) eqn:E; [|done].
    apply str_has_strip in E.
    pose proof (py_split_no_sep ";"%char sql_text) as Hno. rewrite Forall_forall in Hno.
    by rewrite Hno in E.
Qed.

(** The split does not know SQL string literals: a [;] inside a
    quoted value cuts the statement in two, so a seed script with such a
    value fails on Postgres although it runs on SQLite. *)
Theorem split_statements_cuts_literal :
  split_statements "INSERT INTO products (name) VALUES ('a;b');"
  = ["INSERT INTO products (name) VALUES ('a"; "b')"]%string.
Proof. vm_compute. reflexivity. Qed.


(** ** Witnesses *)

Definition ex_seed_row : Product := mkProduct 1 "Paracetamol 500mg" None 2.5%float 10 0.

(** A seed script of two statements, the second of which fails. *)
Definition ex_read (_ : string) : option string := Some "INSERT ok;INSERT bad"%string.

Definition ex_sqlite_split (sql : string) : list string := py_split ";"%char sql.

(** [INSERT ok] adds the seed row under the next key. *)
Definition ex_run (stmt : string) (d : Database) : result DbError Database :=
  if String.eqb stmt "INSERT bad" then Err (IntegrityError ColName)
  else Ok (mkDatabase (db_columns d) (<[Z.of_nat (S (size (db_rows d))) := ex_seed_row]> (db_rows d))).

Lemma ex_run_keeps_schema : keeps_schema ex_run.
Proof. intros st d d'. unfold ex_run. case_match; by intros [= <-]. Qed.

(** A fresh database file: no table yet. *)
Definition ex_fresh : Database := mkDatabase None ∅.

Definition ex_seeded : Database := mkDatabase (Some mapped_columns) {[1%Z := ex_seed_row]}.

(** A file of an older version: its table has no [description] and no
    [created_at], and holds one row. *)
Definition ex_legacy : Database :=
  mkDatabase (Some [ColId; ColName; ColPrice; ColStock]) {[1%Z := ex_seed_row]}.

(** The environment of a plain start: no [DATABASE_URL]. *)
Definition ex_env (_ : string) : option string := None.

Lemma init_db_idempotent_witness :
  on_startup ex_read ex_sqlite_split ex_run ex_env ex_fresh = (ex_seeded, Some (IntegrityError ColName))
  /\ on_startup ex_read ex_sqlite_split ex_run ex_env ex_seeded = (ex_seeded, None).
Proof.
  assert (on_startup ex_read ex_sqlite_split ex_run ex_env ex_fresh
          = (ex_seeded, Some (IntegrityError ColName))) as H.
  { unfold on_startup, init_db, startup_count, count_products. simpl.
    by rewrite map_size_empty, insert_empty. }
  split; [exact H|].
  apply (init_db_idempotent ex_read ex_sqlite_split ex_run ex_env ex_fresh _ _ ex_run_keeps_schema eq_refl H).
  apply map_non_empty_singleton.
Defined.

Lemma legacy_table_reseeded_witness :
  init_db ex_read ex_sqlite_split ex_run "sqlite:///./story.db" ex_legacy
  = (mkDatabase (Some [ColId; ColName; ColPrice; ColStock])
       (<[2%Z := ex_seed_row]> {[1%Z := ex_seed_row]}), Some (IntegrityError ColName)).
Proof.
  rewrite (legacy_table_reseeded ex_read ex_sqlite_split ex_run _ ex_legacy
             [ColId; ColName; ColPrice; ColStock] "INSERT ok;INSERT bad"); reflexivity.
Defined.

Lemma postgres_seed_atomic_witness :
  init_db ex_read ex_sqlite_split ex_run "postgresql://story" ex_fresh
    = (create_all ex_fresh, Some (IntegrityError ColName))
  /\ ((Some (IntegrityError ColName) = None
       /\ run_script ex_run (split_statements "INSERT ok;INSERT bad") (create_all ex_fresh)
          = (create_all ex_fresh, None))
      \/ (is_Some (Some (IntegrityError ColName)) /\ create_all ex_fresh = create_all ex_fresh)).
Proof.
  assert (init_db ex_read ex_sqlite_split ex_run "postgresql://story" ex_fresh
          = (create_all ex_fresh, Some (IntegrityError ColName))) as H by (vm_compute; reflexivity).
  split; [exact H|].
  by apply (postgres_seed_atomic ex_read ex_sqlite_split ex_run "postgresql://story").
Defined.

Lemma sqlite_seed_not_retried_witness :
  init_db ex_read ex_sqlite_split ex_run "sqlite:///./story.db" ex_seeded = (ex_seeded, None).
Proof.
  apply (sqlite_seed_not_retried ex_read ex_sqlite_split ex_run "sqlite:///./story.db"
           "INSERT ok;INSERT bad" ex_fresh _ (IntegrityError ColName) ex_run_keeps_schema);
    try reflexivity.
  apply map_non_empty_singleton.
Defined.

Lemma split_statements_clean_witness :
  split_statements " SELECT 1 ;; SELECT 2;" = ["SELECT 1"; "SELECT 2"]%string
  /\ no_edge_space "SELECT 1"%string.
Proof.
  split; [vm_compute; reflexivity|].
  apply (split_statements_clean " SELECT 1 ;; SELECT 2;" "SELECT 1").
  vm_compute. left.
Defined.
