(* ===== verification/Pool.v ===== *)
(** * Pool: the engine's connections and the sessions of [get_db]

    [db.py] builds one engine ([create_engine(DATABASE_URL,
    connect_args=connect_args)], lines 19-21) and a session factory
    ([sessionmaker(autocommit=False, autoflush=False, bind=engine)], line
    22); [get_db] (lines 26-33) opens a session per request and closes it
    in its [finally]. A session holds no connection until its first
    statement; it then checks one out of the engine's pool and keeps it
    for its transaction, which ends at [commit] (the connection goes back
    to the pool, and the next statement checks one out again) or at
    [close]. In the requests of [main.py] a transaction stays open between
    two statements only in [PUT] and [DELETE], from the [SELECT] of
    [crud.get_product] to the [COMMIT] of the write.

    The pool is SQLAlchemy's [QueuePool], the default of [create_engine]
    for a file database: [pool_size] connections are kept idle in a FIFO
    queue, up to [max_overflow] more may be open, a checkout takes the
    oldest idle connection or opens a new one while fewer than [pool_size
    + max_overflow] are open, and otherwise waits (and raises
    [TimeoutError] after [pool_timeout] seconds); a connection checked in
    when the queue is full is closed. The [sqlite3] driver refuses, with
    [ProgrammingError], a connection used from a thread other than the
    one that opened it, unless [check_same_thread=False] is passed, which
    is what [connect_args] does for SQLite URLs. FastAPI runs the
    dependency and the endpoint on worker threads of its thread pool, so
    consecutive statements, and requests reusing a pooled connection, run
    on arbitrary workers.

    The model runs the statements of [Sessions] ([tstep]) on a pooled
    state: the table, the pool and, for each request, its thread and the
    connection it holds. An event is an arrival, a statement of request
    [i] on worker [w], or the timeout of a request waiting for the pool
    (time is not modelled: a waiting request may time out at any point).
    The Section takes the pool's configuration and the URL; the examples
    use the defaults ([pool_size = 5], [max_overflow = 10]) and the URL of
    an environment without [DATABASE_URL]. *)

From S2P Require Import Prelude Text Models Schemas Engine Flush Crud Api Sessions Bootstrap.

(** ** Engine configuration *)

(** db.py, line 19: [{"check_same_thread": False}] for SQLite, [{}]
    otherwise. *)
Definition connect_args (url : string) : list (string * bool) :=
  if is_sqlite url then [("check_same_thread"%string, false)] else [].

(** Whether the driver rejects a connection used from another thread:
    only [sqlite3] checks, and it does unless [connect_args] says
    otherwise. *)
Definition check_same_thread (url : string) : bool :=
  is_sqlite url &&
  match find (fun kv => String.eqb kv.1 "check_same_thread") (connect_args url) with
  | Some (_, b) => b
  | None => true
  end.

(** [create_engine]'s pool arguments; none are passed on line 21, so the
    engine has the defaults. *)
Record PoolConfig := mkPoolConfig { pool_size : nat; max_overflow : nat }.

Definition default_pool : PoolConfig := mkPoolConfig 5 10.

(** A DBAPI connection, with the worker thread that opened it. *)
Record Conn := mkConn { conn_id : nat; conn_thread : nat }.

(** The pool: its idle connections (the queue, oldest first), how many
    connections are open (idle or checked out), and the next id. *)
Record Pool := mkPool { pool_idle : list Conn; pool_opened : nat; pool_next : nat }.

Definition empty_pool : Pool := mkPool [] 0 0.

(** A request's thread and the connection its session holds. *)
Abbreviation Session := (Thread * option Conn)%type.

Record PState := mkPState {
  ps_table : Table;
  ps_pool : Pool;
  ps_sessions : list Session
}.

Inductive PEvent :=
| PArrive (now : Z) (req : Request)
| PRun (i w : nat)
| PTimeout (i : nat).

(** The transaction of a request stays open after its last statement
    only between the [SELECT] and the write of [PUT] and [DELETE]. *)
Definition in_transaction (th : Thread) : bool :=
  match th with PutFlush _ _ | DelFlush _ => true | _ => false end.

Section PoolModel.

Context (pc : PoolConfig) (url : string).

(** [QueuePool._do_get]: the oldest idle connection, else a new one
    opened on the calling worker while there is overflow left, else
    [None] (the caller waits). *)
Definition checkout (w : nat) (p : Pool) : option (Conn * Pool) :=
  match pool_idle p with
  | c :: rest => Some (c, mkPool rest (pool_opened p) (pool_next p))
  | [] =>
      if decide (pool_opened p < pool_size pc + max_overflow pc)%nat
      then Some (mkConn (pool_next p) w, mkPool [] (S (pool_opened p)) (S (pool_next p)))
      else None
  end.

(** [QueuePool._do_return_conn]: back in the queue, or closed when the
    queue already holds [pool_size] connections. *)
Definition checkin (c : Conn) (p : Pool) : Pool :=
  if decide (length (pool_idle p) < pool_size pc)%nat
  then mkPool (pool_idle p ++ [c]) (pool_opened p) (pool_next p)
  else mkPool (pool_idle p) (pred (pool_opened p)) (pool_next p).

(** A connection whose reset fails is invalidated: closed, not
    returned. *)
Definition discard (p : Pool) : Pool := mkPool (pool_idle p) (pred (pool_opened p)) (pool_next p).

(** One statement of a session on connection [c], run by worker [w]. A
    connection opened by another worker raises [ProgrammingError] when
    the driver checks threads: the request answers 500 and the connection
    is invalidated. Otherwise the statement runs ([tstep]), and the
    connection is kept while the transaction stays open and returned to
    the pool when it ends ([commit] or [close]). *)
Definition run_on (w : nat) (c : Conn) (th : Thread) (p : Pool) (t : Table)
    : Session * Pool * Table :=
  if check_same_thread url && negb (Nat.eqb (conn_thread c) w) then
    ((Done server_error, None), discard p, t)
  else
    let (th', t') := tstep th t in
    if in_transaction th' then ((th', Some c), p, t') else ((th', None), checkin c p, t').

(** A pool with no connection to give: the request would wait. *)
Definition exhausted (p : Pool) : bool :=
  match pool_idle p with
  | [] => negb (bool_decide (pool_opened p < pool_size pc + max_overflow pc)%nat)
  | _ => false
  end.

Definition set_session (i : nat) (x : Session) (p : Pool) (t : Table) (s : PState) : PState :=
  mkPState t p (<[i := x]> (ps_sessions s)).

(** [Session.connection()]: the connection of the open transaction, or
    one checked out for a new transaction. *)
Definition acquire (w : nat) (held : option Conn) (p : Pool) : option (Conn * Pool) :=
  match held with
  | Some c => Some (c, p)
  | None => checkout w p
  end.

(** Request [i]'s next statement on worker [w]; a request the pool cannot
    serve waits. *)
Definition prun (i w : nat) (s : PState) : PState :=
  match ps_sessions s !! i with
  | Some (th, held) =>
      if is_done th then s else
      match acquire w held (ps_pool s) with
      | Some (c, p) => let '(x, p', t) := run_on w c th p (ps_table s) in set_session i x p' t s
      | None => s
      end
  | None => s
  end.

(** [pool_timeout] expires for request [i] while it waits: [TimeoutError],
    answered with 500. *)
Definition ptimeout (i : nat) (s : PState) : PState :=
  match ps_sessions s !! i with
  | Some (th, None) =>
      if negb (is_done th) && exhausted (ps_pool s)
      then set_session i (Done server_error, None) (ps_pool s) (ps_table s) s
      else s
  | _ => s
  end.

(** A request arrives: FastAPI validates it ([start]) and [get_db] opens
    its session, which holds no connection yet. *)
Definition pevent_step (s : PState) (e : PEvent) : PState :=
  match e with
  | PArrive now req => mkPState (ps_table s) (ps_pool s) (ps_sessions s ++ [(start now req, None)])
  | PRun i w => prun i w s
  | PTimeout i => ptimeout i s
  end.

Definition prun_events (es : list PEvent) (s : PState) : PState := fold_left pevent_step es s.

Inductive preachable (t0 : Table) : PState -> Prop :=
| preach_init : preachable t0 (mkPState t0 empty_pool [])
| preach_step s e : preachable t0 s -> preachable t0 (pevent_step s e).

End PoolModel.

(** ** Accounting *)

(** The connections a session holds: 0 or 1. *)
Definition held_n (h : option Conn) : nat := match h with Some _ => 1%nat | None => 0%nat end.

(** The sessions holding a connection. *)
Definition holders (l : list Session) : nat := length (filter (fun x => is_Some x.2) l).

(** [n] connections are out of the pool: the open ones are the idle ones
    and those [n]. *)
Definition acct (p : Pool) (n : nat) : Prop := pool_opened p = (length (pool_idle p) + n)%nat.

Definition bounded (pc : PoolConfig) (p : Pool) : Prop :=
  (length (pool_idle p) <= pool_size pc)%nat /\ (pool_opened p <= pool_size pc + max_overflow pc)%nat.

(** The pool's invariant: every open connection is idle or held by a
    session, the bounds of [QueuePool] hold, and a session holds a
    connection only inside an open transaction. *)
Definition pool_inv (pc : PoolConfig) (s : PState) : Prop :=
  acct (ps_pool s) (holders (ps_sessions s)) /\ bounded pc (ps_pool s)
  /\ Forall (fun x => is_Some x.2 -> in_transaction x.1 = true) (ps_sessions s).

(** A run's state as a configuration of [Sessions]. *)
Definition proj (s : PState) : Config := (ps_table s, fst <$> ps_sessions s).

(** A request that ends with 500 before its next statement. *)
Definition cabort (c c' : Config) : Prop :=
  exists i th, c.2 !! i = Some th /\ is_done th = false /\ c' = (c.1, <[i := Done server_error]> c.2).

(** [creachable] with aborts: what the pooled runs can reach. *)
Inductive acreachable (t0 : Table) : Config -> Prop :=
| acreach_init : acreachable t0 (t0, [])
| acreach_step c c' : acreachable t0 c -> cstep c c' -> acreachable t0 c'
| acreach_abort c c' : acreachable t0 c -> cabort c c' -> acreachable t0 c'.

Lemma holders_insert l i x y :
  l !! i = Some y -> (holders (<[i := x]> l) + held_n y.2 = holders l + held_n x.2)%nat.
Proof.
  intros Hi. pose proof (length_filter_insert (fun x : Session => is_Some x.2) l i x y Hi) as E.
  unfold holders. destruct x as [? []], y as [? []]; simpl in *; lia.
Qed.

Section PoolLemmas.

Context (pc : PoolConfig) (url : string).

Lemma acquire_acct w h p c p' n :
  acct p (n + held_n h) -> bounded pc p -> acquire pc w h p = Some (c, p') ->
  acct p' (S n) /\ bounded pc p'.
Proof.
  unfold acct, bounded. intros Ha Hb. destruct h as [c0|]; simpl in *.
  - intros [= -> ->]. lia.
  - unfold checkout. destruct (pool_idle p) as [|c0 rest] eqn:Hidle; simpl in *.
    + case_decide; intros; simplify_eq; simpl; lia.
    + intros [= -> <-]. simpl. lia.
Qed.

Lemma run_on_acct w c th p t x p' t' n :
  acct p (S n) -> bounded pc p -> run_on pc url w c th p t = (x, p', t') ->
  acct p' (n + held_n x.2) /\ bounded pc p' /\ (is_Some x.2 -> in_transaction x.1 = true).
Proof.
  unfold acct, bounded, run_on. intros Ha Hb.
  destruct (_ && _).
  - intros [= <- <- _]. simpl. split_and!; [lia|lia|lia|by intros []%is_Some_None].
  - destruct (tstep th t) as [th1 t1]. destruct (in_transaction th1) eqn:Ht.
    + intros [= <- <- _]. simpl. split_and!; [lia|lia|lia|done].
    + intros [= <- <- _]. unfold checkin. simpl.
      case_decide; simpl; rewrite ?length_app; simpl; split_and!; try lia; by intros []%is_Some_None.
Qed.

(** Every event keeps the pool's invariant. *)
Lemma pevent_inv s e : pool_inv pc s -> pool_inv pc (pevent_step pc url s e).
Proof.
  destruct s as [t p l]. unfold pool_inv; simpl. intros (Ha & Hb & Hf).
  destruct e as [now req|i w|i]; simpl.
  - unfold holders in *. rewrite filter_app, length_app. simpl.
    split_and!; [unfold acct in *; lia|done|]. apply Forall_app. split; [done|].
    constructor; [by intros []%is_Some_None|done].
  - unfold prun; simpl. destruct (l !! i) as [[th h]|] eqn:Hi; [|done].
    destruct (is_done th); [done|].
    destruct (acquire pc w h p) as [[c p1]|] eqn:Hq; [|done].
    destruct (run_on pc url w c th p1 t) as [[x p2] t2] eqn:Hr. simpl.
    pose proof (holders_insert l i (th, None) _ Hi) as E0.
    pose proof (holders_insert l i x _ Hi) as E1. simpl in E0, E1.
    destruct (acquire_acct w h p c p1 (holders (<[i:=(th, None)]> l)) ltac:(unfold acct in *; lia) Hb Hq)
      as [Ha1 Hb1].
    destruct (run_on_acct _ _ _ _ _ _ _ _ _ Ha1 Hb1 Hr) as (Ha2 & Hb2 & Hx).
    split_and!; [unfold acct in *; lia|done|]. by apply Forall_insert.
  - unfold ptimeout; simpl. destruct (l !! i) as [[th [c|]]|] eqn:Hi; try done.
    destruct (_ && _); [|done]. unfold set_session; simpl.
    pose proof (holders_insert l i (Done server_error, None) _ Hi) as E. simpl in E.
    split_and!; [unfold acct in *; lia|done|]. apply Forall_insert; [done|]. by intros []%is_Some_None.
Qed.

Lemma preachable_inv t0 s : preachable pc url t0 s -> pool_inv pc s.
Proof.
  induction 1 as [|s e _ IH].
  - unfold pool_inv, acct, bounded; simpl. split_and!; [done|lia|lia|constructor].
  - by apply pevent_inv.
Qed.

Lemma check_same_thread_sqlite u : is_sqlite u = true -> check_same_thread u = false.
Proof. intros H. unfold check_same_thread, connect_args. by rewrite H. Qed.

Lemma checkout_None w p : checkout pc w p = None <-> exhausted pc p = true.
Proof.
  unfold checkout, exhausted. destruct (pool_idle p); [|done].
  case_decide; rewrite ?bool_decide_true, ?bool_decide_false by done; done.
Qed.

Lemma in_transaction_not_done th : in_transaction th = true -> is_done th = false.
Proof. by destruct th. Qed.

(** The ways an event moves the projected configuration: not at all, by
    a statement of [Sessions], or by ending a request with 500 before its
    statement ([ProgrammingError], [TimeoutError]). *)
Lemma pevent_cases s e :
  proj (pevent_step pc url s e) = proj s \/ cstep (proj s) (proj (pevent_step pc url s e))
  \/ cabort (proj s) (proj (pevent_step pc url s e)).
Proof.
  destruct s as [t p l]. unfold proj. destruct e as [now req|i w|i]; simpl.
  - right; left. rewrite fmap_app. constructor.
  - unfold prun; simpl. destruct (l !! i) as [[th h]|] eqn:Hi; [|by left].
    destruct (is_done th) eqn:Hd; [by left|].
    destruct (acquire pc w h p) as [[c p1]|]; [|by left].
    assert ((fst <$> l) !! i = Some th) as Hi' by (by rewrite list_lookup_fmap, Hi).
    unfold run_on. destruct (_ && _); simpl.
    + right; right. exists i, th. by rewrite list_fmap_insert.
    + right; left. pose proof (cstep_run i th t (fst <$> l) Hi' Hd) as Hs.
      destruct (tstep th t) as [th1 t1]. by destruct (in_transaction th1); simpl; rewrite list_fmap_insert.
  - unfold ptimeout; simpl. destruct (l !! i) as [[th [c|]]|] eqn:Hi; try by left.
    destruct (is_done th) eqn:Hd; simpl; [by left|]. destruct (exhausted pc p); simpl; [|by left].
    right; right. exists i, th. simpl. rewrite list_lookup_fmap, Hi, list_fmap_insert. done.
Qed.

Lemma cabort_ok c c' : config_ok c -> cabort c c' -> config_ok c'.
Proof.
  intros [Ht Hths] (i & th & Hi & Hd & ->). split; [done|]. by apply Forall_insert.
Qed.

Lemma run_on_progress w c th p t x p' t' :
  is_done th = false -> run_on pc url w c th p t = (x, p', t') -> (steps_left x.1 < steps_left th)%nat.
Proof.
  intros Hd. unfold run_on. destruct (_ && _).
  - intros [= <- _ _]. simpl. destruct th; simpl in *; try done; lia.
  - pose proof (tstep_progress th t Hd) as Hp. destruct (tstep th t) as [th1 t1].
    destruct (in_transaction th1); intros [= <- _ _]; exact Hp.
Qed.

(** A request the pool serves moves on. *)
Lemma prun_progress s j th h w c p :
  ps_sessions s !! j = Some (th, h) -> is_done th = false -> acquire pc w h (ps_pool s) = Some (c, p) ->
  exists x, ps_sessions (prun pc url j w s) !! j = Some x /\ (steps_left x.1 < steps_left th)%nat.
Proof.
  intros Hj Hd Hq. unfold prun. rewrite Hj, Hd, Hq.
  destruct (run_on pc url w c th p (ps_table s)) as [[x p'] t'] eqn:Hr. simpl.
  exists x. rewrite list_lookup_insert_eq by (eapply lookup_lt_Some; eauto).
  split; [done|]. by eapply run_on_progress.
Qed.

End PoolLemmas.

Lemma prun_events_reachable pc url t0 es s :
  preachable pc url t0 s -> preachable pc url t0 (prun_events pc url es s).
Proof.
  revert s. induction es as [|e es IH]; intros s Hs; [done|]. apply IH. by apply preach_step.
Qed.

(** The table invariant of [Api] holds in every pooled run. *)
Lemma pool_table_ok pc url t0 s : table_ok t0 -> preachable pc url t0 s -> table_ok (ps_table s).
Proof.
  intros H0 Hr. enough (config_ok (proj s)) as [? _] by done.
  induction Hr as [|s e _ IH]; [by split|].
  destruct (pevent_cases pc url s e) as [->|[Hs|Ha]]; [done|by eapply cstep_ok|by eapply cabort_ok].
Qed.

(** ** Examples *)

(** The URL of a process without [DATABASE_URL]. *)
Definition ex_url : string := database_url ex_env.

(** A [POST] and fifteen [PUT]s arrive; the [POST]'s [INSERT] commits,
    and the fifteen [PUT]s load their row, each keeping its connection
    until its [COMMIT]: the [POST]'s refresh finds the pool exhausted. *)
Definition ex_exhaust : list PEvent :=
  PArrive 0 (CreateProduct ex_body) :: repeat (PArrive 0 (UpdateProduct 1 put_price)) 15
  ++ PRun 0 0 :: ((fun k => PRun k 0) <$> seq 1 15).

(** ... and it times out. *)
Definition ex_busy : list PEvent := ex_exhaust ++ [PTimeout 0].

(** A [PUT] whose [SELECT] ran on worker 7. *)
Definition ex_load : list PEvent := [PArrive 0 (UpdateProduct 1 put_price); PRun 0 7].

Definition ex_start : PState := mkPState ex_db empty_pool [].

(** ** Theorems *)


(** C31. Connections are released: in every run, each open connection
    is idle in the pool or held by exactly one session, and a session
    holds one only inside an open transaction (between the [SELECT] and
    the [COMMIT] of a [PUT] or [DELETE]); so a request that has answered,
    on any path, 422, 404 and 500 included, holds none. *)
Theorem pool_release pc url t0 s :
  preachable pc url t0 s ->
  pool_opened (ps_pool s) = (length (pool_idle (ps_pool s)) + holders (ps_sessions s))%nat
  /\ forall i th c, ps_sessions s !! i = Some (th, Some c) -> in_transaction th = true.
Proof.
  intros (Ha & _ & Hf)%preachable_inv. split; [done|].
  intros i th c Hi. rewrite Forall_lookup in Hf. by apply (Hf i _ Hi).
Qed.


(** C32. With the [connect_args] of [db.py], the worker a statement runs
    on does not matter: for a SQLite URL, a statement of a request that
    holds a connection or gets one from the pool is exactly the statement
    of [Sessions], whichever worker thread runs it and whichever thread
    opened the connection. *)
Theorem prun_sqlite_any_worker pc url s i w th h :
  is_sqlite url = true -> ps_sessions s !! i = Some (th, h) -> acquire pc w h (ps_pool s) <> None ->
  proj (prun pc url i w s) = event_step (proj s) (Run i).
Proof.
  intros Hu Hi Hq. destruct s as [t p l]. unfold prun, proj; simpl in *.
  rewrite list_lookup_fmap, Hi. simpl. destruct (is_done th) eqn:Hd.
  - destruct th; try done. simpl. by rewrite list_insert_id by (by rewrite list_lookup_fmap, Hi).
  - destruct (acquire pc w h p) as [[c p1]|]; [|done].
    unfold run_on. rewrite (check_same_thread_sqlite url Hu). simpl.
    destruct (tstep th t) as [th1 t1]. by destruct (in_transaction th1); simpl; rewrite list_fmap_insert.
Qed.

(** C33. The pool never deadlocks: in every run of a pool that can open
    a connection, as long as a request is unanswered, some unanswered
    request moves on at its next statement on any worker (the pool serves
    it, or all connections are held by transactions that need no new
    one). *)
Theorem pool_progress pc url t0 s i th h :
  preachable pc url t0 s -> (0 < pool_size pc + max_overflow pc)%nat ->
  ps_sessions s !! i = Some (th, h) -> is_done th = false ->
  exists j th' h', ps_sessions s !! j = Some (th', h') /\ is_done th' = false
    /\ forall w, exists x, ps_sessions (prun pc url j w s) !! j = Some x /\ (steps_left x.1 < steps_left th')%nat.
Proof.
  intros (Ha & [_ Hb] & Hf)%preachable_inv Hpos Hi Hd.
  destruct (acquire pc 0 h (ps_pool s)) as [[c0 p0]|] eqn:Hq.
  - exists i, th, h. split_and!; [done|done|]. intros w.
    destruct (acquire pc w h (ps_pool s)) as [[c p]|] eqn:Hw; [by eapply prun_progress|].
    destruct h; [done|]. simpl in Hq, Hw. apply checkout_None in Hw. apply (checkout_None pc 0) in Hw. by rewrite Hw in Hq.
  - destruct h; [done|]. apply checkout_None in Hq. unfold exhausted, acct in *.
    destruct (pool_idle (ps_pool s)); [|done]. apply negb_true_iff, bool_decide_eq_false in Hq.
    destruct (length_filter_pos (fun x : Session => is_Some x.2) (ps_sessions s)) as (j & [th' [c|]] & Hj & Hc);
      [unfold holders in Ha; simpl in Ha; lia| |by destruct Hc].
    rewrite Forall_lookup in Hf. pose proof (in_transaction_not_done _ (Hf j _ Hj Hc)) as Hd'.
    exists j, th', (Some c). split_and!; [done|done|]. intros w. by eapply prun_progress.
Qed.


(** ** Witnesses *)

Lemma ex_busy_reachable : preachable default_pool ex_url ex_db (prun_events default_pool ex_url ex_busy ex_start).
Proof. apply prun_events_reachable, preach_init. Qed.


Lemma pool_release_witness :
  let s := prun_events default_pool ex_url ex_busy ex_start in
  pool_opened (ps_pool s) = (length (pool_idle (ps_pool s)) + holders (ps_sessions s))%nat
  /\ forall i th c, ps_sessions s !! i = Some (th, Some c) -> in_transaction th = true.
Proof. exact (pool_release default_pool ex_url ex_db _ ex_busy_reachable). Defined.


(** The [PUT]'s [UPDATE] runs on worker 3, on the connection worker 7
    opened. *)
Lemma prun_sqlite_any_worker_witness :
  let s := prun_events default_pool ex_url ex_load ex_start in
  proj (prun default_pool ex_url 0 3 s) = event_step (proj s) (Run 0).
Proof.
  eapply (prun_sqlite_any_worker default_pool ex_url _ 0 3); [reflexivity|cbv; reflexivity|].
  vm_compute. discriminate.
Defined.

(** When the [POST]'s refresh waits on the exhausted pool, a [PUT] moves
    on. *)
Lemma pool_progress_witness :
  let s := prun_events default_pool ex_url ex_exhaust ex_start in
  exists j th' h', ps_sessions s !! j = Some (th', h') /\ is_done th' = false
    /\ forall w, exists x, ps_sessions (prun default_pool ex_url j w s) !! j = Some x
                       /\ (steps_left x.1 < steps_left th')%nat.
Proof.
  apply (pool_progress default_pool ex_url ex_db _ 0 (PostRefresh 3) None);
    [apply prun_events_reachable, preach_init|simpl; lia|vm_compute; reflexivity|reflexivity].
Defined.
