(* ===== verification/Tests.v ===== *)
(** * Tests: the suite of [tests/test_products.py], run on the model

    Each test of the repository is a boolean function of the store the
    test client starts from: it sends the test's requests through
    [Api.handle] and evaluates the test's [assert]s on the responses, in
    order, so it returns [true] exactly when the test passes. The fixture
    [client] (lines 13-28) is [client_env] and [client_start]: with no
    [DATABASE_URL] it points the service at a fresh temporary SQLite file
    and starts it, which runs [init_db] ([Bootstrap]) and so the seed
    script [data/sql/story.sql]; that script is not part of the sources,
    so the theorems take its statements as parameters, as [Bootstrap]
    does.

    The tests are stated over any store with the interface
    [Api.Persistence], and proved from the persistence contract
    ([Contract.PersistenceContract]) alone; the theorems for the program
    apply those proofs to [crud] on a valid table. They show: run by the
    fixture, the pagination test passes exactly when the seed left three
    rows or more; the CRUD test passes on every valid table that has a
    rowid left; the filter test passes when every row that matches the
    filter contains ["Paracetamol"] with that capitalisation, and fails on
    a valid table where the first match is written in capitals, because
    the test checks a case-sensitive substring where the code (and the
    spec) filter case-insensitively. *)

From S2P Require Import Prelude Text Like Models Schemas Engine Crud Api Contract Bootstrap.
From Stdlib Require Import Ascii String.

(** ** The responses as the tests read them *)

(** [response.json()] of a list response, [None] when it is not a list. *)
Definition json_list (r : Response) : option (list Product) :=
  match body r with BProducts l => Some l | _ => None end.

(** [response.json()] of a product response. *)
Definition json_product (r : Response) : option Product :=
  match body r with BProduct p => Some p | _ => None end.

(** ["Analgésico"], with [é] as the code point 233. *)
Definition analgesico : string := ("Analg" ++ String (ascii_of_nat 233) "sico")%string.

(** The payloads of [test_crud_product] (lines 54-59 and 67). *)
Definition test_payload : ProductIn :=
  mkProductIn (Given "Ketorolaco 10mg") (Given analgesico) (Given 5.25%float) (Given 33%Z).

Definition test_update_payload : ProductIn :=
  mkProductIn Unset Unset (Given 6%float) (Given 40%Z).

(** ** The fixture *)

(** [client] (lines 17-20): when [DATABASE_URL] is unset or empty, the
    fixture points it at a temporary SQLite file; every other variable is
    the process's. *)
Definition client_env (getenv : string -> option string) (db_path : string) : string -> option string :=
  fun v =>
    if String.eqb v "DATABASE_URL" then
      match getenv "DATABASE_URL" with
      | Some u => if str_truthy u then Some u else Some ("sqlite:///" ++ db_path)%string
      | None => Some ("sqlite:///" ++ db_path)%string
      end
    else getenv v.

(** Lines 23-27: [importlib.reload(main)] reads the environment again,
    and entering [TestClient(app)] runs [on_startup] on the database the
    URL names; the tests then run on the table it leaves, and an error of
    the startup makes every test error. *)
Definition client_start (read_file : string -> option string) (sqlite_statements : string -> list string)
    (run_statement : string -> Database -> result DbError Database)
    (getenv : string -> option string) (db_path : string) (d : Database) : Database * option DbError :=
  on_startup read_file sqlite_statements run_statement (client_env getenv db_path) d.

Lemma is_sqlite_file db_path : is_sqlite ("sqlite:///" ++ db_path)%string = true.
Proof. unfold is_sqlite. by rewrite ?str_app_cons. Qed.

(** With no [DATABASE_URL], the fixture runs [story.sql] through
    [executescript] on a new table of the fresh temporary file. *)
Lemma client_fresh_seeds read_file sqlite_statements run_statement getenv db_path sql_text :
  getenv "DATABASE_URL" = None -> read_file "story.sql" = Some sql_text ->
  client_start read_file sqlite_statements run_statement getenv db_path (mkDatabase None ∅)
  = run_script run_statement (sqlite_statements sql_text) (mkDatabase (Some mapped_columns) ∅).
Proof.
  intros Hg Hr. unfold client_start, on_startup.
  assert (database_url (client_env getenv db_path) = ("sqlite:///" ++ db_path)%string) as ->
    by (unfold database_url, client_env; simpl; by rewrite Hg).
  rewrite (init_db_seeds _ _ _ _ _ sql_text), is_sqlite_file; [done|done|].
  unfold seed_file. by rewrite is_sqlite_file.
Qed.

Section Tests.
Context {S : Type} `{!Persistence S}.

(** test_products.py, lines 31-38. *)
Definition test_list_products_default_pagination (now : Z) (db : S) : bool :=
  let response := (handle now (ListProducts None None None) db).1 in
  (status response =? 200)%Z
  && match json_list response with
     | Some data => Nat.eqb (List.length data) 3
     | None => false
     end.

(** test_products.py, lines 41-48; Python's [in] on strings is a
    case-sensitive substring test. *)
Definition test_list_products_filter_by_name (now : Z) (db : S) : bool :=
  let response := (handle now (ListProducts None None (Some "Paracetamol")) db).1 in
  (status response =? 200)%Z
  && match json_list response with
     | Some (first :: _) => contains "Paracetamol" (prod_name first)
     | _ => false
     end.

(** test_products.py, lines 51-78. *)
Definition test_crud_product (now : Z) (db : S) : bool :=
  let (create_resp, db1) := handle now (CreateProduct test_payload) db in
  (status create_resp =? 201)%Z
  && match json_product create_resp with
     | None => false
     | Some created =>
         let product_id := prod_id created in
         let (update_resp, db2) := handle now (UpdateProduct product_id test_update_payload) db1 in
         (status update_resp =? 200)%Z
         && match json_product update_resp with
            | None => false
            | Some updated =>
                PrimFloat.eqb (prod_price updated) 6 && Z.eqb (prod_stock updated) 40
                && let (delete_resp, db3) := handle now (DeleteProduct product_id) db2 in
                   (status delete_resp =? 204)%Z
                   && (status (handle now (GetProduct product_id) db3).1 =? 404)%Z
            end
     end.
End Tests.

(** ** Example tables *)

(** A table whose first match for ["Paracetamol"] is written in capitals. *)
Definition caps_db : Table :=
  <[2%Z := mkProduct 2 "Paracetamol 500mg" None 2.5%float 10 0]>
    (<[1%Z := mkProduct 1 "PARACETAMOL 1g" None 3.5%float 4 0]> ∅).

(** ** The tests against the persistence contract *)

(** Without a filter, the listing keeps every row. *)
Lemma filter_spec_none (L : list Product) : filter (fun p => spec_filter None p = true) L = L.
Proof. induction L as [|p L IH]; [done|]. by rewrite filter_cons_True, IH. Qed.

(** A row of a listing is a row of the table. *)
Lemma listed_by_id_elem db L p : listed_by_id db L -> p ∈ L <-> exists k, db !! k = Some p.
Proof.
  intros [Hperm _]. rewrite Hperm, list_elem_of_fmap. split.
  - intros ([k q] & -> & Hkq%elem_of_map_to_list). eauto.
  - intros [k Hk]. exists (k, p). split; [done|]. by apply elem_of_map_to_list.
Qed.

Section Contract_tests.
Context {S : Type} `{!Persistence S, !PersistenceContract S}.
Context (now : Z) (s : S) (Hok : store_ok s).

(** [GET /products] with the default page and the filter [n]. *)
Lemma default_listing n :
  validate_list_query None None n = Ok (0%Z, 3%Z, n) ->
  (forall m, n = Some m -> str_truthy m = true /\ no_wildcards m = true) ->
  exists L, listed_by_id (rows s) L /\
    (handle now (ListProducts None None n) s).1
    = mkResponse 200 (BProducts (take 3 (filter (fun p => spec_filter n p = true) L))).
Proof.
  intros Hq Hn. simpl. unfold list_products. rewrite Hq.
  destruct (law_list s 0 3 n Hok ltac:(unfold INT64_MAX; lia) ltac:(lia) Hn) as (L & HL & ->).
  exists L. split; [done|].
  by rewrite respond_list_ok by (eapply page_read_ok; [apply rows_ok, Hok|exact HL]).
Qed.

Lemma default_pagination_laws :
  test_list_products_default_pagination now s = true <-> (3 <= size (rows s))%nat.
Proof.
  destruct (default_listing None eq_refl ltac:(done)) as (L & HL & Hr).
  unfold test_list_products_default_pagination. rewrite Hr. simpl.
  rewrite filter_spec_none, length_take.
  destruct HL as [Hperm _]. apply Permutation_length in Hperm.
  rewrite Hperm, length_fmap, length_map_to_list, Nat.eqb_eq. lia.
Qed.

Lemma filter_by_name_laws :
  (exists k p, rows s !! k = Some p /\ spec_filter (Some "Paracetamol") p = true) ->
  (forall k p, rows s !! k = Some p -> spec_filter (Some "Paracetamol") p = true ->
     contains "Paracetamol" (prod_name p) = true) ->
  test_list_products_filter_by_name now s = true.
Proof.
  intros (k & p & Hp & Hf) Hall.
  destruct (default_listing (Some "Paracetamol") ltac:(reflexivity)) as (L & HL & Hr).
  { intros m [= <-]. split; reflexivity. }
  unfold test_list_products_filter_by_name. rewrite Hr. simpl.
  assert (p ∈ filter (fun q => spec_filter (Some "Paracetamol") q = true) L) as Hin.
  { apply list_elem_of_filter. split; [done|]. apply (listed_by_id_elem _ _ _ HL). eauto. }
  destruct (filter _ L) as [|q rest] eqn:Ef; [set_solver|]. simpl.
  assert (q ∈ filter (fun q => spec_filter (Some "Paracetamol") q = true) L) as Hq
    by (rewrite Ef; left).
  apply list_elem_of_filter in Hq as [Hqf Hq].
  apply (listed_by_id_elem _ _ _ HL) in Hq as [k' Hk']. by apply (Hall k').
Qed.
Lemma crud_test_laws : has_room s = true -> test_crud_product now s = true.
Proof.
  intros Hr. unfold test_crud_product.
  assert (validate_create test_payload
          = Ok (mkProductCreate "Ketorolaco 10mg" (Some analgesico) 5.25%float 33)) as Hv
    by (vm_compute; reflexivity).
  destruct (law_create now s _ _ Hok Hv eq_refl Hr) as (k & s1 & Hk & Hin & _ & Hc & Hrows1 & Hok1).
  set (c0 := mkProductCreate "Ketorolaco 10mg" (Some analgesico) 5.25%float 33) in *.
  assert (handle now (CreateProduct test_payload) s = (mkResponse 201 (BProduct (new_row k now c0)), s1))
    as ->.
  { simpl. unfold create_product. rewrite Hv, Hc. by rewrite respond_ok by (by eapply create_read_ok). }
  simpl.
  assert (validate_update test_update_payload
          = Ok (mkProductUpdate Unset Unset (Given 6%float) (Given 40%Z))) as Hv2
    by (vm_compute; reflexivity).
  set (u0 := mkProductUpdate Unset Unset (Given 6%float) (Given 40%Z)) in *.
  assert (rows s1 !! k = Some (new_row k now c0)) as Hp1 by (rewrite Hrows1; apply lookup_insert_eq).
  destruct (law_update s1 (new_row k now c0) _ u0 Hok1 Hp1 Hv2 ltac:(split_and!; discriminate)
              ltac:(by intros ? [= <-])) as (s2 & Hu & Hrows2 & Hok2).
  pose proof Hv2 as (_ & Hgn & Hgd & Hgx & Hgs)%validate_update_Ok.
  assert (update_product s1 k test_update_payload
          = (mkResponse 200 (BProduct (patch (new_row k now c0) u0)), s2)) as ->.
  { unfold update_product. rewrite Hv2, (law_get s1 k Hok1 Hin), Hp1, Hu.
    rewrite respond_ok; [done|].
    apply patch_read_ok; [by eapply create_read_ok|unfold no_null; simpl; split_and!; discriminate|done..]. }
  simpl.
  assert (rows s2 !! k = Some (patch (new_row k now c0) u0)) as Hp2
    by (rewrite Hrows2; apply lookup_insert_eq).
  destruct (law_delete s2 (patch (new_row k now c0) u0) Hok2 Hp2) as [Hrows3 Hok3].
  assert (delete_product s2 k = (mkResponse 204 BEmpty, p_delete s2 (patch (new_row k now c0) u0)))
    as -> by (unfold delete_product; by rewrite (law_get s2 k Hok2 Hin), Hp2).
  simpl. unfold get_product. rewrite (law_get _ k Hok3 Hin), Hrows3. simpl.
  by rewrite lookup_delete_eq.
Qed.
End Contract_tests.

(** ** Theorems *)

(** C35. [test_list_products_default_pagination] as pytest runs it:
    with no [DATABASE_URL], the fixture runs [story.sql] through
    [executescript] on a new table of its fresh temporary file, and the
    test passes (the startup raised nothing and the assertions hold)
    exactly when that seed left at least three rows, provided the rows it
    left are valid: the default page of [GET /products] holds [min 3 n]
    rows for a table of [n] rows. The test therefore depends on the seed
    script holding three products. *)
Theorem test_default_pagination_iff read_file sqlite_statements run_statement getenv db_path sql_text
    now d e :
  getenv "DATABASE_URL" = None -> read_file "story.sql" = Some sql_text ->
  client_start read_file sqlite_statements run_statement getenv db_path (mkDatabase None ∅) = (d, e) ->
  table_ok (db_rows d) ->
  (d, e) = run_script run_statement (sqlite_statements sql_text) (mkDatabase (Some mapped_columns) ∅)
  /\ (e = None /\ test_list_products_default_pagination now (db_rows d) = true
      <-> e = None /\ (3 <= size (db_rows d))%nat).
Proof.
  intros Hg Hr Hc Hok. split; [rewrite <- Hc; by apply client_fresh_seeds|].
  assert (store_ok (db_rows d)) as Hs by exact Hok.
  rewrite (default_pagination_laws now (db_rows d) Hs). tauto.
Qed.

(** C36. [test_crud_product] passes on every valid table that has a rowid
    left: [POST] answers 201, [PUT] of price and stock answers 200 with
    the new values, [DELETE] answers 204 and the following [GET] 404. *)
Theorem test_crud_product_passes now db :
  table_ok db -> is_ok (next_rowid db) = true -> test_crud_product now db = true.
Proof. intros Hok Hr. exact (crud_test_laws now db Hok Hr). Qed.

(** C37. [test_list_products_filter_by_name] passes on a valid table that
    has a row matching the filter, when every row that matches the
    case-insensitive filter contains ["Paracetamol"] with that
    capitalisation. *)
Theorem test_filter_by_name_passes now db :
  table_ok db ->
  (exists k p, db !! k = Some p /\ spec_filter (Some "Paracetamol") p = true) ->
  map_Forall (fun _ p => spec_filter (Some "Paracetamol") p = true ->
                         contains "Paracetamol" (prod_name p) = true) db ->
  test_list_products_filter_by_name now db = true.
Proof. intros Hok Hex Hall. exact (filter_by_name_laws now db Hok Hex Hall). Qed.


(** ** Witnesses *)

(** A seed script of three [INSERT]s, each adding a valid row under the
    next id. *)
Definition ex_story (f : string) : option string :=
  if String.eqb f "story.sql" then Some "INSERT;INSERT;INSERT"%string else None.

Definition ex_story_row (k : Z) : Product := mkProduct k "Producto" None 1%float 0 0.

Definition ex_seed_insert (_ : string) (d : Database) : result DbError Database :=
  let k := Z.of_nat (S (size (db_rows d))) in
  Ok (mkDatabase (db_columns d) (<[k := ex_story_row k]> (db_rows d))).

Definition ex_seeded3 : Database :=
  mkDatabase (Some mapped_columns)
    (<[3%Z := ex_story_row 3]> (<[2%Z := ex_story_row 2]> (<[1%Z := ex_story_row 1]> ∅))).

Lemma test_default_pagination_iff_witness :
  client_start ex_story ex_sqlite_split ex_seed_insert ex_env "/tmp/test_story.db" (mkDatabase None ∅)
    = (ex_seeded3, None)
  /\ (ex_seeded3, None) = run_script ex_seed_insert (ex_sqlite_split "INSERT;INSERT;INSERT")
                             (mkDatabase (Some mapped_columns) ∅)
  /\ ((None : option DbError) = None /\ test_list_products_default_pagination 0 (db_rows ex_seeded3) = true
      <-> (None : option DbError) = None /\ (3 <= size (db_rows ex_seeded3))%nat).
Proof.
  assert (client_start ex_story ex_sqlite_split ex_seed_insert ex_env "/tmp/test_story.db"
            (mkDatabase None ∅) = (ex_seeded3, None)) as H by (vm_compute; reflexivity).
  split; [exact H|].
  apply (test_default_pagination_iff ex_story ex_sqlite_split ex_seed_insert ex_env "/tmp/test_story.db"
           "INSERT;INSERT;INSERT" 0 ex_seeded3 None eq_refl eq_refl H).
  unfold ex_seeded3, ex_story_row. simpl. solve_table_ok.
Defined.

Lemma test_crud_product_passes_witness : test_crud_product 0 ex_db = true.
Proof. apply (test_crud_product_passes 0 ex_db ex_db_table_ok). reflexivity. Defined.

Lemma test_filter_by_name_passes_witness : test_list_products_filter_by_name 0 ex_db = true.
Proof.
  apply (test_filter_by_name_passes 0 ex_db ex_db_table_ok).
  - exists 1%Z, ex_p1. split; reflexivity.
  - unfold ex_db. repeat apply map_Forall_insert_2; [..|apply map_Forall_empty];
      intros H; vm_compute in H |- *; congruence.
Defined.
